(** * Semester planner: the schedule model, the presentation builder and the
    canvas page (layout, hit-testing, selection and export)

    The development embeds three source files:
    - [models.py]: [Time], [ClassTime], [Course], [Subject], [Timetable];
    - [visualize.py], Python half: [CourseDto], [_course_to_dto],
      [_compute_time_bounds], the flattening and sorting of [_build_payload];
    - [visualize.py], script of the generated page: [minuteToY], [yToMinute],
      [computeDayLanes], [drawCourses], [courseAtPoint], [toggleSelection],
      the click handlers of the clear and export buttons.

    Python integers are modelled as [Z]; the numbers of the page are modelled
    as [Z] where the script only ever holds integers (minutes, lane indexes)
    and as exact rationals [Q] where it divides (pixel coordinates).  Text is
    modelled as [string], a sequence of characters with code points below
    256: comparing such sequences character by character orders them as
    Python orders text. *)

From Stdlib Require Import ZArith QArith Qminmax Lia Lqa Bool Ascii.
From Stdlib Require String.
From Stdlib Require Import DecimalString DecimalNat DecimalZ.
From Stdlib Require Import Sorting.Sorted Sorting.Permutation.
From stdpp Require Import base option list gmap strings.

Open Scope Z_scope.

(* ===================================================================== *)
(** * Exceptions *)
(* ===================================================================== *)

(** The only exception the modelled code raises: by an explicit [raise], by
    unpacking a list of the wrong length, by [int()] on a bad literal or by
    [list.index] on an absent element. *)
Inductive exn : Type := ValueError.

Inductive result (A : Type) : Type :=
  | Ok (a : A)
  | Raise (e : exn).
Arguments Ok {A} a.
Arguments Raise {A} e.

Definition rbind {A B} (r : result A) (k : A -> result B) : result B :=
  match r with
  | Ok a => k a
  | Raise e => Raise e
  end.

#[export] Instance result_ret : MRet result := fun A a => Ok a.
#[export] Instance result_bind : MBind result := fun A B k r => rbind r k.

Definition is_ok {A} (r : result A) : bool :=
  match r with Ok _ => true | Raise _ => false end.

(** [for x in l: ...] collecting results, stopping at the first exception. *)
Fixpoint rmapM {A B} (f : A -> result B) (l : list A) : result (list B) :=
  match l with
  | [] => Ok []
  | x :: l' => y ← f x; ys ← rmapM f l'; Ok (y :: ys)
  end.

(* ===================================================================== *)
(** * Python built-ins used by the model *)
(* ===================================================================== *)

(** [s.split(sep)] for a one-character separator: one more part than there
    are separators, empty parts kept. *)
Fixpoint str_split (sep : ascii) (s : string) : list string :=
  match s with
  | EmptyString => [EmptyString]
  | String c s' =>
      if Ascii.eqb c sep then EmptyString :: str_split sep s'
      else match str_split sep s' with
           | [] => [String c EmptyString]
           | p :: ps => String c p :: ps
           end
  end.

(** [s.split(sep, 1)]: cut at the first separator only. *)
Fixpoint str_split1 (sep : ascii) (s : string) : list string :=
  match s with
  | EmptyString => [EmptyString]
  | String c s' =>
      if Ascii.eqb c sep then [EmptyString; s']
      else match str_split1 sep s' with
           | [] => [String c EmptyString]
           | p :: ps => String c p :: ps
           end
  end.

(** [a, b = parts]: raises unless there are exactly two parts. *)
Definition unpack2 {A} (parts : list A) : result (A * A) :=
  match parts with
  | [a; b] => Ok (a, b)
  | _ => Raise ValueError
  end.

(** Text is a sequence of code points below 256, the characters of [ascii].
    [Py_ISSPACE] is the white space of C, [Py_UNICODE_ISSPACE] the white
    space of [str.strip()] and [str.isspace()] among these code points. *)
Definition Py_ISSPACE (c : ascii) : bool :=
  let n := nat_of_ascii c in
  ((9 <=? n)%nat && (n <=? 13)%nat) || (n =? 32)%nat.

Definition Py_UNICODE_ISSPACE (c : ascii) : bool :=
  let n := nat_of_ascii c in
  ((9 <=? n)%nat && (n <=? 13)%nat) || ((28 <=? n)%nat && (n <=? 32)%nat)
  || (n =? 133)%nat || (n =? 160)%nat.

(** Characters [int()] strips around a literal: it turns the white space
    from code point 127 on into blanks and then skips [Py_ISSPACE], so the
    separators 28 to 31 are not stripped. *)
Definition is_space (c : ascii) : bool :=
  Py_ISSPACE c || ((127 <=? nat_of_ascii c)%nat && Py_UNICODE_ISSPACE c).

Definition digit_of (c : ascii) : option Z :=
  let n := nat_of_ascii c in
  if ((48 <=? n)%nat && (n <=? 57)%nat) then Some (Z.of_nat (n - 48)) else None.

(** Drop the characters of [sp] at the left end, at the right end. *)
Fixpoint lstrip (sp : ascii -> bool) (s : string) : string :=
  match s with
  | EmptyString => EmptyString
  | String c s' => if sp c then lstrip sp s' else s
  end.

Fixpoint rstrip (sp : ascii -> bool) (s : string) : string :=
  match s with
  | EmptyString => EmptyString
  | String c s' =>
      match rstrip sp s' with
      | EmptyString => if sp c then EmptyString else String c EmptyString
      | r => String c r
      end
  end.

(** Digits with single underscores between them; [after_digit] tells whether
    the previous character was a digit. *)
Fixpoint parse_digits (acc : Z) (after_digit : bool) (s : string) : option Z :=
  match s with
  | EmptyString => if after_digit then Some acc else None
  | String c s' =>
      match digit_of c with
      | Some d => parse_digits (acc * 10 + d) true s'
      | None =>
          if Ascii.eqb c "_"%char && after_digit then parse_digits acc false s'
          else None
      end
  end.

(** [int(s)] on text: surrounding white space, an optional sign, decimal
    digits with single underscores between them.  (Below code point 256 the
    decimal digits are 0 to 9.) *)
Definition py_int (s : string) : result Z :=
  let t := rstrip is_space (lstrip is_space s) in
  let r := match t with
           | String "+"%char u => parse_digits 0 false u
           | String "-"%char u => Z.opp <$> parse_digits 0 false u
           | _ => parse_digits 0 false t
           end in
  match r with
  | Some z => Ok z
  | None => Raise ValueError
  end.

(** [str(n)] for an integer. *)
Definition py_str_int (z : Z) : string := NilEmpty.string_of_int (Z.to_int z).

(** [f"{n:02}"]: zero-padded to width two. *)
Definition fmt02 (z : Z) : string :=
  let s := py_str_int z in
  if (String.length s <? 2)%nat then "0" +:+ s else s.

(** [l.index(x)]. *)
Fixpoint list_index (x : string) (l : list string) : result nat :=
  match l with
  | [] => Raise ValueError
  | y :: l' => if String.eqb x y then Ok 0%nat
               else i ← list_index x l'; Ok (S i)
  end.

(** [x in l] for a list of text. *)
Definition str_in (x : string) (l : list string) : bool :=
  existsb (String.eqb x) l.

(* ===================================================================== *)
(** * models.py *)
(* ===================================================================== *)

Definition DAYS_OF_WEEK : list string := ["H"; "K"; "SZE"; "CS"; "P"].

Record Time : Type := mkTime { hour : Z; minute : Z }.

Definition Time_from_string (value : string) : result Time :=
  '(hour_str, minute_str) ← unpack2 (str_split ":"%char value);
  h ← py_int hour_str;
  m ← py_int minute_str;
  Ok (mkTime h m).

Definition to_minutes (t : Time) : Z := hour t * 60 + minute t.

Definition Time_str (t : Time) : string :=
  fmt02 (hour t) +:+ ":" +:+ fmt02 (minute t).

Record ClassTime : Type := mkClassTime {
  ct_day : string;
  start_time : Time;
  end_time : Time
}.

Definition ClassTime_str (ct : ClassTime) : string :=
  ct_day ct +:+ ":" +:+ Time_str (start_time ct) +:+ "-" +:+ Time_str (end_time ct).

(** A course keeps its time as the text of the input row; [Course(code, time)]
    stores both fields and checks nothing. *)
Record Course : Type := mkCourse { code : string; time : string }.

Definition get_time (self : Course) : result ClassTime :=
  '(day_part, hours_part) ← unpack2 (str_split1 ":"%char (time self));
  if negb (str_in day_part DAYS_OF_WEEK) then Raise ValueError
  else
    '(start_time_str, end_time_str) ← unpack2 (str_split "-"%char hours_part);
    st ← Time_from_string start_time_str;
    en ← Time_from_string end_time_str;
    Ok (mkClassTime day_part st en).

Record Subject : Type := mkSubject {
  name : string;
  subject_code : string;
  credits : Z;
  courses : list Course
}.

Record Timetable : Type := mkTimetable { subjects : list Subject }.

(* ===================================================================== *)
(** * visualize.py: the presentation builder *)
(* ===================================================================== *)

Record CourseDto : Type := mkCourseDto {
  id : string;
  dto_subject_code : string;
  subject_name : string;
  subject_credits : Z;
  course_code : string;
  day : string;
  start_min : Z;
  end_min : Z;
  time_str : string
}.

(** [f"{index}"] for the non-negative index that [enumerate] yields. *)
Definition index_str (index : nat) : string :=
  NilEmpty.string_of_uint (Nat.to_uint index).

Definition course_id (subject : Subject) (course : Course) (index : nat) : string :=
  subject_code subject +:+ "__" +:+ code course +:+ "__" +:+ index_str index.

Definition _course_to_dto (subject : Subject) (course : Course) (index : nat)
  : result CourseDto :=
  ct ← get_time course;
  Ok {| id := course_id subject course index;
        dto_subject_code := subject_code subject;
        subject_name := name subject;
        subject_credits := credits subject;
        course_code := code course;
        day := ct_day ct;
        start_min := to_minutes (start_time ct);
        end_min := to_minutes (end_time ct);
        time_str := ClassTime_str ct |}.

(** [min(...)] and [max(...)] over a generator with a first element. *)
Definition py_min (x : Z) (xs : list Z) : Z := fold_left Z.min xs x.
Definition py_max (x : Z) (xs : list Z) : Z := fold_left Z.max xs x.

Definition _compute_time_bounds (cs : list CourseDto) : Z * Z :=
  match cs with
  | [] => (8 * 60, 20 * 60)
  | c :: rest =>
      let min_start := py_min (start_min c) (map start_min rest) in
      let max_end := py_max (end_min c) (map end_min rest) in
      (* Pad to nearest hour to keep the grid clean. *)
      let min_start := (min_start / 60) * 60 in
      let max_end := ((max_end + 59) / 60) * 60 in
      (* Reasonable clamp. *)
      let min_start := Z.max (6 * 60) min_start in
      let max_end := Z.min (22 * 60) max_end in
      let max_end := if max_end <=? min_start then min_start + 60 else max_end in
      (min_start, max_end)
  end.

Definition _palette : list string :=
  ["#4E79A7"; "#F28E2B"; "#E15759"; "#76B7B2"; "#59A14F";
   "#EDC948"; "#B07AA1"; "#FF9DA7"; "#9C755F"; "#BAB0AC"].

(** The key of [courses.sort(key=...)]: a tuple, compared component by
    component, the first differing component deciding. *)
Record SortKey : Type := mkSortKey {
  k_day : nat;
  k_start : Z;
  k_end : Z;
  k_subject : string;
  k_course : string
}.

Definition sort_key (c : CourseDto) : result SortKey :=
  i ← list_index (day c) DAYS_OF_WEEK;
  Ok (mkSortKey i (start_min c) (end_min c) (dto_subject_code c) (course_code c)).

Definition lex (c1 c2 : comparison) : comparison :=
  match c1 with Eq => c2 | _ => c1 end.

Definition key_compare (a b : SortKey) : comparison :=
  lex (Nat.compare (k_day a) (k_day b))
 (lex (Z.compare (k_start a) (k_start b))
 (lex (Z.compare (k_end a) (k_end b))
 (lex (String.compare (k_subject a) (k_subject b))
      (String.compare (k_course a) (k_course b))))).

Definition key_lt (a b : SortKey) : bool :=
  match key_compare a b with Lt => true | _ => false end.

Definition key_le (a b : SortKey) : bool := negb (key_lt b a).

(** [list.sort] is stable and decides with [<] on the keys alone.  A stable
    sort has one possible result, so it is modelled by the simplest stable
    algorithm: each element is put in front of the sorted rest, before the
    first element that is not smaller than it. *)
Section StableSort.
Context {A : Type} (lt : A -> A -> bool).

Fixpoint insert_by (x : A) (l : list A) : list A :=
  match l with
  | [] => [x]
  | y :: l' => if lt y x then y :: insert_by x l' else x :: l
  end.

Definition stable_sort (l : list A) : list A := foldr insert_by [] l.

(** [a] may stand before [b] in a sorted list: [b] is not smaller. *)
Definition not_after (a b : A) : Prop := lt b a = false.
End StableSort.

(** [courses.sort(key=...)]: the keys are computed first (any of them may
    raise), then the list is sorted on them. *)
Definition sort_courses (cs : list CourseDto) : result (list CourseDto) :=
  keyed ← rmapM (fun c => k ← sort_key c; Ok (k, c)) cs;
  Ok (map snd (stable_sort (fun x y => key_lt (fst x) (fst y)) keyed)).

(** The nested loops of [_build_payload] that flatten the timetable:
    [for subject in timetable.subjects: for idx, course in
    enumerate(subject.courses)]. *)
Definition subject_dtos (subject : Subject) : result (list CourseDto) :=
  rmapM (fun ic => _course_to_dto subject (snd ic) (fst ic))
        (imap (fun i c => (i, c)) (courses subject)).

Definition flatten_courses (timetable : Timetable) : result (list CourseDto) :=
  per_subject ← rmapM subject_dtos (subjects timetable);
  Ok (concat per_subject).

Record SubjectInfo : Type := mkSubjectInfo {
  si_code : string;
  si_name : string;
  si_credits : Z;
  si_color : string
}.

Record Meta : Type := mkMeta {
  startMin : Z;
  endMin : Z;
  days : list string
}.

(** The payload handed to the page.  [subjects] is a dict keyed by subject
    code: a later subject with the same code replaces the earlier entry. *)
Record Payload : Type := mkPayload {
  meta : Meta;
  p_subjects : gmap string SubjectInfo;
  p_courses : list CourseDto
}.

Definition palette_color (i : nat) : string :=
  default "" (_palette !! (i mod length _palette)%nat).

Definition build_subjects (l : list Subject) : gmap string SubjectInfo :=
  fold_left (fun m (ix : nat * Subject) =>
               <[subject_code (snd ix) :=
                   mkSubjectInfo (subject_code (snd ix)) (name (snd ix))
                                 (credits (snd ix)) (palette_color (fst ix))]> m)
            (imap (fun i s => (i, s)) l) ∅.

Definition _build_payload (timetable : Timetable) : result Payload :=
  cs ← flatten_courses timetable;
  cs ← sort_courses cs;
  let '(start_min, end_min) := _compute_time_bounds cs in
  Ok {| meta := mkMeta start_min end_min DAYS_OF_WEEK;
        p_subjects := build_subjects (subjects timetable);
        p_courses := cs |}.

(* ===================================================================== *)
(** * visualize.py: the script of the generated page *)
(* ===================================================================== *)

(** The [<canvas id="tt" width="1100" height="720">] element. *)
Definition canvas_width : Z := 1100.
Definition canvas_height : Z := 720.

Module layout.
Definition pad : Z := 18.
Definition headerH : Z := 36.
Definition timeColW : Z := 70.
Definition dayColW : Z := 190.
Definition rowMinStep : Z := 30.
Definition blockPad : Z := 6.
Definition corner : Z := 10.
End layout.

(** One entry of [hitboxes]: [{id, x, y, w, h}]. *)
Record Hitbox : Type := mkHitbox {
  hb_id : string;
  hb_x : Q;
  hb_y : Q;
  hb_w : Q;
  hb_h : Q
}.

(** What ends up on a drawing surface: the grid, and one rounded block per
    drawn course with the two style choices the script makes from
    [isSelected] and [exportMode].  (Text inside a block depends on font
    metrics and is left out.) *)
Inductive DrawCmd : Type :=
  | DrawGrid
  | DrawBlock (box : Hitbox) (isSelected : bool) (dashed : bool).

Record Surface : Type := mkSurface {
  s_width : Z;
  s_height : Z;
  s_cmds : list DrawCmd
}.

(** The drawing context [ctx] is a global that points either at the visible
    canvas or at the offscreen canvas made by the export handler. *)
Inductive Target : Type := OnCanvas | OffScreen.

Record Page : Type := mkPage {
  visibleSubjects : gset string;
  selectedCourseIds : gset string;
  hitboxes : list Hitbox;
  ctx : Target;
  canvas : Surface;
  off : Surface;
  statusText : string;
  statusDanger : bool
}.

Definition set_hitboxes (h : list Hitbox) (st : Page) : Page :=
  mkPage (visibleSubjects st) (selectedCourseIds st) h (ctx st) (canvas st)
         (off st) (statusText st) (statusDanger st).

Definition set_ctx (t : Target) (st : Page) : Page :=
  mkPage (visibleSubjects st) (selectedCourseIds st) (hitboxes st) t (canvas st)
         (off st) (statusText st) (statusDanger st).

Definition set_off (s : Surface) (st : Page) : Page :=
  mkPage (visibleSubjects st) (selectedCourseIds st) (hitboxes st) (ctx st)
         (canvas st) s (statusText st) (statusDanger st).

Definition set_visible (v : gset string) (st : Page) : Page :=
  mkPage v (selectedCourseIds st) (hitboxes st) (ctx st) (canvas st)
         (off st) (statusText st) (statusDanger st).

Definition set_selected (v : gset string) (st : Page) : Page :=
  mkPage (visibleSubjects st) v (hitboxes st) (ctx st) (canvas st)
         (off st) (statusText st) (statusDanger st).

(** [setStatus(text, isDanger=false)]. *)
Definition setStatus (text : string) (isDanger : bool) (st : Page) : Page :=
  mkPage (visibleSubjects st) (selectedCourseIds st) (hitboxes st) (ctx st)
         (canvas st) (off st) text isDanger.

(** Drawing through [ctx]: the surface it points at receives the command. *)
Definition on_target (f : Surface -> Surface) (st : Page) : Page :=
  match ctx st with
  | OnCanvas =>
      mkPage (visibleSubjects st) (selectedCourseIds st) (hitboxes st) (ctx st)
             (f (canvas st)) (off st) (statusText st) (statusDanger st)
  | OffScreen =>
      mkPage (visibleSubjects st) (selectedCourseIds st) (hitboxes st) (ctx st)
             (canvas st) (f (off st)) (statusText st) (statusDanger st)
  end.

Definition emit (c : DrawCmd) (s : Surface) : Surface :=
  mkSurface (s_width s) (s_height s) (s_cmds s ++ [c]).

(** [drawGrid] starts with [ctx.clearRect(0,0,canvas.width,canvas.height)]:
    whatever the surface held is replaced by the grid. *)
Definition drawGrid (st : Page) : Page :=
  on_target (fun s => mkSurface (s_width s) (s_height s) [DrawGrid]) st.

(** [{course, lane, laneCount}]. *)
Record Placed : Type := mkPlaced {
  course : CourseDto;
  lane : nat;
  laneCount : nat
}.

(** The inner loop of [computeDayLanes]: the first lane [i], from [i0] on,
    with [startMin >= lanes[i]]; [None] stands for [laneIndex === -1]. *)
Fixpoint find_lane (lanes : list Z) (startMin : Z) (i0 : nat) : option nat :=
  match lanes with
  | [] => None
  | e :: lanes' =>
      if e <=? startMin then Some i0 else find_lane lanes' startMin (S i0)
  end.

(** One turn of the outer loop: the lane of [c] and the updated lane ends. *)
Definition place (lanes : list Z) (c : CourseDto) : list Z * nat :=
  match find_lane lanes (start_min c) 0 with
  | None => (lanes ++ [end_min c], (length (lanes ++ [end_min c]) - 1)%nat)
  | Some laneIndex => (<[laneIndex := end_min c]> lanes, laneIndex)
  end.

(** The outer loop: [placed] in the order of [sorted], and the final lanes. *)
Fixpoint place_all (lanes : list Z) (sorted : list CourseDto)
  : list (CourseDto * nat) * list Z :=
  match sorted with
  | [] => ([], lanes)
  | c :: rest =>
      let '(lanes', laneIndex) := place lanes c in
      let '(placed, final) := place_all lanes' rest in
      ((c, laneIndex) :: placed, final)
  end.

(** The comparator [(a,b) => a.startMin - b.startMin || a.endMin - b.endMin]. *)
Definition lane_cmp (a b : CourseDto) : Z :=
  let d := start_min a - start_min b in
  if d =? 0 then end_min a - end_min b else d.

(** [Array.prototype.sort] is stable; [a] goes before [b] when the comparator
    is negative. *)
Definition lane_sort (dayCourses : list CourseDto) : list CourseDto :=
  stable_sort (fun a b => lane_cmp a b <? 0) dayCourses.

(** The order [lane_sort] establishes. *)
Definition lane_before (a b : CourseDto) : Prop :=
  start_min a < start_min b
  \/ (start_min a = start_min b /\ end_min a <= end_min b).

(** [lanes.length || 1]. *)
Definition lane_count (lanes : list Z) : nat :=
  match length lanes with
  | O => 1%nat
  | n => n
  end.

Definition computeDayLanes (dayCourses : list CourseDto) : list Placed :=
  let '(placed, lanes) := place_all [] (lane_sort dayCourses) in
  let laneCount := lane_count lanes in
  map (fun p => mkPlaced (fst p) (snd p) laneCount) placed.

Section PageScript.
(** [const DATA = __PAYLOAD_JSON__]. *)
Variable DATA : Payload.

Definition DAYS : list string := days (meta DATA).
Definition START_MIN : Z := startMin (meta DATA).
Definition END_MIN : Z := endMin (meta DATA).
Definition page_courses : list CourseDto := p_courses DATA.

(** [minuteToY] and [yToMinute] divide by [END_MIN - START_MIN] and by the
    usable height.  In [Q] a division by zero gives zero where the script
    gets an infinity or a NaN; the builder always makes [END_MIN] greater
    than [START_MIN] and the usable height is 648. *)
Definition minuteToY (minute : Q) : Q :=
  let usableH := inject_Z (canvas_height - layout.pad * 2 - layout.headerH) in
  let total := inject_Z (END_MIN - START_MIN) in
  let t := ((minute - inject_Z START_MIN) / total)%Q in
  (inject_Z (layout.pad + layout.headerH) + t * usableH)%Q.

Definition yToMinute (y : Q) : Q :=
  let usableH := inject_Z (canvas_height - layout.pad * 2 - layout.headerH) in
  let total := inject_Z (END_MIN - START_MIN) in
  let t := ((y - inject_Z (layout.pad + layout.headerH)) / usableH)%Q in
  (inject_Z START_MIN + t * total)%Q.

(** The candidates of one day column in [drawCourses]. *)
Definition day_courses (exportMode : bool) (st : Page) (d : string)
  : list CourseDto :=
  let dayCourses :=
    filter (fun c => day c = d ∧ dto_subject_code c ∈ visibleSubjects st)
           page_courses in
  if exportMode
  then filter (fun c => id c ∈ selectedCourseIds st) dayCourses
  else dayCourses.

(** The rectangle of a placed course in day column [di]. *)
Definition block_box (di : nat) (p : Placed) : Hitbox :=
  let x0 := layout.pad + layout.timeColW in
  let yBottom := canvas_height - layout.pad in
  let dayX := inject_Z (x0 + Z.of_nat di * layout.dayColW) in
  let dayW := layout.dayColW in
  let c := course p in
  let yStart := minuteToY (inject_Z (start_min c)) in
  let yEnd := minuteToY (inject_Z (end_min c)) in
  let h := Qmax 16 (yEnd - yStart) in
  let laneGap := 6 in
  let usableW := dayW - 2 * layout.blockPad in
  let laneW :=
    (inject_Z (usableW - laneGap * (Z.of_nat (laneCount p) - 1))
     / inject_Z (Z.of_nat (laneCount p)))%Q in
  let x :=
    (dayX + inject_Z layout.blockPad
     + inject_Z (Z.of_nat (lane p)) * (laneW + inject_Z laneGap))%Q in
  let y := Qmin (inject_Z (yBottom - 10)) (yStart + 1) in
  let w := Qmax 30 laneW in
  mkHitbox (id c) x y w h.

(** The body of [for (const p of placed)]. *)
Definition draw_placed (exportMode : bool) (di : nat) (st : Page) (p : Placed)
  : Page :=
  let box := block_box di p in
  let isSelected := bool_decide (id (course p) ∈ selectedCourseIds st) in
  let dashed := negb isSelected && negb exportMode in
  let st := on_target (emit (DrawBlock box isSelected dashed)) st in
  if exportMode then st else set_hitboxes (hitboxes st ++ [box]) st.

(** The body of [for (let di=0; di<DAYS.length; di++)]. *)
Definition draw_day (exportMode : bool) (st : Page) (col : nat * string) : Page :=
  let placed := computeDayLanes (day_courses exportMode st (snd col)) in
  foldl (draw_placed exportMode (fst col)) st placed.

Definition drawCourses (exportMode : bool) (st : Page) : Page :=
  let st := set_hitboxes [] st in
  foldl (draw_day exportMode) st (imap (fun di d => (di, d)) DAYS).

Definition render (st : Page) : Page :=
  let st := drawGrid st in
  let st := drawCourses false st in
  let selectedCount := size (selectedCourseIds st) in
  setStatus ("Selected classes: " +:+ index_str selectedCount +:+ ".") false st.

Definition findCourseById (i : string) : option CourseDto :=
  List.find (fun c => String.eqb (id c) i) page_courses.

Definition toggleSelection (i : string) (st : Page) : Page :=
  match findCourseById i with
  | None => st
  | Some c =>
      if decide (i ∈ selectedCourseIds st) then
        let st := set_selected (selectedCourseIds st ∖ {[i]}) st in
        let st := setStatus ("Deselected " +:+ dto_subject_code c +:+ " / "
                             +:+ course_code c +:+ ".") false st in
        render st
      else
        let st := set_selected ({[i]} ∪ selectedCourseIds st) st in
        let st := setStatus ("Selected " +:+ dto_subject_code c +:+ " / "
                             +:+ course_code c +:+ ".") false st in
        render st
  end.

(** [x >= b.x && x <= b.x + b.w && y >= b.y && y <= b.y + b.h]. *)
Definition box_contains (b : Hitbox) (x y : Q) : bool :=
  Qle_bool (hb_x b) x && Qle_bool x (hb_x b + hb_w b)
  && Qle_bool (hb_y b) y && Qle_bool y (hb_y b + hb_h b).

(** [for (let i=hitboxes.length-1; i>=0; i--)], with [n = i + 1]. *)
Fixpoint scan_hitboxes (boxes : list Hitbox) (n : nat) (x y : Q)
  : option string :=
  match n with
  | O => None
  | S i =>
      match boxes !! i with
      | Some b => if box_contains b x y then Some (hb_id b)
                  else scan_hitboxes boxes i x y
      | None => scan_hitboxes boxes i x y
      end
  end.

Definition courseAtPoint (st : Page) (x y : Q) : option string :=
  scan_hitboxes (hitboxes st) (length (hitboxes st)) x y.

(** The canvas click handler: [if (id) toggleSelection(id)]; the empty text
    is falsy. *)
Definition canvas_click (x y : Q) (st : Page) : Page :=
  match courseAtPoint st x y with
  | Some i => if String.eqb i "" then st else toggleSelection i st
  | None => st
  end.

(** The [change] handler of a subject's checkbox. *)
Definition checkbox_change (sub_code : string) (checked : bool) (st : Page)
  : Page :=
  let st := if checked
            then set_visible ({[sub_code]} ∪ visibleSubjects st) st
            else set_visible (visibleSubjects st ∖ {[sub_code]}) st in
  render st.

Definition clearBtn_click (st : Page) : Page :=
  let st := set_selected ∅ st in
  let st := setStatus "Cleared selection." false st in
  render st.

(** The export handler.  The second component is the offscreen canvas whose
    [toDataURL('image/png')] is downloaded; [None] when the handler returns
    before making it. *)
Definition exportBtn_click (st : Page) : Page * option Surface :=
  if decide (size (selectedCourseIds st) = 0%nat) then
    (setStatus "Nothing selected to export." true st, None)
  else
    let st := set_off (mkSurface (s_width (canvas st)) (s_height (canvas st)) [])
                      st in
    let saved := ctx st in
    let st := set_ctx OffScreen st in
    let st := drawGrid st in
    let st := drawCourses true st in
    let st := set_ctx saved st in
    let url := off st in
    (setStatus "Exported PNG." false st, Some url).

(** [Object.keys(subjects)] for the object the literal pasted for
    [DATA.subjects] evaluates to.  In an object literal the key [__proto__]
    sets the prototype and makes no property, so a subject with this code is
    not among the keys. *)
Definition Object_keys (subjects : gmap string SubjectInfo) : gset string :=
  dom subjects ∖ {["__proto__"]}.

(** The state once the script has run to its end: every subject among the
    keys visible, nothing selected, first [render] done. *)
Definition initial_page : Page :=
  render (mkPage (Object_keys (p_subjects DATA)) ∅ [] OnCanvas
                 (mkSurface canvas_width canvas_height []) 
                 (mkSurface 0 0 []) "Ready." false).
End PageScript.

(** Two entries of [placed], the first pushed before the second: if they
    share a lane, the first has ended when the second starts. *)
Definition separated (p q : CourseDto * nat) : Prop :=
  snd p = snd q -> end_min (fst p) <= start_min (fst q).

(* ===================================================================== *)
(** * Sample data *)
(* ===================================================================== *)

(** Two back-to-back sessions and one overlapping the first, all on [CS]. *)
Definition dto_10_11 : CourseDto :=
  mkCourseDto "A__L1__0" "A" "Algebra" 4 "L1" "CS" 600 660 "CS:10:00-11:00".
Definition dto_11_12 : CourseDto :=
  mkCourseDto "A__L2__1" "A" "Algebra" 4 "L2" "CS" 660 720 "CS:11:00-12:00".
Definition dto_1030_1130 : CourseDto :=
  mkCourseDto "B__G1__0" "B" "Analysis" 5 "G1" "CS" 630 690 "CS:10:30-11:30".

(** A session late in the evening, and the one of the fourth scenario. *)
Definition dto_23_2330 : CourseDto :=
  mkCourseDto "A__L3__2" "A" "Algebra" 4 "L3" "H" 1380 1410 "H:23:00-23:30".
Definition dto_0810_0905 : CourseDto :=
  mkCourseDto "A__L4__3" "A" "Algebra" 4 "L4" "H" 490 545 "H:08:10-09:05".

(* ===================================================================== *)
(** * The display window as the specification words it *)
(* ===================================================================== *)

Definition floor_hour (m : Z) : Z := (m / 60) * 60.
Definition ceil_hour (m : Z) : Z := ((m + 59) / 60) * 60.

(** Clamping a value into a range. *)
Definition clamp (lo hi x : Z) : Z := Z.max lo (Z.min hi x).

(** "Floor the earliest start to the containing hour, ceil the latest end to
    the containing hour, then clamp the result into 06:00-22:00; if after
    clamping the end is not after the start, force it to start + 60": both
    ends of the window are clamped into the range. *)
Definition spec_time_bounds (cs : list CourseDto) : Z * Z :=
  match cs with
  | [] => (8 * 60, 20 * 60)
  | c :: rest =>
      let earliest := py_min (start_min c) (map start_min rest) in
      let latest := py_max (end_min c) (map end_min rest) in
      let s := clamp (6 * 60) (22 * 60) (floor_hour earliest) in
      let e := clamp (6 * 60) (22 * 60) (ceil_hour latest) in
      (s, if e <=? s then s + 60 else e)
  end.

(** What the code does instead: the start is only raised to 06:00, the end is
    only lowered to 22:00. *)
Definition one_sided_bounds (earliest latest : Z) : Z * Z :=
  let s := Z.max (6 * 60) (floor_hour earliest) in
  let e := Z.min (22 * 60) (ceil_hour latest) in
  (s, if e <=? s then s + 60 else e).

(** A payload for the three sample sessions on [CS]. *)
Definition sample_data : Payload :=
  mkPayload (mkMeta 600 720 DAYS_OF_WEEK) ∅
            [dto_10_11; dto_1030_1130; dto_11_12].

(** Three five-minute sessions in a row on [H] and a long one on [K]: the
    window is 08:00-20:00, so the three short blocks get the minimum height
    of 16 pixels and lie 4.5 pixels apart in the same lane. *)
Definition short_sessions : Timetable :=
  mkTimetable [mkSubject "Algebra" "A" 4
                 [mkCourse "L1" "H:10:00-10:05";
                  mkCourse "L2" "H:10:05-10:10";
                  mkCourse "L3" "H:10:10-10:15";
                  mkCourse "L4" "K:08:00-20:00"]].

Definition payload_or_empty (r : result Payload) : Payload :=
  match r with
  | Ok p => p
  | Raise _ => mkPayload (mkMeta 0 0 []) ∅ []
  end.

Definition short_data : Payload := payload_or_empty (_build_payload short_sessions).

(** The last-drawn rectangle containing the point, if any. *)
Definition topmost (boxes : list Hitbox) (x y : Q) : option Hitbox :=
  List.find (fun b => box_contains b x y) (rev boxes).

(** The two overlapping sessions of the first scenario, in two subjects. *)
Definition overlap_sessions : Timetable :=
  mkTimetable [mkSubject "Algebra" "A" 4 [mkCourse "L1" "CS:10:00-11:00"];
               mkSubject "Analysis" "B" 5 [mkCourse "G1" "CS:10:30-11:30"]].

Definition overlap_data : Payload :=
  payload_or_empty (_build_payload overlap_sessions).

(** The page of [overlap_sessions] after a click on the block of L1. *)
Definition page_L1_selected : Page :=
  toggleSelection overlap_data "A__L1__0" (initial_page overlap_data).

(** A command an export-mode pass may leave on its surface: the grid, or a
    block of a selected course drawn as selected and without dashes. *)
Definition export_cmd (selected : gset string) (c : DrawCmd) : Prop :=
  match c with
  | DrawGrid => True
  | DrawBlock box isSelected dashed =>
      hb_id box ∈ selected /\ isSelected = true /\ dashed = false
  end.

(** What an export-mode pass started in [st0] keeps and what it does. *)
Record export_pass (st0 st : Page) : Prop := mkExportPass {
  ep_visible : visibleSubjects st = visibleSubjects st0;
  ep_selected : selectedCourseIds st = selectedCourseIds st0;
  ep_ctx : ctx st = OffScreen;
  ep_canvas : canvas st = canvas st0;
  ep_hitboxes : hitboxes st = [];
  ep_width : s_width (off st) = s_width (off st0);
  ep_height : s_height (off st) = s_height (off st0);
  ep_status : statusText st = statusText st0 /\ statusDanger st = statusDanger st0;
  ep_cmds : exists blocks,
      s_cmds (off st) = s_cmds (off st0) ++ blocks
      /\ Forall (export_cmd (selectedCourseIds st0)) blocks
}.

(* ===================================================================== *)
(** * The sort order, in words *)
(* ===================================================================== *)

(** A three-way comparison that decides a strict total order. *)
Record good_compare {A : Type} (cmp : A -> A -> comparison) : Prop := mkGoodCompare {
  gc_eq : forall a b, cmp a b = Eq <-> a = b;
  gc_antisym : forall a b, cmp b a = CompOpp (cmp a b);
  gc_trans : forall a b c, cmp a b = Lt -> cmp b c = Lt -> cmp a c = Lt
}.

(** Text is ordered character by character, a proper prefix first. *)
Definition str_lt (a b : string) : Prop := String.compare a b = Lt.

(** "Primarily by the day's ordinal, then start-minute, then end-minute, then
    subject code, then session code." *)
Definition key_leq (a b : SortKey) : Prop :=
  (k_day a < k_day b)%nat \/ (k_day a = k_day b /\
  (k_start a < k_start b \/ (k_start a = k_start b /\
  (k_end a < k_end b \/ (k_end a = k_end b /\
  (str_lt (k_subject a) (k_subject b) \/ (k_subject a = k_subject b /\
  (str_lt (k_course a) (k_course b) \/ k_course a = k_course b)))))))).

(** The courses with one given key. *)
Definition has_key (k : SortKey) (c : CourseDto) : bool :=
  match sort_key c with
  | Ok k' => match key_compare k' k with Eq => true | _ => false end
  | Raise _ => false
  end.

(* ===================================================================== *)
(** * Course ids *)
(* ===================================================================== *)

Fixpoint has_char (ch : ascii) (s : string) : bool :=
  match s with
  | EmptyString => false
  | String c s' => Ascii.eqb c ch || has_char ch s'
  end.

(** The ids [_build_payload] gives to the courses of a subject, and to the
    courses of the whole timetable, in the order of the flattening. *)
Definition subject_ids (subject : Subject) : list string :=
  imap (fun i c => course_id subject c i) (courses subject).

Definition timetable_ids (timetable : Timetable) : list string :=
  concat (map subject_ids (subjects timetable)).

(** Two subjects with different codes whose first courses get the same id. *)
Definition colliding_codes : Timetable :=
  mkTimetable [mkSubject "Algebra" "A" 4 [mkCourse "B__C" "H:08:00-09:00"];
               mkSubject "Analysis" "A__B" 5 [mkCourse "C" "K:08:00-09:00"]].

(* ===================================================================== *)
(** * Well-formed course times *)
(* ===================================================================== *)

(** A number field of a course time: free of both separators and accepted by
    [int()] with value [z]. *)
Definition time_field (s : string) (z : Z) : Prop :=
  has_char ":" s = false /\ has_char "-" s = false /\ py_int s = Ok z.

(** The text [t] reads [day:h1:m1-h2:m2] with a day of [DAYS_OF_WEEK] and
    four number fields, and [ct] holds what was read.  Nothing relates the
    start to the end. *)
Definition time_well_formed (t : string) (ct : ClassTime) : Prop :=
  exists hs ms he me,
    t = ct_day ct +:+ ":" +:+ hs +:+ ":" +:+ ms +:+ "-" +:+ he +:+ ":" +:+ me
    /\ str_in (ct_day ct) DAYS_OF_WEEK = true
    /\ time_field hs (hour (start_time ct))
    /\ time_field ms (minute (start_time ct))
    /\ time_field he (hour (end_time ct))
    /\ time_field me (minute (end_time ct)).

(** A course whose time ends before it starts. *)
Definition course_12_10 : Course := mkCourse "L1" "CS:12:00-10:00".

(* ===================================================================== *)
(** * Further functions of the page script *)
(* ===================================================================== *)

(** [overlaps(a, b)]. *)
Definition overlaps (a b : CourseDto) : bool :=
  String.eqb (day a) (day b)
  && (start_min a <? end_min b) && (start_min b <? end_min a).

(** [q] is running when [p] starts. *)
Definition running_at_start (q p : Placed) : Prop :=
  start_min (course q) <= start_min (course p) < end_min (course q).

(** The command [drawCourses] issues for the block [box]. *)
Definition block_cmd (exportMode : bool) (selected : gset string) (box : Hitbox)
  : DrawCmd :=
  let isSelected := bool_decide (hb_id box ∈ selected) in
  DrawBlock box isSelected (negb isSelected && negb exportMode).

(** The hitboxes a pass pushes: none in export mode. *)
Definition pushed (exportMode : bool) (boxes : list Hitbox) : list Hitbox :=
  if exportMode then [] else boxes.

(** A page after [cmds] went to the surface [ctx] points at and [boxes] were
    pushed on [hitboxes]. *)
Definition with_drawn (boxes : list Hitbox) (cmds : list DrawCmd) (st : Page)
  : Page :=
  on_target (fun s => mkSurface (s_width s) (s_height s) (s_cmds s ++ cmds))
            (set_hitboxes (hitboxes st ++ boxes) st).

(** The blocks of one day column and of all columns, in draw order. *)
Definition day_blocks (DATA : Payload) (exportMode : bool) (st : Page)
    (col : nat * string) : list Hitbox :=
  map (block_box DATA (fst col))
      (computeDayLanes (day_courses DATA exportMode st (snd col))).

Definition all_blocks (DATA : Payload) (exportMode : bool) (st : Page)
  : list Hitbox :=
  concat (map (day_blocks DATA exportMode st)
              (imap (fun di d => (di, d)) (DAYS DATA))).

(** A course the page has a column for and whose subject is visible. *)
Definition shown (DATA : Payload) (st : Page) (c : CourseDto) : Prop :=
  c ∈ page_courses DATA /\ day c ∈ DAYS DATA
  /\ dto_subject_code c ∈ visibleSubjects st.

(** The blocks only depend on the two sets of the view state. *)
Definition blocks_for (DATA : Payload) (exportMode : bool)
    (visible selected : gset string) : list Hitbox :=
  all_blocks DATA exportMode
    (mkPage visible selected [] OnCanvas (mkSurface 0 0 []) (mkSurface 0 0 [])
            "" false).

(** The status line [render] ends with. *)
Definition status_line (selected : gset string) : string :=
  "Selected classes: " +:+ index_str (size selected) +:+ ".".

(** The ids of the blocks among the commands of a surface. *)
Definition drawn_ids (s : Surface) : list string :=
  omap (fun c => match c with
                 | DrawGrid => None
                 | DrawBlock box _ _ => Some (hb_id box)
                 end) (s_cmds s).

(** The page as the script builds it before its first [render]. *)
Definition start_page (DATA : Payload) : Page :=
  mkPage (Object_keys (p_subjects DATA)) ∅ [] OnCanvas
         (mkSurface canvas_width canvas_height []) (mkSurface 0 0 [])
         "Ready." false.

(** [String(n).padStart(2,'0')] for an integer [n]. *)
Definition padStart2 (s : string) : string :=
  String.concat "" (replicate (2 - String.length s) "0") +:+ s.

(** [Number.MAX_SAFE_INTEGER]: up to this size the numbers of the page hold
    every integer exactly. *)
Definition MAX_SAFE_INTEGER : Z := 2 ^ 53 - 1.

(** [formatTime(min)] for an integer [min] of at most [MAX_SAFE_INTEGER] in
    size, where the page's arithmetic agrees with the integers:
    [Math.floor(min / 60)] and [min % 60], each padded to two characters.
    [%] takes the sign of the dividend. *)
Definition formatTime (min : Z) : string :=
  let h := min / 60 in
  let m := Z.rem min 60 in
  padStart2 (py_str_int h) +:+ ":" +:+ padStart2 (py_str_int m).

(** Text made of decimal digits only. *)
Fixpoint digits_only (s : string) : bool :=
  match s with
  | EmptyString => true
  | String c s' =>
      match digit_of c with Some _ => digits_only s' | None => false end
  end.

(** A [ClassTime] whose four numbers are not negative. *)
Definition nonneg_time (ct : ClassTime) : Prop :=
  0 <= hour (start_time ct) /\ 0 <= minute (start_time ct)
  /\ 0 <= hour (end_time ct) /\ 0 <= minute (end_time ct).

(** One step of the loop that fills [subjects] in [_build_payload]. *)
Definition add_subject_info (m : gmap string SubjectInfo) (ix : nat * Subject)
  : gmap string SubjectInfo :=
  <[subject_code (snd ix) :=
      mkSubjectInfo (subject_code (snd ix)) (name (snd ix))
                    (credits (snd ix)) (palette_color (fst ix))]> m.

(** What the builder guarantees of each course it hands to the page. *)
Definition dto_sound (p : Payload) (c : CourseDto) : Prop :=
  day c ∈ DAYS_OF_WEEK
  /\ 0 <= start_min c /\ 0 <= end_min c
  /\ dto_subject_code c ∈ dom (p_subjects p)
  /\ exists ct,
       get_time (mkCourse (course_code c) (time_str c)) = Ok ct
       /\ ct_day ct = day c
       /\ to_minutes (start_time ct) = start_min c
       /\ to_minutes (end_time ct) = end_min c.

(* ===================================================================== *)
(** * main.py: from the rows of the CSV file to the timetable *)
(* ===================================================================== *)

(** [load_timetable_from_csv] can fail in two ways: a missing cell
    ([IndexError]) and a credit count that is no number ([ValueError]). *)
Inductive load_exn : Type := LoadIndexError | LoadValueError.

Inductive loaded (A : Type) : Type :=
  | Loaded (a : A)
  | LoadFails (e : load_exn).
Arguments Loaded {A} a.
Arguments LoadFails {A} e.

(** [cell.strip()] and [not cell.strip()]. *)
Definition py_strip (s : string) : string :=
  rstrip Py_UNICODE_ISSPACE (lstrip Py_UNICODE_ISSPACE s).
Definition blank (cell : string) : bool := String.eqb (py_strip cell) "".

(** [not row or all(not cell.strip() for cell in row)]. *)
Definition blank_row (row : list string) : bool := forallb blank row.

(** [for i in range(3, len(row), 2)], on the cells from index 3 on: a cell
    without a partner ends the loop, a pair with a blank cell is skipped. *)
Fixpoint course_pairs (cells : list string) : list Course :=
  match cells with
  | course_code :: course_time :: rest =>
      if blank course_code || blank course_time then course_pairs rest
      else mkCourse course_code course_time :: course_pairs rest
  | _ => []
  end.

(** The body of [for row in reader] for a row that is not blank. *)
Definition load_row (row : list string) : loaded Subject :=
  match row with
  | subject_name :: subject_code :: credits :: cells =>
      match py_int credits with
      | Ok n => Loaded (mkSubject subject_name subject_code n (course_pairs cells))
      | Raise _ => LoadFails LoadValueError
      end
  | _ => LoadFails LoadIndexError
  end.

(** [load_timetable_from_csv], given the rows [csv.reader] yields. *)
Fixpoint load_subjects (rows : list (list string)) : loaded (list Subject) :=
  match rows with
  | [] => Loaded []
  | row :: rest =>
      if blank_row row then load_subjects rest
      else match load_row row with
           | Loaded subject =>
               match load_subjects rest with
               | Loaded l => Loaded (subject :: l)
               | LoadFails e => LoadFails e
               end
           | LoadFails e => LoadFails e
           end
  end.

Definition load_timetable (rows : list (list string)) : loaded Timetable :=
  match load_subjects rows with
  | Loaded l => Loaded (mkTimetable l)
  | LoadFails e => LoadFails e
  end.

(** The rows that are not skipped. *)
Definition data_rows (rows : list (list string)) : list (list string) :=
  List.filter (fun row => negb (blank_row row)) rows.

(** A row of the sample file and a row that is too short. *)
Definition row_algebra : list string :=
  ["Algebra"; "A"; "4"; "L1"; "CS:10:00-11:00"; ""; "H:08:00-09:00"; "L3"].
Definition row_short : list string := ["Analysis"; "B"].

(* ===================================================================== *)
(** * escapeHtml and truncateText *)
(* ===================================================================== *)

(** [s.replaceAll(c, r)] for a one-character pattern [c]. *)
Fixpoint replaceAll (c : ascii) (r : string) (s : string) : string :=
  match s with
  | EmptyString => EmptyString
  | String x s' =>
      if Ascii.eqb x c then r +:+ replaceAll c r s'
      else String x (replaceAll c r s')
  end.

(** The double quote, the character with code 34. *)
Definition dquote : ascii := ascii_of_nat 34.

Definition escapeHtml (s : string) : string :=
  replaceAll "'" "&#39;"
    (replaceAll dquote "&quot;"
       (replaceAll ">" "&gt;"
          (replaceAll "<" "&lt;"
             (replaceAll "&" "&amp;" s)))).

(** What [escapeHtml] makes of one character. *)
Definition escape_char (x : ascii) : string :=
  if Ascii.eqb x "&" then "&amp;"
  else if Ascii.eqb x "<" then "&lt;"
  else if Ascii.eqb x ">" then "&gt;"
  else if Ascii.eqb x dquote then "&quot;"
  else if Ascii.eqb x "'" then "&#39;"
  else String x EmptyString.

Fixpoint escape_each (s : string) : string :=
  match s with
  | EmptyString => EmptyString
  | String x s' => escape_char x +:+ escape_each s'
  end.

(** The characters with a meaning in markup, the ampersand apart. *)
Definition markup_char (x : ascii) : bool :=
  Ascii.eqb x "<" || Ascii.eqb x ">" || Ascii.eqb x dquote || Ascii.eqb x "'".

Fixpoint has_markup (s : string) : bool :=
  match s with
  | EmptyString => false
  | String x s' => markup_char x || has_markup s'
  end.

(** [truncateText(ctxRef, text, maxWidth)].  A JS string is a sequence of
    code units, here a list over any type [U] of units; [dots] is the text
    of three full stops and [measure t] is [ctxRef.measureText(t).width]
    for the font set on the context. *)
Section TruncateText.
Context {U : Type}.
Variable dots : list U.
Variable measure : list U -> Q.

(** [t.slice(0, -1)] *)
Definition slice_off_last (t : list U) : list U :=
  take (length t - 1) t.

(** [a > b] on numbers that are not NaN. *)
Definition Qgt_bool (a b : Q) : bool := negb (Qle_bool a b).

(** The [while] loop; it runs at most [length t] times, which is the
    [fuel] it is given by [truncateText]. *)
Fixpoint truncate_loop (maxWidth : Q) (fuel : nat) (t : list U) : list U :=
  match fuel with
  | O => t
  | S fuel' =>
      if (0 <? length t)%nat && Qgt_bool (measure (t ++ dots)) maxWidth
      then truncate_loop maxWidth fuel' (slice_off_last t)
      else t
  end.

Definition truncateText (text : list U) (maxWidth : Q) : list U :=
  if Qle_bool (measure text) maxWidth then text
  else
    let t := truncate_loop maxWidth (length text) text in
    if (0 <? length t)%nat then t ++ dots else dots.
End TruncateText.

(** A measure for examples: every unit is seven pixels wide. *)
Definition seven_wide (t : list nat) : Q := inject_Z (7 * Z.of_nat (length t)).

(** The left edge [dayX] of day column [di]. *)
Definition dayX (di : nat) : Q :=
  inject_Z (layout.pad + layout.timeColW + Z.of_nat di * layout.dayColW).

(** The lane width [laneW] for [n] lanes. *)
Definition laneW (n : nat) : Q :=
  (inject_Z (layout.dayColW - 2 * layout.blockPad - 6 * (Z.of_nat n - 1))
   / inject_Z (Z.of_nat n))%Q.

(** Seven sessions of one subject at the same time of one day: seven lanes. *)
Definition seven_sessions : Timetable :=
  mkTimetable [mkSubject "Algebra" "A" 4
                 [mkCourse "L1" "CS:10:00-11:00"; mkCourse "L2" "CS:10:00-11:00";
                  mkCourse "L3" "CS:10:00-11:00"; mkCourse "L4" "CS:10:00-11:00";
                  mkCourse "L5" "CS:10:00-11:00"; mkCourse "L6" "CS:10:00-11:00";
                  mkCourse "L7" "CS:10:00-11:00"]].

Definition seven_data : Payload :=
  payload_or_empty (_build_payload seven_sessions).

(** The course the loop body makes of the cells at [i] and [i + 1] of a
    row: none when a cell is missing or blank. *)
Definition course_at (row : list string) (i : nat) : option Course :=
  match row !! i, row !! S i with
  | Some course_code, Some course_time =>
      if blank course_code || blank course_time then None
      else Some (mkCourse course_code course_time)
  | _, _ => None
  end.

(** The indexes [range(3, len(row), 2)]. *)
Definition pair_indexes (row : list string) : list nat :=
  map (fun j => 3 + 2 * j)%nat (seq 0 ((length row - 2) / 2)).

(** What the loader makes of a row: name, code and credits from the cells 0,
    1 and 2, and one course for each index of [pair_indexes] with a code at
    the index and a time after it, in this order. *)
Definition row_loaded_as (row : list string) (subject : Subject) : Prop :=
  row !! 0%nat = Some (name subject)
  /\ row !! 1%nat = Some (subject_code subject)
  /\ (exists credits_text,
        row !! 2%nat = Some credits_text
        /\ py_int credits_text = Ok (credits subject))
  /\ courses subject = omap (course_at row) (pair_indexes row).

(** A row the loader can read: a third cell that [int()] accepts. *)
Definition row_readable (row : list string) : Prop :=
  exists credits_text z, row !! 2%nat = Some credits_text /\ py_int credits_text = Ok z.

(* ===================================================================== *)
(** * Properties of the stable sort *)
(* ===================================================================== *)

Section StableSortFacts.
Context {A : Type} (lt : A -> A -> bool).

Hypothesis lt_asym : forall a b, lt a b = true -> lt b a = false.

Lemma insert_by_perm x l : Permutation (insert_by lt x l) (x :: l).
Proof.
  induction l as [|y l IH]; simpl; [done|].
  destruct (lt y x); [|done].
  rewrite IH. apply perm_swap.
Qed.

Lemma stable_sort_perm l : Permutation (stable_sort lt l) l.
Proof.
  induction l as [|x l IH]; simpl; [done|].
  rewrite insert_by_perm. by constructor.
Qed.

Lemma insert_by_hd x l a :
  HdRel (not_after lt) a l -> (not_after lt) a x -> HdRel (not_after lt) a (insert_by lt x l).
Proof.
  intros Hl Hx. destruct l as [|y l]; simpl.
  - by constructor.
  - destruct (lt y x); constructor; [|done].
    by inversion Hl.
Qed.

Lemma insert_by_sorted x l :
  Sorted (not_after lt) l -> Sorted (not_after lt) (insert_by lt x l).
Proof.
  induction 1 as [|y l Hs IH Hhd]; simpl.
  - repeat constructor.
  - destruct (lt y x) eqn:E.
    + constructor; [done|]. apply insert_by_hd; [done|].
      by apply lt_asym.
    + constructor; [by constructor|]. by constructor.
Qed.

Lemma stable_sort_sorted l : Sorted (not_after lt) (stable_sort lt l).
Proof.
  induction l as [|x l IH]; simpl; [constructor|].
  by apply insert_by_sorted.
Qed.

(** Stability: elements that compare equal keep their input order.  Said
    for any property [P] that the comparison cannot tell apart from its
    neighbours: the sub-list of the elements satisfying [P] is sorted in
    place. *)
Lemma insert_by_filter_other (P : A -> bool) x l :
  P x = false -> List.filter P (insert_by lt x l) = List.filter P l.
Proof.
  intros Hx. induction l as [|y l IH]; simpl; [by rewrite Hx|].
  destruct (lt y x); simpl; [by rewrite IH|by rewrite Hx].
Qed.

Lemma insert_by_filter_same (P : A -> bool) x l :
  P x = true -> (forall y, P y = true -> lt y x = false) ->
  List.filter P (insert_by lt x l) = x :: List.filter P l.
Proof.
  intros Hx Hty. induction l as [|y l IH]; simpl; [by rewrite Hx|].
  destruct (lt y x) eqn:E; simpl.
  - destruct (P y) eqn:Py; [|done].
    rewrite (Hty y Py) in E. discriminate.
  - by rewrite Hx.
Qed.

Lemma stable_sort_stable (P : A -> bool) l :
  (forall x y, P x = true -> P y = true -> lt y x = false) ->
  List.filter P (stable_sort lt l) = List.filter P l.
Proof.
  intros Hty. induction l as [|x l IH]; simpl; [done|].
  destruct (P x) eqn:Px.
  - rewrite insert_by_filter_same; [by rewrite IH|done|].
    intros y Py. by apply Hty.
  - by rewrite insert_by_filter_other.
Qed.
End StableSortFacts.

(** Pairs taken in list order, read by position. *)
Lemma ForallOrdPairs_lookup {A} (R : A -> A -> Prop) (l : list A) i j a b :
  ForallOrdPairs R l -> (i < j)%nat -> l !! i = Some a -> l !! j = Some b -> R a b.
Proof.
  intros H. revert i j. induction H as [|x l Hx _ IH]; intros i j Hij Ha Hb.
  - by rewrite lookup_nil in Ha.
  - destruct j as [|j]; [lia|]. simpl in Hb.
    destruct i as [|i]; simpl in Ha.
    + injection Ha as <-. rewrite List.Forall_forall in Hx.
      apply Hx. apply list_elem_of_In. by eapply list_elem_of_lookup_2.
    + apply (IH i j); [lia|done..].
Qed.

(* ===================================================================== *)
(** * Lane assignment *)
(* ===================================================================== *)

Section Lanes.
Implicit Types (lanes : list Z) (c : CourseDto) (sorted : list CourseDto).

Lemma lane_cmp_asym a b :
  (lane_cmp a b <? 0) = true -> (lane_cmp b a <? 0) = false.
Proof.
  unfold lane_cmp. intros H. apply Z.ltb_lt in H. apply Z.ltb_ge.
  destruct (Z.eqb_spec (start_min a - start_min b) 0),
           (Z.eqb_spec (start_min b - start_min a) 0); lia.
Qed.

Lemma not_after_lane_before a b :
  not_after (fun a b => lane_cmp a b <? 0) a b <-> lane_before a b.
Proof.
  unfold not_after, lane_before, lane_cmp. rewrite Z.ltb_ge.
  destruct (Z.eqb_spec (start_min b - start_min a) 0); lia.
Qed.

Lemma lane_before_trans : Transitive lane_before.
Proof. unfold lane_before. intros a b c; lia. Qed.

Lemma lane_sort_perm dayCourses : Permutation (lane_sort dayCourses) dayCourses.
Proof. apply stable_sort_perm. Qed.

Lemma lane_sort_sorted dayCourses :
  StronglySorted lane_before (lane_sort dayCourses).
Proof.
  apply Sorted_StronglySorted; [apply lane_before_trans|].
  eapply Sorted_ind with (P := Sorted lane_before);
    [| |apply (stable_sort_sorted _ lane_cmp_asym dayCourses)].
  - constructor.
  - intros a l _ IH Hhd. constructor; [done|].
    destruct Hhd; constructor. by apply not_after_lane_before.
Qed.

(** What [find_lane] finds. *)
Lemma find_lane_Some lanes s i0 k :
  find_lane lanes s i0 = Some k ->
  (i0 <= k)%nat /\ exists e, lanes !! (k - i0)%nat = Some e /\ e <= s.
Proof.
  revert i0. induction lanes as [|e lanes IH]; intros i0; simpl; [done|].
  destruct (Z.leb_spec e s) as [Hle|Hgt].
  - intros [= <-]. split; [lia|]. exists e. by rewrite Nat.sub_diag.
  - intros H. apply IH in H as [Hk (e' & He' & Hle)]. split; [lia|].
    exists e'. split; [|done].
    replace (k - i0)%nat with (S (k - S i0)) by lia. done.
Qed.

Lemma place_spec lanes c lanes' k :
  place lanes c = (lanes', k) ->
  lanes' !! k = Some (end_min c)
  /\ (length lanes <= length lanes')%nat
  /\ (forall k', k' <> k -> (k' < length lanes)%nat -> lanes' !! k' = lanes !! k')
  /\ (forall e, lanes !! k = Some e -> e <= start_min c).
Proof.
  unfold place. destruct (find_lane lanes (start_min c) 0) as [i|] eqn:E.
  - intros [= <- <-]. apply find_lane_Some in E as [_ (e & He & Hle)].
    rewrite Nat.sub_0_r in He.
    assert (i < length lanes)%nat by by eapply lookup_lt_Some.
    split; [by apply list_lookup_insert_eq|].
    split; [by rewrite length_insert|].
    split; [intros k' Hk' _; by apply list_lookup_insert_ne|].
    intros e' He'. congruence.
  - intros [= <- <-]. rewrite length_app. simpl.
    replace (length lanes + 1 - 1)%nat with (length lanes) by lia.
    split; [by rewrite lookup_app_r, Nat.sub_diag|].
    split; [lia|].
    split; [intros k' _ Hk'; by apply lookup_app_l|].
    intros e He. apply lookup_lt_Some in He. lia.
Qed.
Lemma lane_before_start a b : lane_before a b -> start_min a <= start_min b.
Proof. unfold lane_before. lia. Qed.

Lemma place_all_courses sorted lanes :
  map fst (place_all lanes sorted).1 = sorted.
Proof.
  revert lanes. induction sorted as [|c rest IH]; intros lanes; simpl; [done|].
  destruct (place lanes c) as [lanes' kc].
  specialize (IH lanes'). destruct (place_all lanes' rest) as [placed final].
  simpl in *. by rewrite IH.
Qed.

(** A lane whose tracked end is [e] only receives courses starting at [e]
    or later, as long as the candidates come in start order. *)
Lemma place_all_later sorted lanes k e :
  StronglySorted lane_before sorted ->
  lanes !! k = Some e ->
  Forall (fun q => snd q = k -> e <= start_min (fst q)) (place_all lanes sorted).1.
Proof.
  intros Hs. revert lanes.
  induction Hs as [|c rest Hs IH Hc]; intros lanes Hk; simpl; [constructor|].
  destruct (place lanes c) as [lanes' kc] eqn:Ep.
  pose proof (place_all_courses rest lanes') as Hcs.
  specialize (IH lanes').
  destruct (place_all lanes' rest) as [placed final]. simpl in *.
  apply place_spec in Ep as (Hend & Hlen & Hother & Hfit).
  constructor; simpl.
  - intros ->. by apply Hfit.
  - destruct (decide (k = kc)) as [->|Hne].
    + apply Forall_forall. intros q Hq _.
      assert (fst q ∈ rest) as Hin
        by (rewrite <- Hcs; by apply list_elem_of_fmap_2).
      rewrite List.Forall_forall in Hc.
      apply list_elem_of_In, Hc, lane_before_start in Hin.
      specialize (Hfit _ Hk). lia.
    + apply IH. rewrite Hother; [done|done|]. by eapply lookup_lt_Some.
Qed.

Lemma place_all_separated sorted lanes :
  StronglySorted lane_before sorted ->
  ForallOrdPairs separated (place_all lanes sorted).1.
Proof.
  intros Hs. revert lanes.
  induction Hs as [|c rest Hs IH Hc]; intros lanes; simpl; [constructor|].
  destruct (place lanes c) as [lanes' kc] eqn:Ep.
  pose proof (place_all_later rest lanes' kc (end_min c) Hs) as Hlater.
  specialize (IH lanes').
  destruct (place_all lanes' rest) as [placed final]. simpl in *.
  apply place_spec in Ep as (Hend & _).
  constructor; [|done].
  apply List.Forall_forall. intros q Hq Heq.
  specialize (Hlater Hend). rewrite Forall_forall in Hlater.
  apply Hlater; [by apply list_elem_of_In|done].
Qed.

Lemma place_all_bound sorted lanes :
  (length lanes <= length (place_all lanes sorted).2)%nat
  /\ Forall (fun q => (snd q < length (place_all lanes sorted).2)%nat)
            (place_all lanes sorted).1.
Proof.
  revert lanes. induction sorted as [|c rest IH]; intros lanes; simpl.
  - split; [lia|constructor].
  - destruct (place lanes c) as [lanes' kc] eqn:Ep.
    specialize (IH lanes').
    destruct (place_all lanes' rest) as [placed final]. simpl in *.
    apply place_spec in Ep as (Hend & Hlen & _).
    apply lookup_lt_Some in Hend. destruct IH as [IH1 IH2].
    split; [lia|]. constructor; [simpl; lia|done].
Qed.

Lemma lane_count_ge lanes :
  (1 <= lane_count lanes)%nat /\ (length lanes <= lane_count lanes)%nat.
Proof. unfold lane_count. destruct (length lanes); lia. Qed.

Lemma computeDayLanes_unfold dayCourses :
  computeDayLanes dayCourses =
  map (fun p => mkPlaced (fst p) (snd p)
                  (lane_count (place_all [] (lane_sort dayCourses)).2))
      (place_all [] (lane_sort dayCourses)).1.
Proof.
  unfold computeDayLanes.
  by destruct (place_all [] (lane_sort dayCourses)).
Qed.

(** C1.  In the result of [computeDayLanes], two entries at different
    positions with the same lane index never overlap in time: one of them
    starts when the other has ended, [a.start >= b.end] or
    [b.start >= a.end].  This holds for every list of candidates, the
    candidates of a day column in [drawCourses] among them. *)
Theorem computeDayLanes_no_overlap (dayCourses : list CourseDto)
    (i j : nat) (a b : Placed) :
  i <> j ->
  computeDayLanes dayCourses !! i = Some a ->
  computeDayLanes dayCourses !! j = Some b ->
  lane a = lane b ->
  start_min (course a) >= end_min (course b)
  \/ start_min (course b) >= end_min (course a).
Proof.
  rewrite computeDayLanes_unfold. intros Hij Ha Hb Hlane.
  rewrite list_lookup_fmap in Ha, Hb.
  destruct (_ !! i) as [p|] eqn:Ep; [|done].
  destruct (_ !! j) as [q|] eqn:Eq; [|done].
  simpl in Ha, Hb. injection Ha as <-. injection Hb as <-. simpl in *.
  pose proof (place_all_separated _ [] (lane_sort_sorted dayCourses)) as Hsep.
  destruct (Nat.lt_total i j) as [Hlt|[Heq|Hgt]]; [|done|].
  - right. apply Z.le_ge.
    by apply (ForallOrdPairs_lookup separated _ i j p q Hsep).
  - left. apply Z.le_ge.
    by apply (ForallOrdPairs_lookup separated _ j i q p Hsep).
Qed.

End Lanes.


Lemma computeDayLanes_no_overlap_witness :
  start_min dto_10_11 >= end_min dto_11_12
  \/ start_min dto_11_12 >= end_min dto_10_11.
Proof.
  apply (computeDayLanes_no_overlap [dto_10_11; dto_1030_1130; dto_11_12]
           0%nat 2%nat (mkPlaced dto_10_11 0 2) (mkPlaced dto_11_12 0 2));
    [discriminate | reflexivity..].
Defined.

(* ===================================================================== *)
(** * The display window *)
(* ===================================================================== *)

Section TimeBounds.
Implicit Types (c : CourseDto) (cs rest : list CourseDto).

Lemma py_min_least x xs :
  py_min x xs ∈ x :: xs /\ Forall (fun y => py_min x xs <= y) (x :: xs).
Proof.
  unfold py_min. revert x. induction xs as [|y xs IH]; intros x; simpl.
  - split; [left|]. repeat constructor. lia.
  - destruct (IH (Z.min x y)) as [Hin Hall]. split.
    + apply elem_of_cons in Hin as [->|Hin]; [|by do 2 right].
      destruct (Z.min_spec x y) as [[_ ->]|[_ ->]]; [left|right; left].
    + inversion Hall as [|? ? Hm Hr]; subst.
      constructor; [lia|]. constructor; [lia|done].
Qed.

Lemma py_max_greatest x xs :
  py_max x xs ∈ x :: xs /\ Forall (fun y => y <= py_max x xs) (x :: xs).
Proof.
  unfold py_max. revert x. induction xs as [|y xs IH]; intros x; simpl.
  - split; [left|]. repeat constructor. lia.
  - destruct (IH (Z.max x y)) as [Hin Hall]. split.
    + apply elem_of_cons in Hin as [->|Hin]; [|by do 2 right].
      destruct (Z.max_spec x y) as [[_ ->]|[_ ->]]; [right; left|left].
    + inversion Hall as [|? ? Hm Hr]; subst.
      constructor; [lia|]. constructor; [lia|done].
Qed.

Lemma floor_hour_spec m :
  floor_hour m <= m < floor_hour m + 60 /\ floor_hour m mod 60 = 0.
Proof.
  unfold floor_hour. split; [|apply Z.mod_mul; lia].
  pose proof (Z.div_mod m 60 ltac:(lia)).
  pose proof (Z.mod_pos_bound m 60 ltac:(lia)). lia.
Qed.

Lemma ceil_hour_spec m :
  m <= ceil_hour m < m + 60 /\ ceil_hour m mod 60 = 0.
Proof.
  unfold ceil_hour. split; [|apply Z.mod_mul; lia].
  pose proof (Z.div_mod (m + 59) 60 ltac:(lia)).
  pose proof (Z.mod_pos_bound (m + 59) 60 ltac:(lia)). lia.
Qed.

Lemma compute_time_bounds_cons c rest :
  _compute_time_bounds (c :: rest) =
  one_sided_bounds (py_min (start_min c) (map start_min rest))
                   (py_max (end_min c) (map end_min rest)).
Proof. reflexivity. Qed.

Lemma one_sided_positive lo hi :
  fst (one_sided_bounds lo hi) < snd (one_sided_bounds lo hi).
Proof.
  unfold one_sided_bounds. simpl.
  destruct (Z.leb_spec (Z.min (22 * 60) (ceil_hour hi))
                       (Z.max (6 * 60) (floor_hour lo))); lia.
Qed.

(** Below 23:00 the two readings of "clamp" give the same window. *)
Lemma one_sided_agrees lo hi :
  lo < 23 * 60 ->
  one_sided_bounds lo hi =
  (clamp (6 * 60) (22 * 60) (floor_hour lo),
   if clamp (6 * 60) (22 * 60) (ceil_hour hi)
      <=? clamp (6 * 60) (22 * 60) (floor_hour lo)
   then clamp (6 * 60) (22 * 60) (floor_hour lo) + 60
   else clamp (6 * 60) (22 * 60) (ceil_hour hi)).
Proof.
  intros Hlo. unfold one_sided_bounds, clamp.
  destruct (floor_hour_spec lo) as [Hf Hfm].
  assert (floor_hour lo <= 22 * 60) as Hle.
  { apply Z.mod_divide in Hfm as [q Hq]; lia. }
  replace (Z.min (22 * 60) (floor_hour lo)) with (floor_hour lo) by lia.
  set (s := Z.max (6 * 60) (floor_hour lo)).
  set (e := ceil_hour hi).
  destruct (Z.leb_spec (Z.min (22 * 60) e) s),
           (Z.leb_spec (Z.max (6 * 60) (Z.min (22 * 60) e)) s);
    f_equal; lia.
Qed.

(** C3, as the code has it.  With no course the window is exactly
    08:00-20:00.  Otherwise the earliest start is floored to its hour and
    raised to 06:00 if it is below, the latest end is ceiled to its hour and
    lowered to 22:00 if it is above, and an end that is not after the start
    is replaced by start + 60.  The start is never lowered to 22:00: the
    window is the one of the two-sided clamp exactly when the earliest start
    is before 23:00.  In every case the end is strictly after the start, and
    a single session 08:10-09:05 gives 08:00-10:00. *)
Theorem compute_time_bounds_window :
  _compute_time_bounds [] = (480, 1200)
  /\ (forall c rest,
        let earliest := py_min (start_min c) (map start_min rest) in
        let latest := py_max (end_min c) (map end_min rest) in
        let w := _compute_time_bounds (c :: rest) in
        earliest ∈ map start_min (c :: rest)
        /\ Forall (fun x => earliest <= start_min x) (c :: rest)
        /\ latest ∈ map end_min (c :: rest)
        /\ Forall (fun x => end_min x <= latest) (c :: rest)
        /\ fst w = Z.max 360 (floor_hour earliest)
        /\ snd w = (if Z.min 1320 (ceil_hour latest) <=? fst w
                    then fst w + 60 else Z.min 1320 (ceil_hour latest))
        /\ (earliest < 1380 -> w = spec_time_bounds (c :: rest)))
  /\ (forall cs, fst (_compute_time_bounds cs) < snd (_compute_time_bounds cs))
  /\ (forall c, start_min c = 490 -> end_min c = 545 ->
        _compute_time_bounds [c] = (480, 600)).
Proof.
  split; [reflexivity|]. split; [|split].
  - intros c rest earliest latest w.
    destruct (py_min_least (start_min c) (map start_min rest)) as [Hmin Hleast].
    destruct (py_max_greatest (end_min c) (map end_min rest)) as [Hmax Hgreat].
    split; [done|]. split.
    { by apply (Forall_fmap start_min (fun y => earliest <= y) (c :: rest)). }
    split; [done|]. split.
    { by apply (Forall_fmap end_min (fun y => y <= latest) (c :: rest)). }
    split; [reflexivity|]. split; [reflexivity|].
    intros Hlo. subst w. rewrite compute_time_bounds_cons.
    by apply one_sided_agrees.
  - intros [|c rest]; [simpl; lia|].
    rewrite compute_time_bounds_cons. apply one_sided_positive.
  - intros c Hs He. rewrite compute_time_bounds_cons. simpl.
    rewrite Hs, He. reflexivity.
Qed.
End TimeBounds.

Lemma compute_time_bounds_window_witness :
  _compute_time_bounds [dto_0810_0905] = (480, 600).
Proof.
  apply (proj2 (proj2 (proj2 compute_time_bounds_window)) dto_0810_0905);
    reflexivity.
Defined.

(** The reading of C3 in which both ends are clamped into 06:00-22:00 fails
    for a session 23:00-23:30: the code returns 23:00-24:00, a window that
    starts after 22:00, where clamping both ends gives 22:00-23:00. *)
Lemma compute_time_bounds_not_clamped :
  _compute_time_bounds [dto_23_2330] = (1380, 1440)
  /\ spec_time_bounds [dto_23_2330] = (1320, 1380)
  /\ ~ (360 <= fst (_compute_time_bounds [dto_23_2330]) <= 1320)
  /\ _compute_time_bounds [dto_23_2330] <> spec_time_bounds [dto_23_2330].
Proof.
  split; [reflexivity|]. split; [reflexivity|]. split.
  - change (~ (360 <= 1380 <= 1320)). lia.
  - discriminate.
Qed.

(* ===================================================================== *)
(** * Minutes and pixels *)
(* ===================================================================== *)

Section TimeToPixel.
Variable DATA : Payload.
Hypothesis window_positive : START_MIN DATA < END_MIN DATA.

Lemma total_positive : (0 < inject_Z (END_MIN DATA - START_MIN DATA))%Q.
Proof.
  change 0%Q with (inject_Z 0). rewrite <- Zlt_Qlt. lia.
Qed.

Lemma minuteToY_unfold m :
  (minuteToY DATA m ==
   54 + (m - inject_Z (START_MIN DATA))
        / inject_Z (END_MIN DATA - START_MIN DATA) * 648)%Q.
Proof. reflexivity. Qed.

Lemma yToMinute_unfold y :
  (yToMinute DATA y ==
   inject_Z (START_MIN DATA)
   + (y - 54) / 648 * inject_Z (END_MIN DATA - START_MIN DATA))%Q.
Proof. reflexivity. Qed.

Lemma minuteToY_lt m1 m2 :
  (m1 < m2)%Q -> (minuteToY DATA m1 < minuteToY DATA m2)%Q.
Proof.
  intros Hlt. rewrite !minuteToY_unfold.
  pose proof total_positive as Ht.
  set (t := inject_Z (END_MIN DATA - START_MIN DATA)) in *.
  set (s := inject_Z (START_MIN DATA)).
  apply Qplus_lt_r. apply Qmult_lt_compat_r; [reflexivity|].
  unfold Qdiv. apply Qmult_lt_compat_r; [by apply Qinv_lt_0_compat|].
  lra.
Qed.

Lemma yToMinute_minuteToY m : (yToMinute DATA (minuteToY DATA m) == m)%Q.
Proof.
  rewrite yToMinute_unfold, minuteToY_unfold.
  pose proof total_positive as Ht.
  set (t := inject_Z (END_MIN DATA - START_MIN DATA)) in *.
  set (s := inject_Z (START_MIN DATA)).
  field. intros H0. rewrite H0 in Ht. by apply Qlt_irrefl in Ht.
Qed.

(** C6.  When the window has [END_MIN > START_MIN], [minuteToY] is strictly
    increasing and [yToMinute] undoes it, exactly, on every rational minute
    value (inside the window or not: nothing is clamped). *)
Theorem minuteToY_monotone_invertible :
  (forall m1 m2 : Q, (m1 < m2)%Q -> (minuteToY DATA m1 < minuteToY DATA m2)%Q)
  /\ (forall m : Q, (yToMinute DATA (minuteToY DATA m) == m)%Q).
Proof. split; [apply minuteToY_lt|apply yToMinute_minuteToY]. Qed.
End TimeToPixel.

(* ===================================================================== *)
(** * Hit-testing *)
(* ===================================================================== *)

Section HitTest.
Implicit Types (boxes : list Hitbox) (b : Hitbox) (x y : Q).

Lemma scan_hitboxes_find boxes n x y :
  scan_hitboxes boxes n x y = hb_id <$> topmost (take n boxes) x y.
Proof.
  unfold topmost. induction n as [|i IH]; simpl; [done|].
  destruct (boxes !! i) as [b|] eqn:Eb.
  - rewrite (take_S_r _ _ _ Eb), rev_app_distr. simpl.
    by destruct (box_contains b x y).
  - rewrite IH. apply lookup_ge_None in Eb.
    by rewrite !take_ge by lia.
Qed.

Lemma scan_hitboxes_topmost boxes n x y j b :
  (j < n)%nat -> boxes !! j = Some b -> box_contains b x y = true ->
  (forall k c, (j < k < n)%nat -> boxes !! k = Some c -> box_contains c x y = false) ->
  scan_hitboxes boxes n x y = Some (hb_id b).
Proof.
  induction n as [|i IH]; intros Hj Hb Hin Hlater; [lia|]. simpl.
  destruct (decide (i = j)) as [->|Hne].
  - by rewrite Hb, Hin.
  - assert (scan_hitboxes boxes i x y = Some (hb_id b)) as Hrec.
    { apply IH; [lia|done..|]. intros k c Hk. apply Hlater. lia. }
    destruct (boxes !! i) as [c|] eqn:Ec; [|done].
    rewrite (Hlater i c); [done|lia|done].
Qed.

Lemma scan_hitboxes_none boxes n x y :
  (forall k c, (k < n)%nat -> boxes !! k = Some c -> box_contains c x y = false) ->
  scan_hitboxes boxes n x y = None.
Proof.
  induction n as [|i IH]; intros Hout; [done|]. simpl.
  assert (scan_hitboxes boxes i x y = None) as Hrec.
  { apply IH. intros k c Hk. apply Hout. lia. }
  destruct (boxes !! i) as [c|] eqn:Ec; [|done].
  rewrite (Hout i c); [done|lia|done].
Qed.

(** C7.  [courseAtPoint] scans the hitboxes in reverse draw order and
    returns the id of the first rectangle that contains the point, which is
    the one drawn last among those containing it.  For two cached rectangles
    drawn in order A then B a point inside both resolves to B's id; among
    more rectangles it resolves to B's id when none drawn after B contains
    the point.  A point inside no cached rectangle resolves to none. *)
Theorem courseAtPoint_topmost (st : Page) (x y : Q) :
  courseAtPoint st x y = hb_id <$> topmost (hitboxes st) x y
  /\ (forall i j A B,
        (i < j)%nat ->
        hitboxes st !! i = Some A -> hitboxes st !! j = Some B ->
        box_contains A x y = true -> box_contains B x y = true ->
        (forall k C, (j < k)%nat -> hitboxes st !! k = Some C ->
                     box_contains C x y = false) ->
        courseAtPoint st x y = Some (hb_id B))
  /\ (forall A B,
        hitboxes st = [A; B] ->
        box_contains A x y = true -> box_contains B x y = true ->
        courseAtPoint st x y = Some (hb_id B))
  /\ ((forall b, b ∈ hitboxes st -> box_contains b x y = false) ->
      courseAtPoint st x y = None).
Proof.
  unfold courseAtPoint. split; [|split; [|split]].
  - by rewrite scan_hitboxes_find, firstn_all.
  - intros i j A B Hij _ HB _ HinB Hlater.
    apply (scan_hitboxes_topmost _ _ _ _ j); [by eapply lookup_lt_Some|done..|].
    intros k c [Hk _]. by apply Hlater.
  - intros A B Hst _ HinB. rewrite Hst. simpl. by rewrite HinB.
  - intros Hout. apply scan_hitboxes_none. intros k c _ Hc.
    apply Hout. by eapply list_elem_of_lookup_2.
Qed.
End HitTest.

Lemma courseAtPoint_topmost_witness :
  courseAtPoint (initial_page short_data) 100 175 = Some "A__L3__2".
Proof.
  apply (proj1 (proj2 (courseAtPoint_topmost (initial_page short_data) 100 175))
           1%nat 2%nat
           (mkHitbox "A__L2__1" 94 (120600 # 720) 178 16)
           (mkHitbox "A__L3__2" 94 (123840 # 720) 178 16)).
  - lia.
  - vm_compute. reflexivity.
  - vm_compute. reflexivity.
  - reflexivity.
  - reflexivity.
  - intros k C Hk Hc.
    destruct k as [|[|[|[|k]]]]; [lia|lia|lia| |].
    + vm_compute in Hc. injection Hc as <-. reflexivity.
    + vm_compute in Hc. discriminate.
Defined.

(** The first clause at work with three rectangles over one point.  On the
    page of [short_sessions] the blocks of L1, L2 and L3 are drawn in this
    order and all contain the point (100, 175): it resolves to L3, the one
    drawn last. *)
Lemma courseAtPoint_third_on_top :
  let st := initial_page short_data in
  exists A B,
    hitboxes st !! 0%nat = Some A /\ hitboxes st !! 1%nat = Some B
    /\ box_contains A 100 175 = true /\ box_contains B 100 175 = true
    /\ hb_id B = "A__L2__1"
    /\ courseAtPoint st 100 175 = Some "A__L3__2"
    /\ courseAtPoint st 100 175 <> Some (hb_id B).
Proof.
  eexists _, _. split; [vm_compute; reflexivity|].
  split; [vm_compute; reflexivity|].
  split; [reflexivity|]. split; [reflexivity|]. split; [reflexivity|].
  split; [reflexivity|]. vm_compute. discriminate.
Qed.

(* ===================================================================== *)
(** * Export *)
(* ===================================================================== *)

Lemma foldl_invariant {A B} (P : A -> Prop) (f : A -> B -> A) (l : list B) (a : A) :
  P a -> (forall a b, P a -> b ∈ l -> P (f a b)) -> P (foldl f a l).
Proof.
  revert a. induction l as [|b l IH]; intros a Ha Hstep; simpl; [done|].
  apply IH.
  - apply Hstep; [done|left].
  - intros a' b' Ha' Hb'. apply Hstep; [done|by right].
Qed.

Lemma computeDayLanes_courses (dayCourses : list CourseDto) (p : Placed) :
  p ∈ computeDayLanes dayCourses -> course p ∈ dayCourses.
Proof.
  rewrite computeDayLanes_unfold.
  intros (q & -> & Hq)%list_elem_of_fmap. simpl.
  rewrite <- (lane_sort_perm dayCourses).
  rewrite <- (place_all_courses (lane_sort dayCourses) []).
  by apply list_elem_of_fmap_2.
Qed.

Section ExportPass.
Variable DATA : Payload.
Implicit Types (st : Page).

Lemma day_courses_export st d c :
  c ∈ day_courses DATA true st d ->
  id c ∈ selectedCourseIds st /\ dto_subject_code c ∈ visibleSubjects st
  /\ day c = d /\ c ∈ page_courses DATA.
Proof.
  unfold day_courses.
  intros [Hsel [[Hd Hv] Hc]%list_elem_of_filter]%list_elem_of_filter.
  done.
Qed.

Lemma export_pass_start st :
  ctx st = OffScreen -> export_pass st (set_hitboxes [] st).
Proof.
  intros Hctx. split; simpl; try done.
  exists []. by rewrite app_nil_r.
Qed.

Lemma draw_placed_export st0 st di p :
  export_pass st0 st -> id (course p) ∈ selectedCourseIds st0 ->
  export_pass st0 (draw_placed DATA true di st p).
Proof.
  intros [Hv Hs Hc Hcv Hh Hw Hht Hst (blocks & Hcmds & Hall)] Hid.
  unfold draw_placed, on_target. rewrite Hc. simpl.
  split; simpl; try done.
  exists (blocks ++ [DrawBlock (block_box DATA di p)
                       (bool_decide (id (course p) ∈ selectedCourseIds st))
                       (negb (bool_decide (id (course p) ∈ selectedCourseIds st))
                        && negb true)]).
  split; [by rewrite Hcmds, app_assoc|].
  apply Forall_app. split; [done|]. constructor; [|constructor].
  simpl. rewrite Hs, bool_decide_eq_true_2 by done. done.
Qed.

Lemma draw_day_export st0 st col :
  export_pass st0 st -> export_pass st0 (draw_day DATA true st col).
Proof.
  intros Hinv. unfold draw_day.
  apply (foldl_invariant (export_pass st0)); [done|].
  intros st' p Hst' Hp. apply draw_placed_export; [done|].
  apply computeDayLanes_courses, day_courses_export in Hp as [Hsel _].
  by rewrite <- (ep_selected _ _ Hinv).
Qed.

Lemma drawCourses_export st :
  ctx st = OffScreen -> export_pass st (drawCourses DATA true st).
Proof.
  intros Hctx. unfold drawCourses.
  apply (foldl_invariant (export_pass st)).
  - pose proof (export_pass_start st Hctx) as H. done.
  - intros st' col Hst' _. by apply draw_day_export.
Qed.
End ExportPass.

Section ExportButton.
Variable DATA : Payload.
Implicit Types (st : Page).

Lemma exportBtn_click_empty st :
  selectedCourseIds st = ∅ ->
  exportBtn_click DATA st = (setStatus "Nothing selected to export." true st, None).
Proof.
  intros He. unfold exportBtn_click. rewrite He.
  by rewrite decide_True by apply size_empty.
Qed.

Lemma exportBtn_click_nonempty st :
  selectedCourseIds st <> ∅ ->
  exists st' img blocks,
    exportBtn_click DATA st = (st', Some img)
    /\ visibleSubjects st' = visibleSubjects st
    /\ selectedCourseIds st' = selectedCourseIds st
    /\ canvas st' = canvas st
    /\ ctx st' = ctx st
    /\ hitboxes st' = []
    /\ statusText st' = "Exported PNG." /\ statusDanger st' = false
    /\ s_width img = s_width (canvas st)
    /\ s_height img = s_height (canvas st)
    /\ s_cmds img = DrawGrid :: blocks
    /\ Forall (export_cmd (selectedCourseIds st)) blocks.
Proof.
  intros Hne. unfold exportBtn_click.
  rewrite decide_False by (intros H0; by apply size_empty_inv, leibniz_equiv in H0).
  set (blank := mkSurface (s_width (canvas st)) (s_height (canvas st)) []).
  set (st1 := drawGrid (set_ctx OffScreen (set_off blank st))).
  destruct (drawCourses_export DATA st1 eq_refl)
    as [Hv Hs Hc Hcv Hh Hw Hht Hst (blocks & Hcmds & Hall)].
  eexists _, _, blocks. split; [reflexivity|]. simpl.
  repeat split; try done.
Qed.

(** After any export that makes an image the hitboxes are empty. *)
Lemma exportBtn_click_hitboxes st :
  selectedCourseIds st <> ∅ -> hitboxes (exportBtn_click DATA st).1 = [].
Proof.
  intros Hne.
  destruct (exportBtn_click_nonempty st Hne) as (st' & img & blocks & E & H).
  rewrite E. simpl. tauto.
Qed.
End ExportButton.

Lemma initial_page_nothing_selected :
  selectedCourseIds (initial_page overlap_data) = ∅.
Proof. vm_compute. reflexivity. Qed.

Lemma page_L1_selected_nonempty : selectedCourseIds page_L1_selected <> ∅.
Proof.
  intros H. apply (f_equal elements) in H. vm_compute in H. discriminate.
Qed.

(** C4 at a concrete page.  After a click on the block of L1 the page of
    [overlap_sessions] has two hitboxes and the point (700, 200) resolves to
    L1.  The export handler then draws L1 alone on the offscreen surface and
    keeps the visible subjects and the selection, but it leaves the hitboxes
    empty: the same point resolves to nothing afterwards. *)
Theorem export_empties_hitboxes :
  map hb_id (hitboxes page_L1_selected) = ["A__L1__0"; "B__G1__0"]
  /\ courseAtPoint page_L1_selected 700 200 = Some "A__L1__0"
  /\ visibleSubjects (exportBtn_click overlap_data page_L1_selected).1
     = visibleSubjects page_L1_selected
  /\ selectedCourseIds (exportBtn_click overlap_data page_L1_selected).1
     = selectedCourseIds page_L1_selected
  /\ hitboxes (exportBtn_click overlap_data page_L1_selected).1 = []
  /\ courseAtPoint (exportBtn_click overlap_data page_L1_selected).1 700 200
     = None.
Proof.
  destruct (exportBtn_click_nonempty overlap_data page_L1_selected
              page_L1_selected_nonempty)
    as (st' & img & blocks & E & Hv & Hs & Hcv & _ & Hh & _).
  rewrite E. cbn [fst].
  split; [vm_compute; reflexivity|]. split; [vm_compute; reflexivity|].
  split; [done|]. split; [done|]. split; [done|].
  unfold courseAtPoint. by rewrite Hh.
Qed.

(* ===================================================================== *)
(** * The order of the flattened list *)
(* ===================================================================== *)

Section Comparisons.

Lemma lex_Eq c d : lex c d = Eq <-> c = Eq /\ d = Eq.
Proof. destruct c; simpl; intuition congruence. Qed.

Lemma lex_opp c d : lex (CompOpp c) (CompOpp d) = CompOpp (lex c d).
Proof. by destruct c. Qed.

Lemma lex_trans c1 c2 c3 d1 d2 d3 :
  (c1 = Lt -> c2 = Lt -> c3 = Lt) ->
  (c1 = Eq -> c3 = c2) -> (c2 = Eq -> c3 = c1) ->
  (d1 = Lt -> d2 = Lt -> d3 = Lt) ->
  lex c1 d1 = Lt -> lex c2 d2 = Lt -> lex c3 d3 = Lt.
Proof.
  intros Hc H1 H2 Hd. destruct c1, c2; simpl; intros E1 E2; try discriminate.
  - rewrite H1 by done. simpl. by apply Hd.
  - by rewrite H1 by done.
  - by rewrite H2 by done.
  - by rewrite Hc by done.
Qed.

(** The three facts [lex_trans] needs about a component. *)
Lemma good_compare_lex {A} (cmp : A -> A -> comparison) (a b c : A) :
  good_compare cmp ->
  (cmp a b = Lt -> cmp b c = Lt -> cmp a c = Lt)
  /\ (cmp a b = Eq -> cmp a c = cmp b c)
  /\ (cmp b c = Eq -> cmp a c = cmp a b).
Proof.
  intros [Heq _ Htr]. split; [apply Htr|].
  split; intros E%Heq; by subst.
Qed.

Lemma nat_compare_good : good_compare Nat.compare.
Proof.
  split.
  - apply Nat.compare_eq_iff.
  - intros a b. apply Nat.compare_antisym.
  - intros a b c. rewrite !Nat.compare_lt_iff. lia.
Qed.

Lemma Z_compare_good : good_compare Z.compare.
Proof.
  split.
  - apply Z.compare_eq_iff.
  - intros a b. apply Z.compare_antisym.
  - intros a b c. rewrite !Z.compare_lt_iff. lia.
Qed.

Lemma ascii_compare_good : good_compare Ascii.compare.
Proof.
  unfold Ascii.compare. split.
  - intros a b. rewrite N.compare_eq_iff. split; [|by intros ->].
    intros H. by rewrite <- (ascii_N_embedding a), H, ascii_N_embedding.
  - intros a b. apply N.compare_antisym.
  - intros a b c. rewrite !N.compare_lt_iff. lia.
Qed.

Lemma string_compare_cons x a y b :
  String.compare (String x a) (String y b)
  = lex (Ascii.compare x y) (String.compare a b).
Proof. simpl. by destruct (Ascii.compare x y). Qed.

Lemma string_compare_good : good_compare String.compare.
Proof.
  split.
  - intros a b. split; [apply String.compare_eq_iff|]. intros <-.
    induction a as [|x a IH]; [done|].
    rewrite string_compare_cons, IH.
    by rewrite (proj2 (gc_eq _ ascii_compare_good x x) eq_refl).
  - intros a b. apply String.compare_antisym.
  - intros a. induction a as [|x a IH]; intros [|y b] [|z c]; try done.
    rewrite !string_compare_cons.
    destruct (good_compare_lex Ascii.compare x y z ascii_compare_good)
      as (H1 & H2 & H3).
    apply lex_trans; [done..|apply IH].
Qed.

Lemma key_compare_good : good_compare key_compare.
Proof.
  pose proof nat_compare_good as Hn. pose proof Z_compare_good as Hz.
  pose proof string_compare_good as Hs.
  split.
  - intros [d1 s1 e1 u1 c1] [d2 s2 e2 u2 c2]. unfold key_compare. simpl.
    rewrite !lex_Eq, (gc_eq _ Hn), !(gc_eq _ Hz), !(gc_eq _ Hs).
    split; [intros (-> & -> & -> & -> & ->); done|].
    by intros [= -> -> -> -> ->].
  - intros a b. unfold key_compare.
    rewrite (gc_antisym _ Hn (k_day a)), (gc_antisym _ Hz (k_start a)),
      (gc_antisym _ Hz (k_end a)), (gc_antisym _ Hs (k_subject a)),
      (gc_antisym _ Hs (k_course a)).
    by rewrite !lex_opp.
  - intros a b c. unfold key_compare.
    destruct (good_compare_lex _ (k_day a) (k_day b) (k_day c) Hn)
      as (? & ? & ?).
    destruct (good_compare_lex _ (k_start a) (k_start b) (k_start c) Hz)
      as (? & ? & ?).
    destruct (good_compare_lex _ (k_end a) (k_end b) (k_end c) Hz)
      as (? & ? & ?).
    destruct (good_compare_lex _ (k_subject a) (k_subject b) (k_subject c) Hs)
      as (? & ? & ?).
    repeat (apply lex_trans; [done..|]).
    apply (gc_trans _ Hs).
Qed.

Lemma key_lt_asym a b : key_lt a b = true -> key_lt b a = false.
Proof.
  unfold key_lt. rewrite (gc_antisym _ key_compare_good a b).
  by destruct (key_compare a b).
Qed.

(** The test the sort makes is the order in words. *)
Lemma key_le_leq a b : key_le a b = true <-> key_leq a b.
Proof.
  unfold key_le, key_lt. rewrite (gc_antisym _ key_compare_good a b).
  unfold key_compare, key_leq, str_lt.
  rewrite <- Nat.compare_lt_iff, <- (Nat.compare_eq_iff (k_day a)).
  rewrite <- !Z.compare_lt_iff, <- !Z.compare_eq_iff.
  rewrite <- !(gc_eq _ string_compare_good).
  destruct (k_day a ?= k_day b)%nat, (k_start a ?= k_start b),
    (k_end a ?= k_end b), (String.compare (k_subject a) (k_subject b)),
    (String.compare (k_course a) (k_course b)); simpl;
    intuition congruence.
Qed.
End Comparisons.

Section SortedCourses.
Implicit Types (c : CourseDto) (k : SortKey) (cs : list CourseDto).

Lemma key_leq_compare a b : key_leq a b <-> key_compare a b <> Gt.
Proof.
  rewrite <- key_le_leq. unfold key_le, key_lt.
  rewrite (gc_antisym _ key_compare_good a b).
  destruct (key_compare a b); simpl; intuition congruence.
Qed.

Lemma key_leq_total a b : key_leq a b \/ key_leq b a.
Proof.
  rewrite !key_leq_compare, (gc_antisym _ key_compare_good a b).
  destruct (key_compare a b); simpl; intuition congruence.
Qed.

Lemma key_leq_antisym a b : key_leq a b -> key_leq b a -> a = b.
Proof.
  rewrite !key_leq_compare, (gc_antisym _ key_compare_good a b).
  intros H1 H2. apply (gc_eq _ key_compare_good).
  destruct (key_compare a b); simpl in *; congruence.
Qed.

Lemma key_leq_trans (x y z : SortKey) : key_leq x y -> key_leq y z -> key_leq x z.
Proof.
  rewrite !key_leq_compare. intros Hxy Hyz.
  destruct (key_compare x y) eqn:Exy; [| |done].
  - apply (gc_eq _ key_compare_good) in Exy. by subst.
  - destruct (key_compare y z) eqn:Eyz; [| |done].
    + apply (gc_eq _ key_compare_good) in Eyz. subst. by rewrite Exy.
    + by rewrite (gc_trans _ key_compare_good x y z).
Qed.

Lemma rmapM_Forall2 {A B} (f : A -> result B) (l : list A) (ys : list B) :
  rmapM f l = Ok ys <-> Forall2 (fun x y => f x = Ok y) l ys.
Proof.
  revert ys. induction l as [|x l IH]; intros ys; simpl.
  - split; [intros [= <-]; constructor|by inversion 1].
  - unfold mbind, result_bind. destruct (f x) as [y|e] eqn:Ey; simpl.
    + destruct (rmapM f l) as [ys'|e] eqn:Eys; simpl.
      * split.
        -- intros [= <-]. constructor; [done|]. by apply IH.
        -- inversion 1 as [|? y' ? ys'' Hy Hys]; subst.
           apply IH in Hys. congruence.
      * split; [done|]. inversion 1 as [|? y' ? ys'' Hy Hys]; subst.
        by apply IH in Hys.
    + split; [done|]. inversion 1; congruence.
Qed.

Lemma str_in_index x l :
  str_in x l = true -> exists i, list_index x l = Ok i /\ l !! i = Some x.
Proof.
  induction l as [|y l IH]; simpl; [done|].
  destruct (String.eqb_spec x y) as [->|Hne]; simpl.
  - intros _. by exists 0%nat.
  - intros (i & E & Hi)%IH. exists (S i). by rewrite E.
Qed.

Lemma list_index_lookup x l i : list_index x l = Ok i -> l !! i = Some x.
Proof.
  revert i. induction l as [|y l IH]; intros i; simpl; [done|].
  destruct (String.eqb_spec x y) as [->|Hne].
  - by intros [= <-].
  - unfold mbind, result_bind. destruct (list_index x l) as [j|]; simpl; [|done].
    intros [= <-]. by apply IH.
Qed.

Lemma sort_key_fields c k :
  sort_key c = Ok k ->
  DAYS_OF_WEEK !! k_day k = Some (day c)
  /\ k_start k = start_min c /\ k_end k = end_min c
  /\ k_subject k = dto_subject_code c /\ k_course k = course_code c.
Proof.
  unfold sort_key, mbind, result_bind.
  destruct (list_index (day c) DAYS_OF_WEEK) as [i|] eqn:Ei; simpl; [|done].
  intros [= <-]. simpl. split; [by apply list_index_lookup|done].
Qed.

(** The decorated list that [sort_courses] sorts. *)
Lemma sort_courses_keyed cs sorted :
  sort_courses cs = Ok sorted ->
  exists keyed,
    Forall2 (fun c kc => sort_key c = Ok kc.1 /\ kc.2 = c) cs keyed
    /\ sorted = map snd (stable_sort (fun x y => key_lt (fst x) (fst y)) keyed).
Proof.
  unfold sort_courses, mbind, result_bind.
  destruct (rmapM _ cs) as [keyed|] eqn:E; simpl; [|done].
  intros [= <-]. exists keyed. split; [|done].
  apply rmapM_Forall2 in E. eapply Forall2_impl; [exact E|].
  intros c [k c']. simpl. unfold mbind, result_bind.
  destruct (sort_key c); simpl; [|done]. by intros [= -> ->].
Qed.

Lemma keyed_snd cs (keyed : list (SortKey * CourseDto)) :
  Forall2 (fun c kc => sort_key c = Ok kc.1 /\ kc.2 = c) cs keyed ->
  map snd keyed = cs /\ Forall (fun kc => sort_key kc.2 = Ok kc.1) keyed.
Proof.
  induction 1 as [|c kc cs keyed [Hk Hc] _ [IH1 IH2]]; simpl; [done|].
  split; [by rewrite Hc, IH1|]. constructor; [by rewrite Hc|done].
Qed.

Lemma filter_has_key k (keyed : list (SortKey * CourseDto)) :
  Forall (fun kc => sort_key kc.2 = Ok kc.1) keyed ->
  List.filter (has_key k) (map snd keyed)
  = map snd (List.filter
               (fun kc => match key_compare kc.1 k with Eq => true | _ => false end)
               keyed).
Proof.
  induction 1 as [|kc keyed Hk _ IH]; simpl; [done|].
  unfold has_key at 1. rewrite Hk, IH.
  by destruct (key_compare kc.1 k).
Qed.

Lemma keyed_Forall2 (l : list (SortKey * CourseDto)) :
  Forall (fun kc => sort_key kc.2 = Ok kc.1) l ->
  Forall2 (fun c k => sort_key c = Ok k) (map snd l) (map fst l).
Proof. induction 1; simpl; by constructor. Qed.

Lemma keyed_sorted (l : list (SortKey * CourseDto)) :
  Sorted (not_after (fun x y => key_lt x.1 y.1)) l -> Sorted key_leq (map fst l).
Proof.
  induction 1 as [|kc l _ IH Hhd]; simpl; constructor; [done|].
  destruct Hhd as [|kc' l Hk]; simpl; constructor.
  apply key_le_leq. unfold key_le. unfold not_after in Hk. by rewrite Hk.
Qed.

Lemma sort_courses_spec cs sorted :
  sort_courses cs = Ok sorted ->
  exists keys,
    sorted ≡ₚ cs
    /\ Forall2 (fun c k => sort_key c = Ok k) sorted keys
    /\ StronglySorted key_leq keys
    /\ forall k, List.filter (has_key k) sorted = List.filter (has_key k) cs.
Proof.
  intros (keyed & Hkeyed & ->)%sort_courses_keyed.
  destruct (keyed_snd _ _ Hkeyed) as [Hsnd Hall].
  set (lt := fun x y : SortKey * CourseDto => key_lt x.1 y.1).
  assert (forall a b, lt a b = true -> lt b a = false) as Hasym
    by (intros a b; apply key_lt_asym).
  pose proof (stable_sort_perm lt keyed) as Hperm.
  exists (map fst (stable_sort lt keyed)). split; [|split; [|split]].
  - by rewrite Hperm, Hsnd.
  - apply keyed_Forall2. by rewrite Hperm.
  - apply Sorted_StronglySorted; [intros x y z; apply key_leq_trans|].
    apply keyed_sorted. by apply stable_sort_sorted.
  - intros k. rewrite <- Hsnd.
    rewrite !filter_has_key by (done || by rewrite Hperm).
    f_equal. apply stable_sort_stable.
    intros x y Hx Hy. unfold lt, key_lt.
    destruct (key_compare x.1 k) eqn:Ex; [|done..].
    destruct (key_compare y.1 k) eqn:Ey; [|done..].
    apply (gc_eq _ key_compare_good) in Ex, Ey. rewrite Ex, Ey.
    by rewrite (proj2 (gc_eq _ key_compare_good k k) eq_refl).
Qed.
End SortedCourses.

Section BuildPayload.
Implicit Types (timetable : Timetable) (p : Payload).

Lemma get_time_day (self : Course) (ct : ClassTime) :
  get_time self = Ok ct -> str_in (ct_day ct) DAYS_OF_WEEK = true.
Proof.
  unfold get_time, mbind, result_bind.
  destruct (unpack2 (str_split1 _ (time self))) as [[d h]|]; cbn [rbind]; [|done].
  destruct (str_in d DAYS_OF_WEEK) eqn:Ed; cbn [negb]; [|done].
  destruct (unpack2 (str_split _ h)) as [[s e]|]; cbn [rbind]; [|done].
  destruct (Time_from_string s); cbn [rbind]; [|done].
  destruct (Time_from_string e); cbn [rbind]; [|done].
  by intros [= <-].
Qed.

Lemma course_to_dto_fields (subject : Subject) (c : Course) (i : nat) dto :
  _course_to_dto subject c i = Ok dto ->
  id dto = course_id subject c i
  /\ dto_subject_code dto = subject_code subject
  /\ course_code dto = code c
  /\ str_in (day dto) DAYS_OF_WEEK = true.
Proof.
  unfold _course_to_dto, mbind, result_bind.
  destruct (get_time c) as [ct|] eqn:E; simpl; [|done].
  intros [= <-]. simpl. repeat split. by eapply get_time_day.
Qed.

Lemma rmapM_concat_Forall {A B} (f : A -> result (list B)) (P : B -> Prop)
    (l : list A) (ys : list (list B)) :
  (forall x y, x ∈ l -> f x = Ok y -> Forall P y) ->
  rmapM f l = Ok ys -> Forall P (concat ys).
Proof.
  intros Hf Hall%rmapM_Forall2.
  induction Hall as [|x y l ys Hxy _ IH]; simpl; [constructor|].
  apply Forall_app. split.
  - apply (Hf x); [left|done].
  - apply IH. intros x' y' Hx'. apply Hf. by right.
Qed.

Lemma flatten_courses_days timetable flat :
  flatten_courses timetable = Ok flat ->
  Forall (fun c => str_in (day c) DAYS_OF_WEEK = true) flat.
Proof.
  unfold flatten_courses, mbind, result_bind.
  destruct (rmapM subject_dtos (subjects timetable)) as [per|] eqn:E; simpl;
    [|done].
  intros [= <-]. eapply rmapM_concat_Forall; [|exact E].
  intros s dtos _ Hs. unfold subject_dtos in Hs.
  apply rmapM_Forall2 in Hs.
  induction Hs as [|ic dto l dtos Hd _ IH]; constructor; [|done].
  by apply course_to_dto_fields in Hd as (_ & _ & _ & Hd).
Qed.

Lemma rmapM_total {A B} (f : A -> result B) (l : list A) :
  Forall (fun x => exists y, f x = Ok y) l -> exists ys, rmapM f l = Ok ys.
Proof.
  induction 1 as [|x l [y Hy] _ [ys IH]]; simpl; [by eexists|].
  unfold mbind, result_bind. rewrite Hy. cbn [rbind]. rewrite IH.
  by eexists.
Qed.

Lemma sort_courses_total (cs : list CourseDto) :
  Forall (fun c => str_in (day c) DAYS_OF_WEEK = true) cs ->
  exists sorted, sort_courses cs = Ok sorted.
Proof.
  intros Hall. unfold sort_courses.
  edestruct (rmapM_total (fun c => k ← sort_key c; Ok (k, c)) cs) as [keyed ->].
  - eapply Forall_impl; [exact Hall|]. intros c Hc.
    apply str_in_index in Hc as (i & Hi & _).
    unfold sort_key, mbind, result_bind. rewrite Hi. by eexists.
  - by eexists.
Qed.

Lemma build_payload_courses timetable p :
  _build_payload timetable = Ok p ->
  exists flat,
    flatten_courses timetable = Ok flat
    /\ sort_courses flat = Ok (p_courses p)
    /\ (startMin (meta p), endMin (meta p)) = _compute_time_bounds (p_courses p)
    /\ days (meta p) = DAYS_OF_WEEK.
Proof.
  unfold _build_payload, mbind, result_bind.
  destruct (flatten_courses timetable) as [flat|]; cbn [rbind]; [|intros [=]].
  destruct (sort_courses flat) as [sorted|] eqn:Es; cbn [rbind]; [|intros [=]].
  destruct (_compute_time_bounds sorted) as [s e] eqn:E.
  intros [= <-]. exists flat. cbn [p_courses meta startMin endMin days].
  by rewrite E.
Qed.

Lemma build_payload_total timetable flat :
  flatten_courses timetable = Ok flat -> exists p, _build_payload timetable = Ok p.
Proof.
  intros Hflat. unfold _build_payload, mbind, result_bind.
  rewrite Hflat. cbn [rbind].
  destruct (sort_courses_total flat (flatten_courses_days _ _ Hflat))
    as [sorted ->].
  cbn [rbind]. destruct (_compute_time_bounds sorted). by eexists.
Qed.

(** C8.  The course list of the payload is the flattened list, rearranged:
    its keys (ordinal of the day in [DAYS_OF_WEEK], start minute, end minute,
    subject code, course code) are in non-decreasing order, courses with the
    same key keep the order of the flattened list, and the sort raises
    nothing once the flattening has succeeded.  The order of the keys is
    total, antisymmetric and transitive, so the result is determined by the
    flattened list. *)
Theorem build_payload_sorted timetable :
  (forall p, _build_payload timetable = Ok p ->
     exists flat keys,
       flatten_courses timetable = Ok flat
       /\ p_courses p ≡ₚ flat
       /\ Forall2 (fun c k =>
                     sort_key c = Ok k
                     /\ DAYS_OF_WEEK !! k_day k = Some (day c)
                     /\ k_start k = start_min c /\ k_end k = end_min c
                     /\ k_subject k = dto_subject_code c
                     /\ k_course k = course_code c)
                  (p_courses p) keys
       /\ StronglySorted key_leq keys
       /\ forall k, List.filter (has_key k) (p_courses p)
                    = List.filter (has_key k) flat)
  /\ (forall flat, flatten_courses timetable = Ok flat ->
        exists p, _build_payload timetable = Ok p)
  /\ (forall a b, key_leq a b \/ key_leq b a)
  /\ (forall a b, key_leq a b -> key_leq b a -> a = b)
  /\ (forall a b c, key_leq a b -> key_leq b c -> key_leq a c).
Proof.
  split; [|split; [apply build_payload_total|]].
  - intros p (flat & Hflat & Hsort & _)%build_payload_courses.
    destruct (sort_courses_spec _ _ Hsort) as (keys & Hperm & Hkeys & Hs & Hst).
    exists flat, keys. repeat (split; [done|]). split; [|done].
    eapply Forall2_impl; [exact Hkeys|].
    intros c k Hk. split; [done|]. by apply sort_key_fields.
  - split; [apply key_leq_total|]. split; [apply key_leq_antisym|].
    apply key_leq_trans.
Qed.
End BuildPayload.

(* ===================================================================== *)
(** * Uniqueness of course ids *)
(* ===================================================================== *)

Section CourseIds.
Implicit Types (s u v x y : string) (ch : ascii).
#[local] Arguments String.append !_ _ / : simpl nomatch.

Lemma append_inj_l s x y : s +:+ x = s +:+ y -> x = y.
Proof. induction s as [|c s IH]; simpl; [done|]. intros [= H]. by apply IH. Qed.

Lemma append_assoc s x y : (s +:+ x) +:+ y = s +:+ (x +:+ y).
Proof. induction s as [|c s IH]; simpl; [done|]. by rewrite IH. Qed.

Lemma has_char_append ch s x :
  has_char ch (s +:+ x) = has_char ch s || has_char ch x.
Proof.
  induction s as [|c s IH]; simpl; [done|]. by rewrite IH, orb_assoc.
Qed.

Lemma has_char_here ch x : has_char ch (String ch x) = true.
Proof. simpl. by rewrite Ascii.eqb_refl. Qed.

(** Cutting at the first occurrence of [ch]. *)
Lemma append_cut_first ch u v x y :
  has_char ch u = false -> has_char ch v = false ->
  u +:+ String ch x = v +:+ String ch y -> u = v /\ x = y.
Proof.
  revert v. induction u as [|c u IH]; intros [|d v]; simpl.
  - by intros _ _ [= ->].
  - intros _ Hv [= <- _]. by rewrite Ascii.eqb_refl in Hv.
  - intros Hu _ [= -> _]. by rewrite Ascii.eqb_refl in Hu.
  - intros [_ Hu]%orb_false_elim [_ Hv]%orb_false_elim [= -> H].
    by destruct (IH v Hu Hv H) as [-> ->].
Qed.

(** Cutting at the last occurrence of [ch]. *)
Lemma append_cut_last ch u v x y :
  has_char ch x = false -> has_char ch y = false ->
  u +:+ String ch x = v +:+ String ch y -> u = v /\ x = y.
Proof.
  intros Hx Hy. revert v. induction u as [|c u IH]; intros [|d v]; simpl.
  - by intros [= ->].
  - intros [= <- ->]. by rewrite has_char_append, has_char_here, orb_true_r in Hx.
  - intros [= -> <-]. by rewrite has_char_append, has_char_here, orb_true_r in Hy.
  - intros [= -> H]. by destruct (IH v H) as [-> ->].
Qed.

Lemma string_of_uint_digits (d : Decimal.uint) :
  has_char "_" (NilEmpty.string_of_uint d) = false.
Proof. induction d; simpl; done. Qed.

Lemma index_str_inj (i j : nat) : index_str i = index_str j -> i = j.
Proof.
  unfold index_str. intros H.
  apply (f_equal NilEmpty.uint_of_string) in H.
  rewrite !NilEmpty.usu in H. injection H as H.
  apply (f_equal Nat.of_uint) in H. by rewrite !Unsigned.of_to in H.
Qed.

Lemma course_id_same_subject (subject : Subject) (c1 c2 : Course) (i j : nat) :
  course_id subject c1 i = course_id subject c2 j -> i = j /\ code c1 = code c2.
Proof.
  unfold course_id. intros H%append_inj_l. simpl in H. injection H as H.
  change (code c1 +:+ String "_" (String "_" (index_str i)))
    with (code c1 +:+ (String "_" EmptyString +:+ String "_" (index_str i))) in H.
  change (code c2 +:+ String "_" (String "_" (index_str j)))
    with (code c2 +:+ (String "_" EmptyString +:+ String "_" (index_str j))) in H.
  rewrite <- !append_assoc in H.
  apply append_cut_last in H as [Hc Hi]; try apply string_of_uint_digits.
  split; [by apply index_str_inj|].
  by apply append_cut_last in Hc as [Hc _].
Qed.

Lemma course_id_subject_code (s1 s2 : Subject) (c1 c2 : Course) (i j : nat) :
  has_char "_" (subject_code s1) = false ->
  has_char "_" (subject_code s2) = false ->
  course_id s1 c1 i = course_id s2 c2 j -> subject_code s1 = subject_code s2.
Proof.
  unfold course_id. intros H1 H2 H. simpl in H.
  by apply append_cut_first in H as [H _].
Qed.
End CourseIds.

Section UniqueIds.
Implicit Types (subject : Subject) (timetable : Timetable).

Lemma subject_ids_lookup subject n x :
  subject_ids subject !! n = Some x ->
  exists c, courses subject !! n = Some c /\ x = course_id subject c n.
Proof.
  unfold subject_ids. rewrite list_lookup_imap.
  destruct (courses subject !! n) as [c|]; simpl; [|done].
  intros [= <-]. by exists c.
Qed.

(** Within one subject the occurrence index tells the ids apart, whatever
    the codes are. *)
Lemma subject_ids_NoDup subject : NoDup (subject_ids subject).
Proof.
  apply NoDup_alt. intros i j x (c1 & _ & ->)%subject_ids_lookup
    (c2 & _ & H)%subject_ids_lookup.
  by apply course_id_same_subject in H as [-> _].
Qed.

Lemma elem_of_concat {A} (x : A) (ls : list (list A)) :
  x ∈ concat ls -> exists l, l ∈ ls /\ x ∈ l.
Proof.
  induction ls as [|l ls IH]; simpl; [by intros ?%elem_of_nil|].
  intros [H|H]%elem_of_app.
  - exists l. split; [left|done].
  - destruct (IH H) as (l' & Hl' & Hx). exists l'. split; [by right|done].
Qed.

Lemma timetable_ids_NoDup timetable :
  NoDup (map subject_code (subjects timetable)) ->
  Forall (fun s => has_char "_" (subject_code s) = false) (subjects timetable) ->
  NoDup (timetable_ids timetable).
Proof.
  unfold timetable_ids. destruct timetable as [subs]. simpl.
  induction subs as [|s subs IH]; simpl; [constructor|].
  intros [Hs Hnd]%NoDup_cons [Hs_ Hall]%Forall_cons.
  apply NoDup_app. split; [apply subject_ids_NoDup|]. split; [|by apply IH].
  intros x (n & Hn)%list_elem_of_lookup_1 (l & Hl & Hx)%elem_of_concat.
  apply subject_ids_lookup in Hn as (c & _ & ->).
  apply list_elem_of_fmap in Hl as (s' & -> & Hs').
  apply list_elem_of_lookup_1 in Hx as (m & Hm).
  apply subject_ids_lookup in Hm as (c' & _ & Heq).
  apply Hs. rewrite Forall_forall in Hall.
  rewrite (course_id_subject_code s s' c c' n m); [|done|by apply Hall|done].
  by apply list_elem_of_fmap_2.
Qed.

Lemma Forall2_map_eq {A B C} (R : A -> B -> Prop) (g : A -> C) (h : B -> C)
    (l : list A) (ys : list B) :
  (forall a b, R a b -> h b = g a) -> Forall2 R l ys -> map h ys = map g l.
Proof. intros HR. induction 1; simpl; [done|]. f_equal; auto. Qed.

Lemma subject_dtos_ids subject dtos :
  subject_dtos subject = Ok dtos -> map id dtos = subject_ids subject.
Proof.
  unfold subject_dtos, subject_ids. intros H%rmapM_Forall2.
  erewrite Forall2_map_eq; [|by intros ic dto (-> & _)%course_to_dto_fields|done].
  by rewrite fmap_imap.
Qed.

Lemma flatten_courses_ids timetable flat :
  flatten_courses timetable = Ok flat -> map id flat = timetable_ids timetable.
Proof.
  unfold flatten_courses, timetable_ids, mbind, result_bind.
  destruct (rmapM subject_dtos (subjects timetable)) as [per|] eqn:E;
    cbn [rbind]; [|done].
  intros [= <-]. apply rmapM_Forall2 in E.
  induction E as [|s dtos subs per Hs _ IH]; simpl; [done|].
  by rewrite map_app, IH, (subject_dtos_ids _ _ Hs).
Qed.

(** C9, as the code has it.  The ids of one subject's courses are pairwise
    different whatever the codes are, also when two courses share a course
    code.  Across the timetable the ids of the flattened list, and of the
    payload's course list, are pairwise different when the subject codes are
    pairwise different and contain no underscore. *)
Theorem course_ids_unique timetable :
  (forall subject, NoDup (subject_ids subject))
  /\ (NoDup (map subject_code (subjects timetable)) ->
      Forall (fun s => has_char "_" (subject_code s) = false)
             (subjects timetable) ->
      (forall flat, flatten_courses timetable = Ok flat -> NoDup (map id flat))
      /\ (forall p, _build_payload timetable = Ok p ->
            NoDup (map id (p_courses p)))).
Proof.
  split; [apply subject_ids_NoDup|]. intros Hnd Hall.
  assert (forall flat, flatten_courses timetable = Ok flat -> NoDup (map id flat))
    as Hflat.
  { intros flat ->%flatten_courses_ids. by apply timetable_ids_NoDup. }
  split; [done|].
  intros p (flat & Hf & Hsort & _)%build_payload_courses.
  destruct (sort_courses_spec _ _ Hsort) as (_ & Hperm & _).
  rewrite Hperm. by apply Hflat.
Qed.
End UniqueIds.

Lemma course_ids_unique_witness :
  NoDup (map id (p_courses overlap_data)).
Proof.
  apply (proj2 (proj2 (course_ids_unique overlap_sessions)
                  ltac:(compute_done)
                  ltac:(repeat constructor)) overlap_data).
  vm_compute. reflexivity.
Defined.

(** C9 as stated fails when a subject code contains the separator.  The
    subjects of [colliding_codes] have the different codes "A" and "A__B";
    the course "B__C" of the first and the course "C" of the second both get
    the id "A__B__C__0". *)
Lemma course_ids_collide :
  NoDup (map subject_code (subjects colliding_codes))
  /\ exists p, _build_payload colliding_codes = Ok p
       /\ map id (p_courses p) = ["A__B__C__0"; "A__B__C__0"]
       /\ ~ NoDup (map id (p_courses p)).
Proof.
  split.
  - compute_done.
  - eexists. split; [vm_compute; reflexivity|]. split; [reflexivity|].
    simpl. intros H. apply NoDup_cons in H as [H _]. apply H. left.
Qed.

(* ===================================================================== *)
(** * Reading a course time *)
(* ===================================================================== *)

Section Splitting.
Implicit Types (s a b : string) (sep : ascii).
#[local] Arguments String.append !_ _ / : simpl nomatch.

Lemma str_split_nonempty sep s : str_split sep s <> [].
Proof.
  destruct s as [|c s]; simpl; [done|].
  destruct (Ascii.eqb c sep); [done|]. by destruct (str_split sep s).
Qed.

Lemma str_split_single sep s a :
  str_split sep s = [a] <-> s = a /\ has_char sep a = false.
Proof.
  revert a. induction s as [|c s IH]; intros a; simpl.
  - split; [by intros [= <-]|by intros [<- _]].
  - destruct (Ascii.eqb c sep) eqn:Ec; simpl.
    + split.
      * intros [= _ H]. by apply str_split_nonempty in H.
      * intros [<- H]. simpl in H. by rewrite Ec in H.
    + destruct (str_split sep s) as [|p ps] eqn:Es.
      { by apply str_split_nonempty in Es. }
      split.
      * intros [= <- ->]. destruct (proj1 (IH p) eq_refl) as [-> Hp].
        split; [done|]. simpl. by rewrite Ec.
      * intros [<- H]. simpl in H. rewrite Ec in H. simpl in H.
        assert (p :: ps = [s]) as Hps by by apply IH.
        by injection Hps as -> ->.
Qed.

Lemma str_split_pair sep s a b :
  str_split sep s = [a; b]
  <-> s = a +:+ String sep b /\ has_char sep a = false /\ has_char sep b = false.
Proof.
  revert a. induction s as [|c s IH]; intros a; simpl.
  - split; [done|]. intros [H _]. by destruct a.
  - destruct (Ascii.eqb_spec c sep) as [->|Hne]; simpl.
    + split.
      * intros [= <- [-> Hb]%str_split_single]. done.
      * intros (H & Ha & Hb). destruct a as [|d a]; simpl in *.
        -- injection H as ->. f_equal. by apply str_split_single.
        -- injection H as <- _. by rewrite Ascii.eqb_refl in Ha.
    + destruct (str_split sep s) as [|p ps] eqn:Es.
      { by apply str_split_nonempty in Es. }
      split.
      * intros [= <- ->]. destruct (proj1 (IH p) eq_refl) as (-> & Hp & Hb).
        split; [done|]. split; [|done]. simpl.
        by rewrite (proj2 (Ascii.eqb_neq c sep) Hne).
      * intros (H & Ha & Hb). destruct a as [|d a]; simpl in *.
        { by injection H as ->. }
        injection H as <- ->. apply orb_false_elim in Ha as [_ Ha].
        assert (p :: ps = [a; b]) as Hps by by apply IH.
        by injection Hps as -> ->.
Qed.

Lemma str_split1_pair sep s a b :
  str_split1 sep s = [a; b]
  <-> s = a +:+ String sep b /\ has_char sep a = false.
Proof.
  revert a. induction s as [|c s IH]; intros a; simpl.
  - split; [done|]. intros [H _]. by destruct a.
  - destruct (Ascii.eqb_spec c sep) as [->|Hne]; simpl.
    + split.
      * by intros [= <- <-].
      * intros (H & Ha). destruct a as [|d a]; simpl in *.
        -- by injection H as ->.
        -- injection H as <- _. by rewrite Ascii.eqb_refl in Ha.
    + destruct (str_split1 sep s) as [|p ps] eqn:Es.
      { split; [done|]. intros (H & Ha). destruct a as [|d a]; simpl in *.
        - by injection H as ->.
        - injection H as <- ->. apply orb_false_elim in Ha as [_ Ha].
          by assert ([] = [a; b]) by by apply IH. }
      split.
      * intros [= <- ->]. destruct (proj1 (IH p) eq_refl) as (-> & Hp).
        split; [done|]. simpl.
        by rewrite (proj2 (Ascii.eqb_neq c sep) Hne).
      * intros (H & Ha). destruct a as [|d a]; simpl in *.
        { by injection H as ->. }
        injection H as <- ->. apply orb_false_elim in Ha as [_ Ha].
        assert (p :: ps = [a; b]) as Hps by by apply IH.
        by injection Hps as -> ->.
Qed.

Lemma unpack2_Ok {A} (parts : list A) (a b : A) :
  unpack2 parts = Ok (a, b) <-> parts = [a; b].
Proof.
  destruct parts as [|x [|y [|z parts]]]; simpl; split; try done.
  - by intros [= -> ->].
  - by intros [= -> ->].
Qed.
End Splitting.

Section GetTime.
Implicit Types (self : Course) (ct : ClassTime) (t : Time).
#[local] Arguments String.append !_ _ / : simpl nomatch.

Lemma rbind_Ok {A B} (r : result A) (k : A -> result B) (b : B) :
  rbind r k = Ok b <-> exists a, r = Ok a /\ k a = Ok b.
Proof.
  destruct r as [a|e]; simpl.
  - split; [by exists a|]. by intros (a' & [= <-] & H).
  - split; [done|]. by intros (a' & [=] & _).
Qed.

Lemma Time_from_string_spec value t :
  Time_from_string value = Ok t
  <-> exists hs ms,
        value = hs +:+ ":" +:+ ms
        /\ has_char ":" hs = false /\ has_char ":" ms = false
        /\ py_int hs = Ok (hour t) /\ py_int ms = Ok (minute t).
Proof.
  unfold Time_from_string, mbind, result_bind. rewrite rbind_Ok. split.
  - intros ([hs ms] & Hsplit%unpack2_Ok%str_split_pair & H).
    apply rbind_Ok in H as (h & Hh & H). apply rbind_Ok in H as (m & Hm & H).
    injection H as <-. destruct Hsplit as (-> & Hhs & Hms).
    by exists hs, ms.
  - intros (hs & ms & -> & Hhs & Hms & Hh & Hm). exists (hs, ms). split.
    + by apply unpack2_Ok, str_split_pair.
    + rewrite Hh, Hm. simpl. by destruct t.
Qed.

Lemma days_no_colon d : str_in d DAYS_OF_WEEK = true -> has_char ":" d = false.
Proof.
  unfold str_in, DAYS_OF_WEEK. simpl. rewrite !orb_true_iff, !String.eqb_eq.
  intros [->|[->|[->|[->|[->|?]]]]]; done.
Qed.

Lemma get_time_spec self ct :
  get_time self = Ok ct <-> time_well_formed (time self) ct.
Proof.
  unfold get_time, time_well_formed, time_field, mbind, result_bind.
  rewrite rbind_Ok. split.
  - intros ([d h] & [-> Hd]%unpack2_Ok%str_split1_pair & H).
    destruct (str_in d DAYS_OF_WEEK) eqn:Ed; cbn [negb] in H; [|done].
    apply rbind_Ok in H as ([s e] & Hse%unpack2_Ok%str_split_pair & H).
    destruct Hse as (-> & Hs & He).
    apply rbind_Ok in H as (st & Hst & H). apply rbind_Ok in H as (en & Hen & H).
    injection H as <-. cbn [ct_day start_time end_time].
    apply Time_from_string_spec in Hst as (hs & ms & -> & ? & ? & ? & ?).
    apply Time_from_string_spec in Hen as (he & me & -> & ? & ? & ? & ?).
    rewrite !has_char_append in Hs, He. simpl in Hs, He.
    apply orb_false_elim in Hs as [? ?], He as [? ?].
    exists hs, ms, he, me. rewrite !append_assoc. simpl. done.
  - intros (hs & ms & he & me & Ht & Hd & (? & ? & ?) & (? & ? & ?)
            & (? & ? & ?) & (? & ? & ?)).
    exists (ct_day ct, hs +:+ ":" +:+ ms +:+ "-" +:+ he +:+ ":" +:+ me). split.
    + apply unpack2_Ok, str_split1_pair. split; [done|]. by apply days_no_colon.
    + rewrite Hd. cbn [negb]. apply rbind_Ok.
      exists (hs +:+ ":" +:+ ms, he +:+ ":" +:+ me). split.
      * apply unpack2_Ok, str_split_pair. rewrite !has_char_append.
        simpl. rewrite !append_assoc. simpl. split; [done|].
        split; by apply orb_false_intro.
      * apply rbind_Ok. exists (start_time ct). split.
        { apply Time_from_string_spec. by exists hs, ms. }
        apply rbind_Ok. exists (end_time ct). split.
        { apply Time_from_string_spec. by exists he, me. }
        by destruct ct.
Qed.

Lemma get_time_Raise self :
  get_time self = Raise ValueError <-> ~ exists ct, get_time self = Ok ct.
Proof.
  destruct (get_time self) as [ct|[]]; split; try done.
  - intros H. exfalso. apply H. by exists ct.
  - by intros _ [ct H].
Qed.

(** C2, as the code has it.  [Course(code, time)] itself checks nothing; the
    time is read by [get_time], which the builder calls for every course.
    [get_time] returns a [ClassTime] exactly when the text reads
    [day:h1:m1-h2:m2] with a day of [DAYS_OF_WEEK] and four fields that
    [int()] accepts, and raises [ValueError] in every other case: an unknown
    day, a text that does not split into these parts, a field that is not a
    number.  The start is not compared with the end: a well-formed text is
    accepted whatever the order of its two times.  Text is over the code
    points below 256; there [int()] accepts the digits 0 to 9 with single
    underscores between them, after an optional sign and between white
    space of the code points 9 to 13, 32, 133 and 160. *)
Theorem get_time_accepts_exactly_well_formed self :
  (forall ct, get_time self = Ok ct <-> time_well_formed (time self) ct)
  /\ (get_time self = Raise ValueError
      <-> ~ exists ct, time_well_formed (time self) ct)
  /\ (forall d h, str_split1 ":" (time self) = [d; h] ->
        str_in d DAYS_OF_WEEK = false -> get_time self = Raise ValueError)
  /\ (has_char ":" (time self) = false -> get_time self = Raise ValueError).
Proof.
  split; [apply get_time_spec|]. split; [|split].
  - rewrite get_time_Raise. split; intros H [ct Hct]; apply H; exists ct;
      by apply get_time_spec.
  - intros d h Hsplit Hd. unfold get_time, mbind, result_bind.
    rewrite Hsplit. simpl unpack2. cbn [rbind]. by rewrite Hd.
  - intros Hno. apply get_time_Raise. intros [ct Hct].
    apply get_time_spec in Hct as (hs & ms & he & me & Ht & _).
    rewrite Ht, has_char_append in Hno. simpl in Hno.
    by rewrite orb_true_r in Hno.
Qed.
End GetTime.

Lemma get_time_accepts_exactly_well_formed_witness :
  get_time (mkCourse "L1" "XX:10:00-12:00") = Raise ValueError.
Proof.
  apply (proj1 (proj2 (proj2 (get_time_accepts_exactly_well_formed
                                (mkCourse "L1" "XX:10:00-12:00"))))
           "XX" "10:00-12:00"); reflexivity.
Defined.

(** What [int()] strips decides what [get_time] accepts: the separator with
    code 28 around a field is not stripped and the text is rejected, the
    no-break space with code 160 is stripped and the text is accepted. *)
Lemma get_time_field_white_space :
  get_time (mkCourse "L1" ("H:10:00-12:" +:+ String (ascii_of_nat 28) "5"))
  = Raise ValueError
  /\ get_time (mkCourse "L1" ("H:10:00-12:" +:+ String (ascii_of_nat 160) "5"))
     = Ok (mkClassTime "H" (mkTime 10 0) (mkTime 12 5)).
Proof. split; vm_compute; reflexivity. Qed.

(** C2 as stated fails: a record whose start is not before its end is not
    rejected.  For the time "CS:12:00-10:00" [get_time] returns a [ClassTime]
    that starts at minute 720 and ends at minute 600, and the builder makes
    a course of it. *)
Lemma get_time_accepts_end_before_start :
  exists ct,
    get_time course_12_10 = Ok ct
    /\ to_minutes (start_time ct) = 720 /\ to_minutes (end_time ct) = 600
    /\ to_minutes (start_time ct) >= to_minutes (end_time ct)
    /\ is_ok (_build_payload
                (mkTimetable [mkSubject "Algebra" "A" 4 [course_12_10]])) = true.
Proof.
  eexists. split; [vm_compute; reflexivity|].
  split; [reflexivity|]. split; [reflexivity|]. split; [|reflexivity].
  vm_compute. discriminate.
Qed.

Lemma minuteToY_monotone_invertible_witness :
  (START_MIN sample_data < END_MIN sample_data)
  /\ (minuteToY sample_data 600 < minuteToY sample_data 630)%Q
  /\ (yToMinute sample_data (minuteToY sample_data 630) == 630)%Q.
Proof.
  assert (START_MIN sample_data < END_MIN sample_data) as Hw by reflexivity.
  split; [exact Hw|]. split.
  - apply (proj1 (minuteToY_monotone_invertible sample_data Hw)). reflexivity.
  - apply (proj2 (minuteToY_monotone_invertible sample_data Hw)).
Defined.

Lemma build_payload_sorted_witness :
  exists flat keys,
    flatten_courses overlap_sessions = Ok flat
    /\ p_courses overlap_data ≡ₚ flat
    /\ StronglySorted key_leq keys.
Proof.
  destruct (proj1 (build_payload_sorted overlap_sessions) overlap_data)
    as (flat & keys & H1 & H2 & H3 & H4 & H5); [vm_compute; reflexivity|].
  exists flat, keys. split; [exact H1|]. split; [exact H2|exact H4].
Defined.

(* ===================================================================== *)
(** * More on the lane assignment *)
(* ===================================================================== *)

Section FirstFit.
Implicit Types (lanes : list Z) (c : CourseDto) (sorted : list CourseDto)
  (prev : list (CourseDto * nat)).

Lemma find_lane_skipped lanes s i0 :
  match find_lane lanes s i0 with
  | Some k => forall i e, (i < k - i0)%nat -> lanes !! i = Some e -> s < e
  | None => forall i e, lanes !! i = Some e -> s < e
  end.
Proof.
  revert i0. induction lanes as [|e0 lanes IH]; intros i0; simpl.
  - intros i e. by rewrite lookup_nil.
  - destruct (Z.leb_spec e0 s) as [Hle|Hgt].
    + intros i e Hi. lia.
    + specialize (IH (S i0)).
      pose proof (find_lane_Some lanes s (S i0)) as Hk.
      destruct (find_lane lanes s (S i0)) as [k|].
      * destruct (Hk k eq_refl) as [Hk' _].
        intros [|i] e Hi; simpl; [by intros [= <-]|].
        apply IH. lia.
      * intros [|i] e; simpl; [by intros [= <-]|]. apply IH.
Qed.

(** The lanes below the one [place] picks all end after the course starts. *)
Lemma place_lower lanes c lanes' k :
  place lanes c = (lanes', k) ->
  forall i, (i < k)%nat -> exists e, lanes !! i = Some e /\ start_min c < e.
Proof.
  unfold place. pose proof (find_lane_skipped lanes (start_min c) 0) as Hskip.
  pose proof (find_lane_Some lanes (start_min c) 0) as Hsome.
  destruct (find_lane lanes (start_min c) 0) as [j|].
  - intros [= <- <-] i Hi.
    destruct (Hsome j eq_refl) as [_ (e & He & _)].
    rewrite Nat.sub_0_r in He. apply lookup_lt_Some in He.
    destruct (lookup_lt_is_Some_2 lanes i ltac:(lia)) as [e' He'].
    exists e'. split; [done|]. apply (Hskip i); [lia|done].
  - intros [= <- <-] i Hi. rewrite length_app in Hi. simpl in Hi.
    destruct (lookup_lt_is_Some_2 lanes i ltac:(lia)) as [e' He'].
    exists e'. split; [done|]. by apply (Hskip i).
Qed.

Lemma place_lookup lanes c lanes' k i e :
  place lanes c = (lanes', k) -> lanes' !! i = Some e ->
  (i = k /\ e = end_min c) \/ (i <> k /\ lanes !! i = Some e).
Proof.
  intros Hp Hi. destruct (decide (i = k)) as [->|Hne].
  - left. split; [done|].
    apply place_spec in Hp as (Hk & _). congruence.
  - right. split; [done|]. revert Hp Hi. unfold place.
    destruct (find_lane lanes (start_min c) 0) as [j|].
    + intros [= <- <-]. by rewrite list_lookup_insert_ne.
    + intros [= <- <-]. rewrite length_app in Hne. simpl in Hne.
      intros Hi. pose proof (lookup_lt_Some _ _ _ Hi) as Hlt.
      rewrite length_app in Hlt. simpl in Hlt.
      rewrite lookup_app_l in Hi by lia. done.
Qed.

(** Every lane below the lane of an entry holds an entry that is running
    when this one starts. *)
Lemma place_all_running sorted lanes prev :
  StronglySorted lane_before sorted ->
  (forall i e, lanes !! i = Some e ->
     exists q, q ∈ prev /\ snd q = i /\ end_min (fst q) = e
               /\ Forall (fun c => start_min (fst q) <= start_min c) sorted) ->
  forall p, p ∈ (place_all lanes sorted).1 ->
  forall k, (k < snd p)%nat ->
  exists q, q ∈ prev ++ (place_all lanes sorted).1 /\ snd q = k
            /\ start_min (fst q) <= start_min (fst p) < end_min (fst q).
Proof.
  intros Hs. revert lanes prev.
  induction Hs as [|c rest Hs IH Hc]; intros lanes prev Hinv p; simpl.
  { by intros ?%elem_of_nil. }
  destruct (place lanes c) as [lanes' kc] eqn:Ep.
  specialize (IH lanes' (prev ++ [(c, kc)])).
  destruct (place_all lanes' rest) as [placed final]. simpl in *.
  intros [->|Hp]%elem_of_cons k Hk.
  - simpl in *. destruct (place_lower _ _ _ _ Ep k Hk) as (e & He & Hlt).
    destruct (Hinv k e He) as (q & Hq & Hqk & Hqe & Hqs).
    exists q. split; [apply elem_of_app; by left|]. split; [done|].
    apply Forall_cons in Hqs as [Hqc _]. lia.
  - destruct (IH) with (p := p) (k := k) as (q & Hq & Hqk & Hrun); [|done..|].
    + intros i e Hi.
      destruct (place_lookup _ _ _ _ _ _ Ep Hi) as [[-> ->]|[Hne Hi']].
      * exists (c, kc). split; [apply elem_of_app; right; left|].
        split; [done|]. split; [done|]. simpl.
        eapply Forall_impl; [exact Hc|]. intros c'. apply lane_before_start.
      * destruct (Hinv i e Hi') as (q & Hq & Hqk & Hqe & Hqs).
        exists q. split; [apply elem_of_app; by left|].
        split; [done|]. split; [done|]. by apply Forall_cons in Hqs as [_ ?].
    + exists q. split; [|done].
      rewrite <- app_assoc in Hq. done.
Qed.

(** Every index of the final lanes array is the lane of some entry. *)
Lemma place_all_lanes_used sorted lanes prev :
  (forall i, (i < length lanes)%nat -> exists q, q ∈ prev /\ snd q = i) ->
  forall i, (i < length (place_all lanes sorted).2)%nat ->
  exists q, q ∈ prev ++ (place_all lanes sorted).1 /\ snd q = i.
Proof.
  revert lanes prev. induction sorted as [|c rest IH]; intros lanes prev Hinv i;
    simpl.
  - intros Hi. destruct (Hinv i Hi) as (q & Hq & Hqi).
    exists q. by rewrite app_nil_r.
  - destruct (place lanes c) as [lanes' kc] eqn:Ep.
    specialize (IH lanes' (prev ++ [(c, kc)])).
    destruct (place_all lanes' rest) as [placed final]. simpl in *.
    intros Hi. destruct (IH) with (i := i) as (q & Hq & Hqi); [|done|].
    + intros j Hj. destruct (lookup_lt_is_Some_2 lanes' j Hj) as [e He].
      destruct (place_lookup _ _ _ _ _ _ Ep He) as [[-> _]|[_ He']].
      * exists (c, kc). split; [apply elem_of_app; right; left|done].
      * destruct (Hinv j) as (q & Hq & Hqj); [by eapply lookup_lt_Some|].
        exists q. split; [apply elem_of_app; by left|done].
    + exists q. split; [|done]. by rewrite <- app_assoc in Hq.
Qed.

Lemma place_all_length sorted lanes :
  (length (place_all lanes sorted).2 <= length lanes + length sorted)%nat
  /\ length (place_all lanes sorted).1 = length sorted.
Proof.
  revert lanes. induction sorted as [|c rest IH]; intros lanes; simpl; [lia|].
  destruct (place lanes c) as [lanes' kc] eqn:Ep.
  specialize (IH lanes').
  destruct (place_all lanes' rest) as [placed final]. simpl in *.
  assert (length lanes' <= S (length lanes))%nat.
  { revert Ep. unfold place.
    destruct (find_lane lanes (start_min c) 0); intros [= <- <-].
    - rewrite length_insert. lia.
    - rewrite length_app. simpl. lia. }
  lia.
Qed.
End FirstFit.

Section LanePacking.
Implicit Types (dayCourses : list CourseDto) (p q : Placed).

Lemma computeDayLanes_map_course dayCourses :
  map course (computeDayLanes dayCourses) = lane_sort dayCourses.
Proof.
  rewrite computeDayLanes_unfold, map_map.
  exact (place_all_courses (lane_sort dayCourses) []).
Qed.

(** X1.  [computeDayLanes] places every candidate exactly once: the courses
    of its result are the candidates rearranged, in the order of start
    minute, then end minute. *)
Theorem computeDayLanes_places_all dayCourses :
  map course (computeDayLanes dayCourses) ≡ₚ dayCourses
  /\ StronglySorted lane_before (map course (computeDayLanes dayCourses))
  /\ length (computeDayLanes dayCourses) = length dayCourses.
Proof.
  rewrite computeDayLanes_map_course. split; [apply lane_sort_perm|].
  split; [apply lane_sort_sorted|].
  rewrite <- (length_map course), computeDayLanes_map_course.
  apply Permutation_length, lane_sort_perm.
Qed.

Lemma placed_pair_elem dayCourses p :
  p ∈ computeDayLanes dayCourses <->
  (course p, lane p) ∈ (place_all [] (lane_sort dayCourses)).1
  /\ laneCount p = lane_count (place_all [] (lane_sort dayCourses)).2.
Proof.
  rewrite computeDayLanes_unfold, list_elem_of_fmap. split.
  - intros ([c k] & -> & Hq). by simpl.
  - intros [Hq Hc]. exists (course p, lane p). split; [|done].
    destruct p. simpl in *. by rewrite Hc.
Qed.

(** X2.  First fit: an entry is put in lane [lane p] only because every lane
    below it holds an entry that is running when this one starts.  When the
    two are of the same day and the entry ends after it starts, they overlap
    in the sense of [overlaps]. *)
Theorem computeDayLanes_first_fit dayCourses p k :
  p ∈ computeDayLanes dayCourses -> (k < lane p)%nat ->
  exists q,
    q ∈ computeDayLanes dayCourses /\ lane q = k /\ running_at_start q p
    /\ (day (course q) = day (course p) ->
        start_min (course p) < end_min (course p) ->
        overlaps (course q) (course p) = true).
Proof.
  intros [Hp Hc]%placed_pair_elem Hk.
  destruct (place_all_running (lane_sort dayCourses) [] []
              (lane_sort_sorted dayCourses)) with (p := (course p, lane p)) (k := k)
    as ([c kq] & Hq & Hqk & Hrun); [|done..|].
  { intros i e. by rewrite lookup_nil. }
  simpl in *. subst kq.
  exists (mkPlaced c k (laneCount p)). split; [|split; [done|split; [done|]]].
  - apply placed_pair_elem. by simpl.
  - simpl. intros Hd Hvalid. unfold overlaps.
    rewrite (proj2 (String.eqb_eq _ _) Hd). simpl.
    apply andb_true_intro. split; apply Z.ltb_lt; lia.
Qed.

(** X3.  The lane count of a non-empty result is the number of lanes really
    used: it is at most the number of candidates and every lane index below
    it is the lane of some entry. *)
Theorem computeDayLanes_lanes_used dayCourses p :
  p ∈ computeDayLanes dayCourses ->
  (laneCount p <= length dayCourses)%nat
  /\ forall k, (k < laneCount p)%nat ->
       exists q, q ∈ computeDayLanes dayCourses /\ lane q = k.
Proof.
  intros [Hp Hc]%placed_pair_elem.
  destruct (place_all_bound (lane_sort dayCourses) []) as [_ Hb].
  rewrite Forall_forall in Hb. specialize (Hb _ Hp). simpl in Hb.
  assert (laneCount p = length (place_all [] (lane_sort dayCourses)).2) as Hlen.
  { rewrite Hc. unfold lane_count.
    destruct (length (place_all [] (lane_sort dayCourses)).2); [lia|done]. }
  split.
  - rewrite Hlen.
    destruct (place_all_length (lane_sort dayCourses) []) as [Hle _].
    simpl in Hle. rewrite (Permutation_length (lane_sort_perm dayCourses)) in Hle.
    done.
  - intros k Hk. rewrite Hlen in Hk.
    destruct (place_all_lanes_used (lane_sort dayCourses) [] [])
      with (i := k) as ([c kq] & Hq & Hqk); [simpl; lia|done|].
    simpl in *. subst kq.
    exists (mkPlaced c k (laneCount p)). split; [|done].
    apply placed_pair_elem. by simpl.
Qed.
End LanePacking.

Lemma computeDayLanes_first_fit_witness :
  exists q,
    q ∈ computeDayLanes [dto_10_11; dto_1030_1130] /\ lane q = 0%nat
    /\ running_at_start q (mkPlaced dto_1030_1130 1 2).
Proof.
  destruct (computeDayLanes_first_fit [dto_10_11; dto_1030_1130]
              (mkPlaced dto_1030_1130 1 2) 0)
    as (q & Hq & Hk & Hrun & _).
  - apply list_elem_of_In. vm_compute. right. left. reflexivity.
  - cbn. lia.
  - exists q. split; [exact Hq|]. split; [exact Hk|exact Hrun].
Defined.

Lemma computeDayLanes_lanes_used_witness :
  (2 <= length [dto_10_11; dto_1030_1130])%nat.
Proof.
  apply (proj1 (computeDayLanes_lanes_used [dto_10_11; dto_1030_1130]
                  (mkPlaced dto_1030_1130 1 2)
                  ltac:(apply list_elem_of_In; vm_compute; right; left;
                        reflexivity))).
Defined.

(* ===================================================================== *)
(** * What a drawing pass leaves behind *)
(* ===================================================================== *)

Section DrawingPass.
Variable DATA : Payload.
Implicit Types (st : Page) (mode : bool) (box : Hitbox) (p : Placed).

Lemma with_drawn_nil st : with_drawn [] [] st = st.
Proof.
  destruct st as [v s h [] [cw ch cc] [ow oh oc] t d];
    unfold with_drawn, on_target, set_hitboxes; simpl;
    by rewrite !app_nil_r.
Qed.

Lemma with_drawn_app st h1 c1 h2 c2 :
  with_drawn h2 c2 (with_drawn h1 c1 st) = with_drawn (h1 ++ h2) (c1 ++ c2) st.
Proof.
  destruct st as [v s h [] [cw ch cc] [ow oh oc] t d];
    unfold with_drawn, on_target, set_hitboxes; simpl;
    by rewrite !app_assoc.
Qed.

Lemma with_drawn_fields st h c :
  visibleSubjects (with_drawn h c st) = visibleSubjects st
  /\ selectedCourseIds (with_drawn h c st) = selectedCourseIds st
  /\ ctx (with_drawn h c st) = ctx st
  /\ hitboxes (with_drawn h c st) = hitboxes st ++ h
  /\ statusText (with_drawn h c st) = statusText st
  /\ statusDanger (with_drawn h c st) = statusDanger st.
Proof. unfold with_drawn, on_target. by destruct (ctx _). Qed.

Lemma day_courses_ext mode st st' d :
  visibleSubjects st' = visibleSubjects st ->
  selectedCourseIds st' = selectedCourseIds st ->
  day_courses DATA mode st' d = day_courses DATA mode st d.
Proof. unfold day_courses. by intros -> ->. Qed.

Lemma all_blocks_ext mode st st' :
  visibleSubjects st' = visibleSubjects st ->
  selectedCourseIds st' = selectedCourseIds st ->
  all_blocks DATA mode st' = all_blocks DATA mode st.
Proof.
  intros Hv Hs. unfold all_blocks, day_blocks. f_equal.
  apply map_ext. intros col. by rewrite (day_courses_ext _ _ _ _ Hv Hs).
Qed.

Lemma draw_placed_eq mode di st p :
  draw_placed DATA mode di st p
  = with_drawn (pushed mode [block_box DATA di p])
               [block_cmd mode (selectedCourseIds st) (block_box DATA di p)] st.
Proof.
  destruct st as [v s h [] [cw ch cc] [ow oh oc] t d], mode;
    unfold draw_placed, with_drawn, pushed, on_target, set_hitboxes, emit,
      block_cmd; simpl; by rewrite ?app_nil_r.
Qed.

Lemma foldl_draw_placed mode di st (ps : list Placed) :
  foldl (draw_placed DATA mode di) st ps
  = with_drawn (pushed mode (map (block_box DATA di) ps))
               (map (block_cmd mode (selectedCourseIds st))
                    (map (block_box DATA di) ps)) st.
Proof.
  revert st. induction ps as [|p ps IH]; intros st; simpl.
  - destruct mode; by rewrite with_drawn_nil.
  - rewrite IH, draw_placed_eq, with_drawn_app.
    destruct (with_drawn_fields st (pushed mode [block_box DATA di p])
                [block_cmd mode (selectedCourseIds st) (block_box DATA di p)])
      as (_ & -> & _).
    by destruct mode.
Qed.

Lemma draw_day_eq mode st col :
  draw_day DATA mode st col
  = with_drawn (pushed mode (day_blocks DATA mode st col))
               (map (block_cmd mode (selectedCourseIds st))
                    (day_blocks DATA mode st col)) st.
Proof. unfold draw_day. by rewrite foldl_draw_placed. Qed.

Lemma day_blocks_ext mode st st' col :
  visibleSubjects st' = visibleSubjects st ->
  selectedCourseIds st' = selectedCourseIds st ->
  day_blocks DATA mode st' col = day_blocks DATA mode st col.
Proof. intros Hv Hs. unfold day_blocks. by rewrite (day_courses_ext _ _ _ _ Hv Hs). Qed.

Lemma foldl_draw_day_from mode st0 st (cols : list (nat * string)) :
  visibleSubjects st = visibleSubjects st0 ->
  selectedCourseIds st = selectedCourseIds st0 ->
  foldl (draw_day DATA mode) st cols
  = with_drawn (pushed mode (concat (map (day_blocks DATA mode st0) cols)))
               (map (block_cmd mode (selectedCourseIds st0))
                    (concat (map (day_blocks DATA mode st0) cols))) st.
Proof.
  revert st. induction cols as [|col cols IH]; intros st Hv Hs; simpl.
  - destruct mode; by rewrite with_drawn_nil.
  - rewrite draw_day_eq, (day_blocks_ext _ _ _ _ Hv Hs), Hs.
    destruct (with_drawn_fields st (pushed mode (day_blocks DATA mode st0 col))
                (map (block_cmd mode (selectedCourseIds st0))
                     (day_blocks DATA mode st0 col)))
      as (Hv' & Hs' & _).
    rewrite IH by congruence.
    rewrite with_drawn_app, map_app. by destruct mode.
Qed.

Lemma foldl_draw_day mode st (cols : list (nat * string)) :
  foldl (draw_day DATA mode) st cols
  = with_drawn (pushed mode (concat (map (day_blocks DATA mode st) cols)))
               (map (block_cmd mode (selectedCourseIds st))
                    (concat (map (day_blocks DATA mode st) cols))) st.
Proof. by apply foldl_draw_day_from. Qed.

(** [drawCourses] in one step: the hitboxes are reset, the blocks of all
    columns are drawn in order and, outside export mode, pushed. *)
Lemma drawCourses_eq mode st :
  drawCourses DATA mode st
  = with_drawn (pushed mode (all_blocks DATA mode st))
               (map (block_cmd mode (selectedCourseIds st))
                    (all_blocks DATA mode st))
               (set_hitboxes [] st).
Proof. unfold drawCourses. by rewrite foldl_draw_day. Qed.
End DrawingPass.

Section Rendering.
Variable DATA : Payload.
Implicit Types (st : Page) (mode : bool) (box : Hitbox) (c : CourseDto).

Lemma all_blocks_for mode st :
  all_blocks DATA mode st
  = blocks_for DATA mode (visibleSubjects st) (selectedCourseIds st).
Proof. unfold blocks_for. by apply all_blocks_ext. Qed.

Lemma render_eq st :
  render DATA st
  = setStatus (status_line (selectedCourseIds st)) false
      (with_drawn
         (blocks_for DATA false (visibleSubjects st) (selectedCourseIds st))
         (map (block_cmd false (selectedCourseIds st))
              (blocks_for DATA false (visibleSubjects st) (selectedCourseIds st)))
         (set_hitboxes [] (drawGrid st))).
Proof.
  unfold render. rewrite drawCourses_eq, all_blocks_for.
  by destruct st as [v s h [] cv ofs t d].
Qed.

Lemma render_fields st :
  visibleSubjects (render DATA st) = visibleSubjects st
  /\ selectedCourseIds (render DATA st) = selectedCourseIds st
  /\ ctx (render DATA st) = ctx st
  /\ hitboxes (render DATA st)
     = blocks_for DATA false (visibleSubjects st) (selectedCourseIds st)
  /\ statusText (render DATA st) = status_line (selectedCourseIds st)
  /\ statusDanger (render DATA st) = false.
Proof. rewrite render_eq. by destruct st as [v s h [] cv ofs t d]. Qed.

(** Selection plays no part in the geometry outside export mode. *)
Lemma blocks_for_selection visible s1 s2 :
  blocks_for DATA false visible s1 = blocks_for DATA false visible s2.
Proof. reflexivity. Qed.

(** A state prepared by any handler and then rendered: what was drawn, pushed
    or reported before does not matter. *)
Lemma render_absorbs st v s t d :
  render DATA (setStatus t d (set_selected s (set_visible v (render DATA st))))
  = render DATA (set_selected s (set_visible v st)).
Proof.
  rewrite !render_eq.
  by destruct st as [v0 s0 h [] [cw ch cc] ofs t0 d0].
Qed.

Lemma render_reselect st s t d :
  render DATA (setStatus t d (set_selected s (render DATA st)))
  = render DATA (set_selected s st).
Proof.
  rewrite !render_eq.
  by destruct st as [v0 s0 h [] [cw ch cc] ofs t0 d0].
Qed.

Lemma render_revisible st v :
  render DATA (set_visible v (render DATA st)) = render DATA (set_visible v st).
Proof.
  rewrite !render_eq.
  by destruct st as [v0 s0 h [] [cw ch cc] ofs t0 d0].
Qed.

Lemma render_prepared st s t d :
  render DATA (set_selected s (setStatus t d st)) = render DATA (set_selected s st).
Proof.
  rewrite !render_eq.
  by destruct st as [v0 s0 h [] [cw ch cc] ofs t0 d0].
Qed.

Lemma set_selected_same st : set_selected (selectedCourseIds st) st = st.
Proof. by destruct st. Qed.

Lemma set_visible_same st : set_visible (visibleSubjects st) st = st.
Proof. by destruct st. Qed.

(** X5.  [render] is idempotent: a second pass over the page it produced
    gives the same page, with the same hitboxes in the same order and the
    same drawing on the target surface. *)
Theorem render_idem st : render DATA (render DATA st) = render DATA st.
Proof.
  rewrite !render_eq.
  by destruct st as [v0 s0 h [] [cw ch cc] [ow oh oc] t0 d0].
Qed.
End Rendering.

Section ShownCourses.
Variable DATA : Payload.
Implicit Types (st : Page) (mode : bool) (box : Hitbox) (c : CourseDto).

Lemma elem_of_concat_iff {A} (x : A) (ls : list (list A)) :
  x ∈ concat ls <-> exists l, l ∈ ls /\ x ∈ l.
Proof.
  split; [apply elem_of_concat|].
  intros (l & Hl & Hx). induction Hl as [l ls|l l' ls _ IH]; simpl;
    apply elem_of_app; [by left|right; by apply IH].
Qed.

Lemma elem_of_columns (col : nat * string) :
  col ∈ imap (fun di d => (di, d)) (DAYS DATA) <-> DAYS DATA !! col.1 = Some col.2.
Proof.
  rewrite list_elem_of_lookup. split.
  - intros (n & Hn). rewrite list_lookup_imap in Hn.
    destruct (DAYS DATA !! n) as [d|] eqn:E; simpl in Hn; [|done].
    injection Hn as <-. done.
  - intros Hc. exists col.1. rewrite list_lookup_imap, Hc. by destruct col.
Qed.

Lemma computeDayLanes_elem (dayCourses : list CourseDto) c :
  (exists p, p ∈ computeDayLanes dayCourses /\ course p = c) <-> c ∈ dayCourses.
Proof.
  rewrite <- (lane_sort_perm dayCourses), <- computeDayLanes_map_course.
  rewrite list_elem_of_fmap. split; intros (p & H1 & H2); by exists p.
Qed.

Lemma day_courses_elem mode st d c :
  c ∈ day_courses DATA mode st d <->
  c ∈ page_courses DATA /\ day c = d /\ dto_subject_code c ∈ visibleSubjects st
  /\ (mode = true -> id c ∈ selectedCourseIds st).
Proof.
  unfold day_courses. destruct mode.
  - rewrite !list_elem_of_filter. intuition.
  - rewrite list_elem_of_filter. intuition discriminate.
Qed.

(** The ids of the blocks of a pass. *)
Lemma all_blocks_ids mode st i :
  i ∈ map hb_id (all_blocks DATA mode st) <->
  exists c, shown DATA st c /\ (mode = true -> id c ∈ selectedCourseIds st)
            /\ id c = i.
Proof.
  unfold all_blocks, shown.
  rewrite list_elem_of_fmap. split.
  - intros (box & -> & (l & Hl & Hbox)%elem_of_concat_iff).
    apply list_elem_of_fmap in Hl as (col & -> & Hcol%elem_of_columns).
    unfold day_blocks in Hbox.
    apply list_elem_of_fmap in Hbox as (p & -> & Hp).
    assert (course p ∈ day_courses DATA mode st col.2) as Hc
      by (apply computeDayLanes_elem; by exists p).
    apply day_courses_elem in Hc as (Hin & Hd & Hv & Hs).
    exists (course p). split; [|done]. split; [done|]. split; [|done].
    rewrite Hd. by eapply list_elem_of_lookup_2.
  - intros (c & (Hin & (di & Hd)%list_elem_of_lookup_1 & Hv) & Hs & <-).
    assert (c ∈ day_courses DATA mode st (day c)) as Hc
      by by apply day_courses_elem.
    apply computeDayLanes_elem in Hc as (p & Hp & <-).
    exists (block_box DATA di p). split; [done|].
    apply elem_of_concat_iff.
    exists (day_blocks DATA mode st (di, day (course p))). split.
    + apply list_elem_of_fmap_2, elem_of_columns. done.
    + unfold day_blocks. by apply list_elem_of_fmap_2.
Qed.

Lemma render_hitbox_ids st i :
  i ∈ map hb_id (hitboxes (render DATA st))
  <-> exists c, shown DATA st c /\ id c = i.
Proof.
  destruct (render_fields DATA st) as (_ & _ & _ & -> & _).
  rewrite <- all_blocks_for, all_blocks_ids.
  split; intros (c & Hc); exists c; intuition discriminate.
Qed.

(** X4.  After [render] the hitboxes are those of the shown courses: a
    course has a hitbox exactly when the payload holds it, its day is one of
    the columns and its subject is visible.  The hitboxes depend on the
    visible subjects alone, not on the selection. *)
Theorem render_hitboxes_shown st :
  (forall i, i ∈ map hb_id (hitboxes (render DATA st))
             <-> exists c, shown DATA st c /\ id c = i)
  /\ (forall st', visibleSubjects st' = visibleSubjects st ->
        hitboxes (render DATA st') = hitboxes (render DATA st)).
Proof.
  split; [apply render_hitbox_ids|].
  intros st' Hv.
  destruct (render_fields DATA st) as (_ & _ & _ & -> & _).
  destruct (render_fields DATA st') as (_ & _ & _ & -> & _).
  by rewrite Hv.
Qed.

Lemma scan_hitboxes_Some (boxes : list Hitbox) n x y i :
  scan_hitboxes boxes n x y = Some i ->
  exists b, b ∈ boxes /\ hb_id b = i /\ box_contains b x y = true.
Proof.
  induction n as [|k IH]; simpl; [done|].
  destruct (boxes !! k) as [b|] eqn:Eb; [|done].
  destruct (box_contains b x y) eqn:Ec; [|done].
  intros [= <-]. exists b. split; [by eapply list_elem_of_lookup_2|done].
Qed.

Lemma findCourseById_Some i :
  i ∈ map id (page_courses DATA) -> is_Some (findCourseById DATA i).
Proof.
  intros (c & -> & Hc)%list_elem_of_fmap. unfold findCourseById.
  destruct (List.find _ _) as [c'|] eqn:E; [by eexists|].
  apply list_elem_of_In in Hc. eapply find_none in E; [|exact Hc].
  by rewrite String.eqb_refl in E.
Qed.

Lemma findCourseById_None i :
  i ∉ map id (page_courses DATA) -> findCourseById DATA i = None.
Proof.
  intros Hi. unfold findCourseById.
  destruct (List.find _ _) as [c|] eqn:E; [|done].
  apply find_some in E as [Hc Heq%String.eqb_eq]. subst i. exfalso. apply Hi.
  apply list_elem_of_fmap_2. by apply list_elem_of_In.
Qed.

(** X11.  After [render], a point only ever resolves to the id of a shown
    course whose block contains it; the course is found by [findCourseById],
    so a click never takes the unknown-id exit of [toggleSelection]. *)
Theorem courseAtPoint_shown st x y i :
  courseAtPoint (render DATA st) x y = Some i ->
  (exists c, shown DATA st c /\ id c = i)
  /\ is_Some (findCourseById DATA i).
Proof.
  unfold courseAtPoint. intros (b & Hb & <- & _)%scan_hitboxes_Some.
  assert (exists c, shown DATA st c /\ id c = hb_id b) as Hc.
  { apply render_hitbox_ids. by apply list_elem_of_fmap_2. }
  split; [done|]. destruct Hc as (c & (Hin & _) & <-).
  apply findCourseById_Some. by apply list_elem_of_fmap_2.
Qed.
End ShownCourses.

(* ===================================================================== *)
(** * The handlers *)
(* ===================================================================== *)

Section Handlers.
Variable DATA : Payload.
Implicit Types (st : Page) (i : string).

Lemma remove_then_add (x : string) (X : gset string) :
  x ∈ X -> {[x]} ∪ X ∖ {[x]} = X.
Proof. intros Hx. symmetry. by apply union_difference_singleton_L. Qed.

Lemma add_then_remove (x : string) (X : gset string) :
  x ∉ X -> ({[x]} ∪ X) ∖ {[x]} = X.
Proof.
  intros Hx. rewrite difference_union_distr_l_L, difference_diag_L.
  rewrite (left_id_L ∅ (∪)). apply difference_disjoint_L.
  by apply disjoint_singleton_r.
Qed.

Lemma toggleSelection_known i st :
  i ∈ map id (page_courses DATA) ->
  exists t,
    toggleSelection DATA i st
    = render DATA
        (setStatus t false
           (set_selected (if decide (i ∈ selectedCourseIds st)
                          then selectedCourseIds st ∖ {[i]}
                          else {[i]} ∪ selectedCourseIds st) st)).
Proof.
  intros [c Hc]%findCourseById_Some. unfold toggleSelection. rewrite Hc.
  destruct (decide (i ∈ selectedCourseIds st)); by eexists.
Qed.

(** Two toggles of a known id undo each other, up to a re-render. *)
Lemma toggle_toggle i st :
  i ∈ map id (page_courses DATA) ->
  toggleSelection DATA i (toggleSelection DATA i st) = render DATA st.
Proof.
  intros Hi.
  destruct (toggleSelection_known i st Hi) as [t ->].
  set (s1 := if decide (i ∈ selectedCourseIds st)
             then selectedCourseIds st ∖ {[i]}
             else {[i]} ∪ selectedCourseIds st).
  destruct (toggleSelection_known i
              (render DATA (setStatus t false (set_selected s1 st))) Hi)
    as [t' ->].
  destruct (render_fields DATA (setStatus t false (set_selected s1 st)))
    as (_ & -> & _).
  cbn [selectedCourseIds setStatus set_selected].
  rewrite render_reselect, render_prepared.
  rewrite <- (set_selected_same st) at 2.
  change (set_selected ?a (set_selected ?b st)) with (set_selected a st).
  f_equal. f_equal.
  subst s1. destruct (decide (i ∈ selectedCourseIds st)) as [Hin|Hout].
  - rewrite decide_False
      by (rewrite elem_of_difference, elem_of_singleton; tauto).
    by apply remove_then_add.
  - rewrite decide_True by (apply elem_of_union_l, elem_of_singleton; done).
    by apply add_then_remove.
Qed.

(** X6.  Toggling a known id twice gives the page a plain re-render gives:
    the selection is back to what it was and nothing else has moved.  An id
    that is not in the payload is ignored: the page is returned as it is. *)
Theorem toggleSelection_twice i st :
  (i ∈ map id (page_courses DATA) ->
     toggleSelection DATA i (toggleSelection DATA i st) = render DATA st
     /\ selectedCourseIds (toggleSelection DATA i (toggleSelection DATA i st))
        = selectedCourseIds st)
  /\ (i ∉ map id (page_courses DATA) -> toggleSelection DATA i st = st).
Proof.
  split.
  - intros Hi. rewrite (toggle_toggle i st Hi). split; [done|].
    by destruct (render_fields DATA st) as (_ & -> & _).
  - intros Hi. unfold toggleSelection. by rewrite findCourseById_None.
Qed.

(** X7.  The status a handler sets before it renders does not survive:
    after [toggleSelection] of a known id and after the clear handler the
    status line is the one of [render], "Selected classes: N." with N the
    size of the new selection, and it is not a danger status. *)
Theorem handlers_status_line i st :
  (i ∈ map id (page_courses DATA) ->
     statusText (toggleSelection DATA i st)
     = status_line (selectedCourseIds (toggleSelection DATA i st))
     /\ statusDanger (toggleSelection DATA i st) = false)
  /\ statusText (clearBtn_click DATA st) = "Selected classes: 0."
  /\ statusDanger (clearBtn_click DATA st) = false.
Proof.
  split.
  - intros Hi. destruct (toggleSelection_known i st Hi) as [t ->].
    match goal with |- context [render DATA ?s] =>
      destruct (render_fields DATA s) as (_ & -> & _ & _ & -> & ->) end.
    done.
  - unfold clearBtn_click.
    match goal with |- context [render DATA ?s] =>
      destruct (render_fields DATA s) as (_ & _ & _ & _ & -> & ->) end.
    done.
Qed.

(** X8.  The clear handler empties the selection and leaves the visible
    subjects and the hitboxes of a render as they are; an export right after
    it makes no image and reports that nothing is selected. *)
Theorem clearBtn_click_then_export st :
  selectedCourseIds (clearBtn_click DATA st) = ∅
  /\ visibleSubjects (clearBtn_click DATA st) = visibleSubjects st
  /\ hitboxes (clearBtn_click DATA st) = hitboxes (render DATA st)
  /\ (exportBtn_click DATA (clearBtn_click DATA st)).2 = None
  /\ statusText (exportBtn_click DATA (clearBtn_click DATA st)).1
     = "Nothing selected to export.".
Proof.
  assert (selectedCourseIds (clearBtn_click DATA st) = ∅) as Hs.
  { unfold clearBtn_click.
    match goal with |- context [render DATA ?s] =>
      destruct (render_fields DATA s) as (_ & -> & _) end.
    done. }
  split; [done|]. split; [|split].
  - unfold clearBtn_click.
    match goal with |- context [render DATA ?s] =>
      destruct (render_fields DATA s) as (-> & _) end.
    done.
  - unfold clearBtn_click.
    match goal with |- context [render DATA ?s] =>
      destruct (render_fields DATA s) as (_ & _ & _ & -> & _) end.
    by destruct (render_fields DATA st) as (_ & _ & _ & -> & _).
  - by rewrite (exportBtn_click_empty DATA _ Hs).
Qed.

(** X9.  Unchecking and re-checking the box of a visible subject gives the
    page a plain re-render gives: the visible set and the lane layout are
    back.  The same holds for checking and unchecking a hidden subject. *)
Theorem checkbox_change_round_trip (sub_code : string) st :
  (sub_code ∈ visibleSubjects st ->
     checkbox_change DATA sub_code true (checkbox_change DATA sub_code false st)
     = render DATA st)
  /\ (sub_code ∉ visibleSubjects st ->
        checkbox_change DATA sub_code false (checkbox_change DATA sub_code true st)
        = render DATA st).
Proof.
  unfold checkbox_change. split; intros Hv.
  - match goal with |- context [visibleSubjects (render DATA ?s)] =>
      destruct (render_fields DATA s) as (-> & _) end.
    cbn [visibleSubjects set_visible]. rewrite render_revisible.
    rewrite <- (set_visible_same st) at 3.
    assert ({[sub_code]} ∪ visibleSubjects st ∖ {[sub_code]} = visibleSubjects st)
      as Heq by by apply remove_then_add.
    destruct st. cbn in *. by rewrite Heq.
  - match goal with |- context [visibleSubjects (render DATA ?s)] =>
      destruct (render_fields DATA s) as (-> & _) end.
    cbn [visibleSubjects set_visible]. rewrite render_revisible.
    assert (({[sub_code]} ∪ visibleSubjects st) ∖ {[sub_code]} = visibleSubjects st)
      as Heq by by apply add_then_remove.
    destruct st. cbn in *. by rewrite Heq.
Qed.
End Handlers.

Section ExportImage.
Variable DATA : Payload.
Implicit Types (st : Page) (i : string).

Lemma block_cmd_ids mode (selected : gset string) (boxes : list Hitbox) :
  omap (fun c => match c with
                 | DrawGrid => None
                 | DrawBlock box _ _ => Some (hb_id box)
                 end) (map (block_cmd mode selected) boxes)
  = map hb_id boxes.
Proof.
  induction boxes as [|b boxes IH]; [done|].
  change (hb_id b :: omap (fun c => match c with
                                    | DrawGrid => None
                                    | DrawBlock box _ _ => Some (hb_id box)
                                    end) (map (block_cmd mode selected) boxes)
          = hb_id b :: map hb_id boxes).
  by rewrite IH.
Qed.

Lemma exportBtn_click_image st :
  selectedCourseIds st <> ∅ ->
  exists st',
    exportBtn_click DATA st
    = (st', Some (mkSurface (s_width (canvas st)) (s_height (canvas st))
                    (DrawGrid :: map (block_cmd true (selectedCourseIds st))
                                     (all_blocks DATA true st)))).
Proof.
  intros Hne. unfold exportBtn_click.
  rewrite decide_False by (intros H0; by apply size_empty_inv, leibniz_equiv in H0).
  rewrite drawCourses_eq, !all_blocks_for.
  eexists. reflexivity.
Qed.

Lemma export_image_ids st i :
  i ∈ drawn_ids (mkSurface (s_width (canvas st)) (s_height (canvas st))
                   (DrawGrid :: map (block_cmd true (selectedCourseIds st))
                                    (all_blocks DATA true st)))
  <-> exists c, shown DATA st c /\ id c ∈ selectedCourseIds st /\ id c = i.
Proof.
  unfold drawn_ids. cbn [s_cmds omap]. simpl.
  rewrite block_cmd_ids, all_blocks_ids.
  split; intros (c & Hc); exists c; intuition.
Qed.

(** Every block of an export-mode pass is drawn as selected, not dashed. *)
Lemma export_blocks_selected st :
  Forall (export_cmd (selectedCourseIds st))
         (map (block_cmd true (selectedCourseIds st)) (all_blocks DATA true st)).
Proof.
  apply Forall_forall. intros cmd (box & -> & Hbox)%list_elem_of_fmap.
  assert (hb_id box ∈ selectedCourseIds st) as Hsel.
  { assert (hb_id box ∈ map hb_id (all_blocks DATA true st)) as Hin
      by (by apply list_elem_of_fmap_2).
    apply all_blocks_ids in Hin as (c & _ & Hs & <-). by apply Hs. }
  unfold block_cmd, export_cmd. rewrite bool_decide_eq_true_2 by done. done.
Qed.

(** X10.  The exported image holds the grid and one block for each course
    that is shown and selected, and no other block: a selected course of a
    hidden subject is left out of the export. *)
Theorem exportBtn_click_draws st :
  selectedCourseIds st <> ∅ ->
  exists st' img,
    exportBtn_click DATA st = (st', Some img)
    /\ (forall i, i ∈ drawn_ids img
                  <-> exists c, shown DATA st c /\ id c ∈ selectedCourseIds st
                                /\ id c = i)
    /\ (forall c, c ∈ page_courses DATA -> id c ∈ selectedCourseIds st ->
          dto_subject_code c ∉ visibleSubjects st ->
          (forall c', c' ∈ page_courses DATA -> id c' = id c ->
                      dto_subject_code c' ∉ visibleSubjects st) ->
          id c ∉ drawn_ids img).
Proof.
  intros Hne. destruct (exportBtn_click_image st Hne) as [st' E].
  eexists _, _. split; [exact E|].
  split; [apply export_image_ids|].
  intros c Hc Hsel Hhidden Hall (c' & (Hin & _ & Hv) & _ & Hid)%export_image_ids.
  by apply (Hall c' Hin Hid).
Qed.

(** C5.  With an empty selection the export handler only reports "Nothing
    selected to export." as a danger status: no image is made and the visible
    subjects, the selection, the hitboxes and the canvas are as before.  With
    a non-empty selection it produces an image from an offscreen surface of
    the size of the canvas.  The surface holds the grid and then the
    export-mode blocks and nothing else: column by column, one block for
    every placed course that is shown and selected, each drawn as selected
    and without dashes.  The visible subjects and the selection are left as
    they were. *)
Theorem exportBtn_click_spec st :
  (selectedCourseIds st = ∅ ->
     (exportBtn_click DATA st).2 = None
     /\ statusText (exportBtn_click DATA st).1 = "Nothing selected to export."
     /\ statusDanger (exportBtn_click DATA st).1 = true
     /\ visibleSubjects (exportBtn_click DATA st).1 = visibleSubjects st
     /\ selectedCourseIds (exportBtn_click DATA st).1 = selectedCourseIds st
     /\ hitboxes (exportBtn_click DATA st).1 = hitboxes st
     /\ canvas (exportBtn_click DATA st).1 = canvas st)
  /\ (selectedCourseIds st <> ∅ ->
        exists st' img blocks,
          exportBtn_click DATA st = (st', Some img)
          /\ s_width img = s_width (canvas st)
          /\ s_height img = s_height (canvas st)
          /\ s_cmds img = DrawGrid :: blocks
          /\ blocks = map (block_cmd true (selectedCourseIds st))
                          (all_blocks DATA true st)
          /\ Forall (export_cmd (selectedCourseIds st)) blocks
          /\ (forall i, i ∈ drawn_ids img
                        <-> exists c, shown DATA st c
                                      /\ id c ∈ selectedCourseIds st /\ id c = i)
          /\ visibleSubjects st' = visibleSubjects st
          /\ selectedCourseIds st' = selectedCourseIds st
          /\ canvas st' = canvas st).
Proof.
  split.
  - intros He. by rewrite exportBtn_click_empty.
  - intros Hne.
    destruct (exportBtn_click_nonempty DATA st Hne)
      as (st' & img & blocks & E & Hv & Hs & Hcv & _).
    destruct (exportBtn_click_image st Hne) as [st2 E2].
    rewrite E in E2. injection E2 as _ ->.
    eexists st', _, _. split; [exact E|]. cbn [s_width s_height s_cmds].
    split; [done|]. split; [done|]. split; [reflexivity|].
    split; [reflexivity|]. split; [apply export_blocks_selected|].
    split; [apply export_image_ids|]. done.
Qed.
End ExportImage.


Lemma L1_is_a_course : "A__L1__0" ∈ map id (page_courses overlap_data).
Proof. apply list_elem_of_In. vm_compute. left. reflexivity. Qed.

Lemma courseAtPoint_shown_witness :
  is_Some (findCourseById overlap_data "A__L1__0").
Proof.
  apply (proj2 (courseAtPoint_shown overlap_data (start_page overlap_data)
                  700 200 "A__L1__0" ltac:(vm_compute; reflexivity))).
Defined.

Lemma toggleSelection_twice_witness :
  toggleSelection overlap_data "A__L1__0"
    (toggleSelection overlap_data "A__L1__0" (start_page overlap_data))
  = initial_page overlap_data.
Proof.
  apply (proj1 (proj1 (toggleSelection_twice overlap_data "A__L1__0"
                         (start_page overlap_data)) L1_is_a_course)).
Defined.

Lemma handlers_status_line_witness :
  statusDanger (toggleSelection overlap_data "A__L1__0" (start_page overlap_data))
  = false.
Proof.
  apply (proj2 (proj1 (handlers_status_line overlap_data "A__L1__0"
                         (start_page overlap_data)) L1_is_a_course)).
Defined.

Lemma A_is_visible : "A" ∈ visibleSubjects (start_page overlap_data).
Proof. apply elem_of_elements. apply list_elem_of_In. vm_compute. tauto. Qed.

Lemma checkbox_change_round_trip_witness :
  checkbox_change overlap_data "A" true
    (checkbox_change overlap_data "A" false (start_page overlap_data))
  = initial_page overlap_data.
Proof.
  apply (proj1 (checkbox_change_round_trip overlap_data "A"
                  (start_page overlap_data)) A_is_visible).
Defined.

Lemma exportBtn_click_draws_witness :
  exists st' img, exportBtn_click overlap_data page_L1_selected = (st', Some img).
Proof.
  destruct (exportBtn_click_draws overlap_data page_L1_selected
              page_L1_selected_nonempty) as (st' & img & E & _).
  by exists st', img.
Defined.

Lemma exportBtn_click_spec_witness :
  (exportBtn_click overlap_data (initial_page overlap_data)).2 = None
  /\ exists st' img,
       exportBtn_click overlap_data page_L1_selected = (st', Some img)
       /\ s_width img = s_width (canvas page_L1_selected)
       /\ s_height img = s_height (canvas page_L1_selected)
       /\ "A__L1__0" ∈ drawn_ids img.
Proof.
  split.
  - exact (proj1 (proj1 (exportBtn_click_spec overlap_data
                           (initial_page overlap_data))
                        initial_page_nothing_selected)).
  - destruct (proj2 (exportBtn_click_spec overlap_data page_L1_selected)
                page_L1_selected_nonempty)
      as (st' & img & blocks & E & Hw & Hh & _ & _ & _ & Hids & _).
    exists st', img. split; [exact E|]. split; [exact Hw|]. split; [exact Hh|].
    apply Hids. exists dto_10_11. split; [split; [|split]|split].
    + left.
    + apply list_elem_of_In. vm_compute. tauto.
    + apply elem_of_elements, list_elem_of_In. vm_compute. tauto.
    + apply elem_of_elements, list_elem_of_In. vm_compute. tauto.
    + reflexivity.
Defined.

(* ===================================================================== *)
(** * Printing and reading numbers *)
(* ===================================================================== *)

Section Numbers.
Implicit Types (s u : string) (c ch : ascii) (d : Decimal.uint) (z : Z).
#[local] Arguments String.append !_ _ / : simpl nomatch.

Lemma py_int_cases s :
  py_int s =
  match
    match rstrip is_space (lstrip is_space s) with
    | EmptyString => None
    | String c u =>
        if Ascii.eqb c "+" then parse_digits 0 false u
        else if Ascii.eqb c "-" then Z.opp <$> parse_digits 0 false u
        else parse_digits 0 false (String c u)
    end
  with
  | Some z => Ok z
  | None => Raise ValueError
  end.
Proof.
  unfold py_int. destruct (rstrip is_space (lstrip is_space s)) as [|c u]; [done|].
  by destruct c as [[] [] [] [] [] [] [] []].
Qed.

Lemma digit_of_range c z : digit_of c = Some z -> 0 <= z <= 9.
Proof.
  unfold digit_of. destruct (_ && _) eqn:E; [|done]. intros [= <-].
  apply andb_true_iff in E as [E1%Nat.leb_le E2%Nat.leb_le]. lia.
Qed.

Lemma digit_not_space c z : digit_of c = Some z -> is_space c = false.
Proof.
  unfold digit_of. destruct (_ && _) eqn:E; [|done].
  intros _. apply andb_true_iff in E as [E1%Nat.leb_le E2%Nat.leb_le].
  unfold is_space, Py_ISSPACE, Py_UNICODE_ISSPACE.
  destruct (Nat.leb_spec 9 (nat_of_ascii c)), (Nat.leb_spec (nat_of_ascii c) 13),
    (Nat.eqb_spec (nat_of_ascii c) 32), (Nat.leb_spec 127 (nat_of_ascii c));
    simpl; try lia; reflexivity.
Qed.

Lemma parse_digits_nonneg s acc b z :
  0 <= acc -> parse_digits acc b s = Some z -> 0 <= z.
Proof.
  revert acc b. induction s as [|c s IH]; intros acc b Hacc; simpl.
  - destruct b; [by intros [= <-]|done].
  - destruct (digit_of c) as [dz|] eqn:Ed.
    + apply IH. apply digit_of_range in Ed. lia.
    + destruct (_ && _); [by apply IH|done].
Qed.

Lemma has_char_lstrip ch s : has_char ch s = false -> has_char ch (lstrip is_space s) = false.
Proof.
  induction s as [|c s IH]; simpl; [done|].
  intros [Hc Hs]%orb_false_elim. destruct (is_space c); [by apply IH|].
  simpl. by rewrite Hc, Hs.
Qed.

Lemma has_char_rstrip ch s : has_char ch s = false -> has_char ch (rstrip is_space s) = false.
Proof.
  induction s as [|c s IH]; simpl; [done|].
  intros [Hc Hs]%orb_false_elim. specialize (IH Hs).
  destruct (rstrip is_space s) as [|c' r].
  - destruct (is_space c); simpl; [done|]. by rewrite Hc.
  - simpl in *. by rewrite Hc, IH.
Qed.

(** A field without a minus sign is read as a number that is not negative. *)
Lemma py_int_nonneg s z : has_char "-" s = false -> py_int s = Ok z -> 0 <= z.
Proof.
  intros Hs%has_char_lstrip%has_char_rstrip. rewrite py_int_cases.
  destruct (rstrip is_space (lstrip is_space s)) as [|c u]; [done|].
  simpl in Hs. apply orb_false_elim in Hs as [Hc _]. rewrite Hc.
  destruct (Ascii.eqb c "+").
  - destruct (parse_digits 0 false u) as [z'|] eqn:E; [|done].
    intros [= <-]. by eapply parse_digits_nonneg in E.
  - destruct (parse_digits 0 false (String c u)) as [z'|] eqn:E; [|done].
    intros [= <-]. by eapply parse_digits_nonneg in E.
Qed.

Lemma string_of_uint_digits_only d :
  digits_only (NilEmpty.string_of_uint d) = true.
Proof. induction d; simpl; done. Qed.

Lemma digits_only_has_char ch s :
  digit_of ch = None -> digits_only s = true -> has_char ch s = false.
Proof.
  intros Hch. induction s as [|c s IH]; simpl; [done|].
  destruct (digit_of c) as [z|] eqn:Ec; [|done].
  intros Hs. rewrite (IH Hs), orb_false_r.
  apply Ascii.eqb_neq. intros ->. congruence.
Qed.

Lemma digits_only_strip s : digits_only s = true -> rstrip is_space (lstrip is_space s) = s.
Proof.
  intros Hs. assert (lstrip is_space s = s) as ->.
  { destruct s as [|c s]; [done|]. simpl in *.
    destruct (digit_of c) as [z|] eqn:Ec; [|done].
    by rewrite (digit_not_space c z Ec). }
  induction s as [|c s IH]; [done|]. simpl in *.
  destruct (digit_of c) as [z|] eqn:Ec; [|done]. rewrite (IH Hs).
  destruct s; [|done]. by rewrite (digit_not_space c z Ec).
Qed.

Lemma parse_digits_acc d (acc : positive) :
  parse_digits (Z.pos acc) true (NilEmpty.string_of_uint d)
  = Some (Z.pos (Pos.of_uint_acc d acc)).
Proof.
  revert acc. induction d; intros acc; simpl; [done|..];
    rewrite <- IHd; f_equal; lia.
Qed.

Lemma parse_digits_uint d b :
  b = true \/ d <> Decimal.Nil ->
  parse_digits 0 b (NilEmpty.string_of_uint d) = Some (Z.of_uint d).
Proof.
  revert b. unfold Z.of_uint.
  induction d; intros b Hb; simpl;
    [by destruct Hb as [->|?] | by apply IHd; left
    | exact (parse_digits_acc d _) ..].
Qed.

Lemma py_int_digits s z :
  digits_only s = true -> parse_digits 0 false s = Some z -> py_int s = Ok z.
Proof.
  intros Hs Hp. rewrite py_int_cases, (digits_only_strip s Hs).
  destruct s as [|c u]; [done|]. simpl in Hs.
  destruct (digit_of c) as [dz|] eqn:Ec; [|done].
  assert (Ascii.eqb c "+" = false) as ->.
  { apply Ascii.eqb_neq. intros ->. discriminate. }
  assert (Ascii.eqb c "-" = false) as ->.
  { apply Ascii.eqb_neq. intros ->. discriminate. }
  by rewrite Hp.
Qed.

Lemma py_str_int_nonneg z :
  0 <= z ->
  exists d, py_str_int z = NilEmpty.string_of_uint d
            /\ d <> Decimal.Nil /\ Z.of_uint d = z.
Proof.
  intros Hz. unfold py_str_int. pose proof (DecimalZ.of_to z) as Hof.
  destruct z as [|p|p]; [| |lia]; simpl in *.
  - exists Decimal.zero. done.
  - exists (Pos.to_uint p). split; [done|]. split; [|done].
    intros Hnil. pose proof (DecimalPos.Unsigned.of_to p) as H.
    by rewrite Hnil in H.
Qed.

(** [int(str(n)) == n] and [int(f"{n:02}") == n] for [n >= 0]; the printed
    text holds digits only. *)
Lemma py_int_fmt02 z :
  0 <= z -> digits_only (fmt02 z) = true /\ py_int (fmt02 z) = Ok z.
Proof.
  intros (d & Hd & Hnil & Hz)%py_str_int_nonneg. unfold fmt02. rewrite Hd.
  pose proof (string_of_uint_digits_only d) as Hdig.
  destruct (_ <? _)%nat.
  - split; [done|]. apply py_int_digits; [done|]. simpl.
    rewrite <- Hz. by apply parse_digits_uint; left.
  - split; [done|]. apply py_int_digits; [done|].
    rewrite <- Hz. by apply parse_digits_uint; right.
Qed.
End Numbers.

(* ===================================================================== *)
(** * Course times, printed and read back *)
(* ===================================================================== *)

Section TimeRoundTrip.
Implicit Types (self : Course) (ct : ClassTime) (t : Time).
#[local] Arguments String.append !_ _ / : simpl nomatch.

Lemma fmt02_time_field z : 0 <= z -> time_field (fmt02 z) z.
Proof.
  intros [Hd Hp]%py_int_fmt02. unfold time_field.
  by rewrite !digits_only_has_char.
Qed.

Lemma get_time_nonneg self ct : get_time self = Ok ct -> nonneg_time ct.
Proof.
  intros (hs & ms & he & me & _ & _ & (_ & H1 & P1) & (_ & H2 & P2)
          & (_ & H3 & P3) & (_ & H4 & P4))%get_time_spec.
  unfold nonneg_time.
  split; [exact (py_int_nonneg _ _ H1 P1)|].
  split; [exact (py_int_nonneg _ _ H2 P2)|].
  split; [exact (py_int_nonneg _ _ H3 P3)|exact (py_int_nonneg _ _ H4 P4)].
Qed.

Lemma get_time_of_str (course_code : string) ct :
  str_in (ct_day ct) DAYS_OF_WEEK = true -> nonneg_time ct ->
  get_time (mkCourse course_code (ClassTime_str ct)) = Ok ct.
Proof.
  intros Hd (H1 & H2 & H3 & H4). apply get_time_spec.
  exists (fmt02 (hour (start_time ct))), (fmt02 (minute (start_time ct))),
         (fmt02 (hour (end_time ct))), (fmt02 (minute (end_time ct))).
  split.
  - cbn [time]. unfold ClassTime_str, Time_str. by rewrite !append_assoc.
  - split; [done|]. split; [by apply fmt02_time_field|].
    split; [by apply fmt02_time_field|].
    split; by apply fmt02_time_field.
Qed.

(** X12.  What [get_time] reads is never negative, and [str(ClassTime)]
    is read back as the same [ClassTime]: the [time_str] of a course is a
    normal form of the text it was read from. *)
Theorem get_time_str_round_trip self ct :
  get_time self = Ok ct ->
  nonneg_time ct
  /\ 0 <= to_minutes (start_time ct) /\ 0 <= to_minutes (end_time ct)
  /\ get_time (mkCourse (code self) (ClassTime_str ct)) = Ok ct.
Proof.
  intros Hct. pose proof (get_time_nonneg _ _ Hct) as Hnn.
  split; [done|]. destruct Hnn as (H1 & H2 & H3 & H4).
  unfold to_minutes. split; [lia|]. split; [lia|].
  apply get_time_of_str; [by eapply get_time_day|done].
Qed.
End TimeRoundTrip.

Lemma get_time_str_round_trip_witness :
  get_time (mkCourse "L1" (ClassTime_str
              (mkClassTime "CS" (mkTime 12 0) (mkTime 10 0))))
  = Ok (mkClassTime "CS" (mkTime 12 0) (mkTime 10 0)).
Proof.
  apply (proj2 (proj2 (proj2 (get_time_str_round_trip course_12_10
           (mkClassTime "CS" (mkTime 12 0) (mkTime 10 0)) ltac:(reflexivity))))).
Defined.

(* ===================================================================== *)
(** * What the builder hands to the page *)
(* ===================================================================== *)

Section PayloadInvariant.
Implicit Types (timetable : Timetable) (p : Payload) (subject : Subject)
  (dto : CourseDto).

Lemma course_to_dto_time subject (c : Course) (i : nat) dto :
  _course_to_dto subject c i = Ok dto ->
  exists ct,
    get_time c = Ok ct /\ day dto = ct_day ct
    /\ start_min dto = to_minutes (start_time ct)
    /\ end_min dto = to_minutes (end_time ct)
    /\ time_str dto = ClassTime_str ct
    /\ dto_subject_code dto = subject_code subject
    /\ course_code dto = code c.
Proof.
  unfold _course_to_dto, mbind, result_bind.
  destruct (get_time c) as [ct|] eqn:E; cbn [rbind]; [|done].
  intros [= <-]. by exists ct.
Qed.

Lemma flatten_courses_Forall (P : CourseDto -> Prop) timetable flat :
  (forall subject c i dto,
     subject ∈ subjects timetable -> _course_to_dto subject c i = Ok dto -> P dto) ->
  flatten_courses timetable = Ok flat -> Forall P flat.
Proof.
  intros HP. unfold flatten_courses, mbind, result_bind.
  destruct (rmapM subject_dtos (subjects timetable)) as [per|] eqn:E;
    cbn [rbind]; [|done].
  intros [= <-]. eapply rmapM_concat_Forall; [|exact E].
  intros s dtos Hs Hd. unfold subject_dtos in Hd. apply rmapM_Forall2 in Hd.
  induction Hd as [|ic dto l dtos Hdto _ IH]; constructor; [|done].
  by eapply HP.
Qed.

Lemma build_payload_Forall (P : CourseDto -> Prop) timetable p :
  (forall subject c i dto,
     subject ∈ subjects timetable -> _course_to_dto subject c i = Ok dto -> P dto) ->
  _build_payload timetable = Ok p -> Forall P (p_courses p).
Proof.
  intros HP (flat & Hflat & Hsort & _)%build_payload_courses.
  destruct (sort_courses_spec _ _ Hsort) as (_ & Hperm & _).
  rewrite Hperm. by eapply flatten_courses_Forall.
Qed.

Lemma fold_add_subject_dom (es : list (nat * Subject)) (m : gmap string SubjectInfo) :
  dom (fold_left add_subject_info es m)
  = dom m ∪ list_to_set (map (fun ix => subject_code (snd ix)) es).
Proof.
  revert m. induction es as [|e es IH]; intros m; simpl.
  - by rewrite (right_id_L ∅ (∪)).
  - rewrite IH. unfold add_subject_info at 1. rewrite dom_insert_L.
    by rewrite (comm_L (∪) {[_]} (dom m)), (assoc_L (∪)).
Qed.

Lemma build_subjects_dom (l : list Subject) (k : string) :
  k ∈ dom (build_subjects l) <-> k ∈ map subject_code l.
Proof.
  unfold build_subjects.
  change (k ∈ dom (fold_left add_subject_info (imap (fun i s => (i, s)) l) ∅)
          <-> k ∈ map subject_code l).
  rewrite fold_add_subject_dom, dom_empty_L, (left_id_L ∅ (∪)).
  rewrite elem_of_list_to_set.
  change (map (fun ix : nat * Subject => subject_code ix.2)
              (imap (fun i s => (i, s)) l))
    with ((fun ix : nat * Subject => subject_code ix.2)
            <$> imap (fun i s => (i, s)) l).
  rewrite fmap_imap. unfold compose. simpl.
  change (k ∈ imap (const subject_code) l <-> k ∈ subject_code <$> l).
  by rewrite imap_const.
Qed.

Lemma build_payload_subjects timetable p :
  _build_payload timetable = Ok p ->
  p_subjects p = build_subjects (subjects timetable).
Proof.
  unfold _build_payload, mbind, result_bind.
  destruct (flatten_courses timetable) as [flat|]; cbn [rbind]; [|intros [=]].
  destruct (sort_courses flat) as [sorted|]; cbn [rbind]; [|intros [=]].
  destruct (_compute_time_bounds sorted). by intros [= <-].
Qed.

Lemma payload_courses_sound timetable p :
  _build_payload timetable = Ok p -> Forall (dto_sound p) (p_courses p).
Proof.
  intros Hp. eapply build_payload_Forall; [|exact Hp].
  intros s c i dto Hs (ct & Hct & Hd & Hst & Hen & Hts & Hsc & Hcc)%course_to_dto_time.
  pose proof (get_time_nonneg c ct Hct) as Hnn.
  assert (0 <= to_minutes (start_time ct) /\ 0 <= to_minutes (end_time ct))
    as [H1 H2].
  { destruct Hnn as (? & ? & ? & ?). unfold to_minutes. lia. }
  unfold dto_sound. rewrite Hd, Hst, Hen, Hts, Hsc, Hcc.
  split.
  { apply get_time_day in Hct. unfold str_in in Hct.
    apply existsb_exists in Hct as (d & Hin & ->%String.eqb_eq).
    by apply list_elem_of_In. }
  split; [done|]. split; [done|]. split.
  { rewrite (build_payload_subjects _ _ Hp). apply build_subjects_dom.
    by apply list_elem_of_fmap_2. }
  exists ct. split; [|done].
  apply get_time_of_str; [by eapply get_time_day|done].
Qed.

Lemma payload_days timetable p :
  _build_payload timetable = Ok p -> DAYS p = DAYS_OF_WEEK.
Proof. by intros (_ & _ & _ & _ & ?)%build_payload_courses. Qed.

(** X13.  Every course of a payload the builder returns has a day of
    [DAYS_OF_WEEK], start and end minutes that are not negative, a subject
    code that is a key of the payload's subjects, and a [time_str] that
    reads back as its day, start and end.  The columns of the payload are
    [DAYS_OF_WEEK]. *)
Theorem build_payload_courses_sound timetable p :
  _build_payload timetable = Ok p ->
  Forall (dto_sound p) (p_courses p) /\ days (meta p) = DAYS_OF_WEEK.
Proof.
  intros Hp. split; [by eapply payload_courses_sound|by eapply payload_days].
Qed.

End PayloadInvariant.

Lemma overlap_data_built : _build_payload overlap_sessions = Ok overlap_data.
Proof. vm_compute. reflexivity. Qed.

Lemma build_payload_courses_sound_witness :
  Forall (dto_sound overlap_data) (p_courses overlap_data).
Proof.
  apply (proj1 (build_payload_courses_sound overlap_sessions overlap_data
                  overlap_data_built)).
Defined.


(* ===================================================================== *)
(** * Subjects and their colours *)
(* ===================================================================== *)

Section SubjectColours.
Implicit Types (l : list Subject) (s : Subject) (m : gmap string SubjectInfo).

Lemma fold_add_subject_other (es : list (nat * Subject)) m (k : string) :
  Forall (fun e => subject_code (snd e) <> k) es ->
  fold_left add_subject_info es m !! k = m !! k.
Proof.
  intros Hall. revert m. induction Hall as [|e es He _ IH]; intros m; simpl;
    [done|].
  rewrite IH. unfold add_subject_info. by rewrite lookup_insert_ne.
Qed.

Lemma palette_color_in (i : nat) :
  palette_color i ∈ _palette /\ palette_color (i + 10) = palette_color i.
Proof.
  unfold palette_color. split.
  - destruct (lookup_lt_is_Some_2 _palette (i mod length _palette)) as [x Hx].
    { apply Nat.mod_upper_bound. simpl. lia. }
    rewrite Hx. simpl. by eapply list_elem_of_lookup_2.
  - f_equal. f_equal. simpl length.
    rewrite <- Nat.Div0.add_mod_idemp_r, Nat.Div0.mod_same, Nat.add_0_r. done.
Qed.

(** X15.  The entry of the payload's subjects under a code is the one of
    the last subject with this code; its colour is the palette colour at its
    index modulo the palette size, so colours repeat every ten subjects and
    the fallback of the lookup is never used. *)
Theorem build_subjects_colour l (i : nat) s :
  l !! i = Some s ->
  (forall j s', (i < j)%nat -> l !! j = Some s' -> subject_code s' <> subject_code s) ->
  build_subjects l !! subject_code s
  = Some (mkSubjectInfo (subject_code s) (name s) (credits s) (palette_color i))
  /\ palette_color i ∈ _palette
  /\ palette_color (i + 10) = palette_color i.
Proof.
  intros Hi Hlast. split; [|apply palette_color_in].
  unfold build_subjects.
  change (fold_left add_subject_info (imap (fun i s => (i, s)) l) ∅
            !! subject_code s
          = Some (mkSubjectInfo (subject_code s) (name s) (credits s)
                    (palette_color i))).
  rewrite <- (take_drop_middle l i s Hi) at 1.
  rewrite imap_app, fold_left_app. simpl.
  rewrite fold_add_subject_other.
  - unfold add_subject_info at 1. simpl.
    rewrite lookup_insert_eq. do 3 f_equal.
    rewrite length_take. apply lookup_lt_Some in Hi. lia.
  - apply Forall_forall. intros e (n & Hn)%list_elem_of_lookup_1.
    rewrite list_lookup_imap in Hn.
    destruct (drop (S i) l !! n) as [s'|] eqn:E; simpl in Hn; [|done].
    injection Hn as <-. simpl. rewrite lookup_drop in E.
    apply (Hlast (S i + n)%nat); [lia|done].
Qed.
End SubjectColours.

Lemma build_subjects_colour_witness :
  build_subjects (subjects overlap_sessions) !! "B"
  = Some (mkSubjectInfo "B" "Analysis" 5 "#F28E2B").
Proof.
  apply (proj1 (build_subjects_colour (subjects overlap_sessions) 1
                  (mkSubject "Analysis" "B" 5 [mkCourse "G1" "CS:10:30-11:30"])
                  eq_refl
                  ltac:(intros [|[|j]] s' Hj; [lia|lia|discriminate]))).
Defined.

(* ===================================================================== *)
(** * The window and the sessions *)
(* ===================================================================== *)

Section WindowCovers.
Implicit Types (c : CourseDto) (cs : list CourseDto).

Lemma one_sided_aligned lo hi :
  fst (one_sided_bounds lo hi) mod 60 = 0
  /\ snd (one_sided_bounds lo hi) mod 60 = 0
  /\ 360 <= fst (one_sided_bounds lo hi).
Proof.
  unfold one_sided_bounds, floor_hour, ceil_hour. cbn [fst snd].
  assert (forall q, (q * 60) mod 60 = 0) as Hmul by (intros; apply Z.mod_mul; lia).
  assert (Z.max (6 * 60) (lo / 60 * 60) mod 60 = 0) as Hs.
  { destruct (Z.max_spec (6 * 60) (lo / 60 * 60)) as [[_ ->]|[_ ->]]; [done|].
    reflexivity. }
  split; [done|]. split; [|lia].
  destruct (Z.leb_spec (Z.min (22 * 60) ((hi + 59) / 60 * 60))
                       (Z.max (6 * 60) (lo / 60 * 60))).
  - rewrite <- Zplus_mod_idemp_l, Hs. reflexivity.
  - destruct (Z.min_spec (22 * 60) ((hi + 59) / 60 * 60)) as [[_ ->]|[_ ->]];
      [reflexivity|done].
Qed.

Lemma one_sided_covers lo hi x y :
  lo <= x -> y <= hi ->
  (360 <= x -> fst (one_sided_bounds lo hi) <= x)
  /\ (y <= 1320 -> y <= snd (one_sided_bounds lo hi)).
Proof.
  intros Hx Hy. unfold one_sided_bounds. cbn [fst snd].
  destruct (floor_hour_spec lo) as [Hf _].
  destruct (ceil_hour_spec hi) as [Hc _].
  split; [lia|]. intros Hy'.
  destruct (Z.leb_spec (Z.min (22 * 60) (ceil_hour hi))
                       (Z.max (6 * 60) (floor_hour lo))); lia.
Qed.

(** With sessions that all lie in 06:00-22:00 and last some time, the
    window is the tightest one on whole hours. *)
Lemma one_sided_tight lo hi :
  360 <= lo -> lo < hi -> hi <= 1320 ->
  lo < fst (one_sided_bounds lo hi) + 60
  /\ snd (one_sided_bounds lo hi) - 60 < hi.
Proof.
  intros Hlo Hlt Hhi. unfold one_sided_bounds. cbn [fst snd].
  destruct (floor_hour_spec lo) as [Hf Hfm].
  destruct (ceil_hour_spec hi) as [Hc Hcm].
  assert (ceil_hour hi <= 1320) as Hc'.
  { unfold ceil_hour in *. assert ((hi + 59) / 60 <= 22); [|lia].
    apply Z.lt_succ_r. apply Z.div_lt_upper_bound; lia. }
  assert (360 <= floor_hour lo) as Hf'.
  { unfold floor_hour in *. assert (6 <= lo / 60); [|lia].
    apply Z.div_le_lower_bound; lia. }
  destruct (Z.leb_spec (Z.min (22 * 60) (ceil_hour hi))
                       (Z.max (6 * 60) (floor_hour lo))); lia.
Qed.

(** X16.  The window is aligned on whole hours and does not start before
    06:00, so a session that starts before 06:00 starts outside it.  A
    session that lies in 06:00-22:00 lies in the window, start and end.
    When every session lies in 06:00-22:00 and ends after it starts, the
    window is tight: some session starts in its first hour and some session
    ends in its last hour. *)
Theorem compute_time_bounds_covers cs :
  fst (_compute_time_bounds cs) mod 60 = 0
  /\ snd (_compute_time_bounds cs) mod 60 = 0
  /\ 360 <= fst (_compute_time_bounds cs)
  /\ (forall c, c ∈ cs ->
        (start_min c < 360 -> start_min c < fst (_compute_time_bounds cs))
        /\ (360 <= start_min c -> start_min c <= end_min c ->
            end_min c <= 1320 ->
            fst (_compute_time_bounds cs) <= start_min c
              <= snd (_compute_time_bounds cs)
            /\ fst (_compute_time_bounds cs) <= end_min c
                <= snd (_compute_time_bounds cs)))
  /\ (cs <> [] ->
      Forall (fun c => 360 <= start_min c /\ start_min c < end_min c
                       /\ end_min c <= 1320) cs ->
      (exists c, c ∈ cs /\ start_min c < fst (_compute_time_bounds cs) + 60)
      /\ (exists c, c ∈ cs /\ snd (_compute_time_bounds cs) - 60 < end_min c)).
Proof.
  destruct cs as [|c0 rest].
  - split; [done|]. split; [done|]. split; [done|].
    split; [by intros c Hc%elem_of_nil|done].
  - rewrite compute_time_bounds_cons.
    destruct (one_sided_aligned (py_min (start_min c0) (map start_min rest))
                (py_max (end_min c0) (map end_min rest))) as (H1 & H2 & H3).
    destruct (py_min_least (start_min c0) (map start_min rest)) as [Hmin Hl].
    destruct (py_max_greatest (end_min c0) (map end_min rest)) as [Hmax Hg].
    rewrite Forall_forall in Hl, Hg.
    split; [done|]. split; [done|]. split; [done|]. split.
    + intros c Hc. split; [lia|]. intros Hs Hse He.
      destruct (one_sided_covers (py_min (start_min c0) (map start_min rest))
                  (py_max (end_min c0) (map end_min rest))
                  (start_min c) (end_min c)) as [Hlo Hhi].
      * apply Hl. change (start_min c ∈ map start_min (c0 :: rest)).
        by apply list_elem_of_fmap_2.
      * apply Hg. change (end_min c ∈ map end_min (c0 :: rest)).
        by apply list_elem_of_fmap_2.
      * specialize (Hlo Hs). specialize (Hhi He). lia.
    + intros _ Hall. rewrite Forall_forall in Hall.
      change (py_min (start_min c0) (map start_min rest)
              ∈ map start_min (c0 :: rest)) in Hmin.
      change (py_max (end_min c0) (map end_min rest)
              ∈ map end_min (c0 :: rest)) in Hmax.
      apply list_elem_of_fmap in Hmin as (cl & Hcl & Hinl).
      apply list_elem_of_fmap in Hmax as (ch & Hch & Hinh).
      destruct (Hall cl Hinl) as (Hl1 & Hl2 & Hl3).
      destruct (Hall ch Hinh) as (Hh1 & Hh2 & Hh3).
      assert (end_min cl <= end_min ch) as Hle.
      { rewrite <- Hch. apply Hg. change (end_min cl ∈ map end_min (c0 :: rest)).
        by apply list_elem_of_fmap_2. }
      destruct (one_sided_tight (py_min (start_min c0) (map start_min rest))
                  (py_max (end_min c0) (map end_min rest))) as [Ht1 Ht2]; [lia..|].
      split; [exists cl|exists ch]; (split; [done|lia]).
Qed.
End WindowCovers.

Lemma compute_time_bounds_covers_witness :
  fst (_compute_time_bounds [dto_10_11; dto_1030_1130]) <= start_min dto_1030_1130
    <= snd (_compute_time_bounds [dto_10_11; dto_1030_1130])
  /\ fst (_compute_time_bounds [dto_10_11; dto_1030_1130]) <= end_min dto_1030_1130
      <= snd (_compute_time_bounds [dto_10_11; dto_1030_1130]).
Proof.
  apply (proj2 (proj1 (proj2 (proj2 (proj2 (compute_time_bounds_covers
           [dto_10_11; dto_1030_1130])))) dto_1030_1130
           ltac:(right; left))).
  - vm_compute. discriminate.
  - vm_compute. discriminate.
  - vm_compute. discriminate.
Defined.

(* ===================================================================== *)
(** * All courses or none *)
(* ===================================================================== *)

Section AllOrNothing.
Implicit Types (timetable : Timetable) (subject : Subject) (p : Payload).

Lemma rmapM_Raise {A B} (f : A -> result B) (l : list A) :
  rmapM f l = Raise ValueError <-> exists x, x ∈ l /\ f x = Raise ValueError.
Proof.
  induction l as [|x l IH]; simpl.
  - split; [done|]. by intros (x & ?%elem_of_nil & _).
  - unfold mbind, result_bind. destruct (f x) as [y|[]] eqn:Ey; cbn [rbind].
    + destruct (rmapM f l) as [ys|[]]; cbn [rbind].
      * split; [done|]. intros (x' & [->|Hx']%elem_of_cons & Hf); [congruence|].
        assert (Ok ys = Raise ValueError) as Habs; [|done].
        apply IH. by exists x'.
      * split; [|done]. intros _. destruct (proj1 IH eq_refl) as (x' & Hx' & Hf).
        exists x'. split; [by right|done].
    + split; [|done]. intros _. exists x. split; [left|done].
Qed.

Lemma subject_dtos_Raise subject :
  subject_dtos subject = Raise ValueError
  <-> exists c, c ∈ courses subject /\ get_time c = Raise ValueError.
Proof.
  unfold subject_dtos. rewrite rmapM_Raise. split.
  - intros ([i c] & (n & Hn)%list_elem_of_lookup_1 & Hf).
    rewrite list_lookup_imap in Hn.
    destruct (courses subject !! n) as [c'|] eqn:E; simpl in Hn; [|done].
    injection Hn as <- <-. exists c'. split; [by eapply list_elem_of_lookup_2|].
    revert Hf. unfold _course_to_dto, mbind, result_bind. simpl.
    by destruct (get_time c') as [ct|[]].
  - intros (c & (n & Hn)%list_elem_of_lookup_1 & Hc). exists (n, c). split.
    + apply list_elem_of_lookup. exists n. by rewrite list_lookup_imap, Hn.
    + unfold _course_to_dto, mbind, result_bind. simpl. by rewrite Hc.
Qed.

Lemma flatten_courses_Raise timetable :
  flatten_courses timetable = Raise ValueError
  <-> exists subject c, subject ∈ subjects timetable /\ c ∈ courses subject
                        /\ get_time c = Raise ValueError.
Proof.
  unfold flatten_courses, mbind, result_bind.
  destruct (rmapM subject_dtos (subjects timetable)) as [per|[]] eqn:E;
    cbn [rbind].
  - split; [done|]. intros (s & c & Hs & Hc & Hg).
    assert (Ok per = Raise ValueError) as Habs; [|done].
    rewrite <- E. apply rmapM_Raise. exists s. split; [done|].
    apply subject_dtos_Raise. by exists c.
  - split; [|done]. intros _.
    apply rmapM_Raise in E as (s & Hs & (c & Hc & Hg)%subject_dtos_Raise).
    by exists s, c.
Qed.

Lemma timetable_ids_length timetable :
  length (timetable_ids timetable)
  = length (concat (map courses (subjects timetable))).
Proof.
  unfold timetable_ids. induction (subjects timetable) as [|s subs IH]; simpl;
    [done|].
  rewrite !length_app, IH. f_equal. unfold subject_ids. apply length_imap.
Qed.

(** X17.  The builder is all or nothing.  It raises exactly when
    [get_time] raises for some course of some subject; otherwise the ids of
    the payload's courses are the ids of all courses of all subjects, each
    once, so no course is dropped or repeated. *)
Theorem build_payload_all_or_nothing timetable :
  (_build_payload timetable = Raise ValueError
   <-> exists subject c, subject ∈ subjects timetable /\ c ∈ courses subject
                         /\ get_time c = Raise ValueError)
  /\ (forall p, _build_payload timetable = Ok p ->
        map id (p_courses p) ≡ₚ timetable_ids timetable
        /\ length (p_courses p)
           = length (concat (map courses (subjects timetable)))).
Proof.
  split.
  - rewrite <- flatten_courses_Raise.
    destruct (flatten_courses timetable) as [flat|[]] eqn:E.
    + destruct (build_payload_total _ _ E) as [p ->]. done.
    + unfold _build_payload, mbind, result_bind. by rewrite E.
  - intros p (flat & Hflat & Hsort & _)%build_payload_courses.
    destruct (sort_courses_spec _ _ Hsort) as (_ & Hperm & _).
    assert (map id (p_courses p) ≡ₚ timetable_ids timetable) as Hids.
    { rewrite <- (flatten_courses_ids _ _ Hflat). by apply Permutation_map. }
    split; [done|].
    rewrite <- (length_map id), (Permutation_length Hids).
    apply timetable_ids_length.
Qed.
End AllOrNothing.

Lemma build_payload_all_or_nothing_witness :
  length (p_courses overlap_data)
  = length (concat (map courses (subjects overlap_sessions))).
Proof.
  apply (proj2 (proj2 (build_payload_all_or_nothing overlap_sessions)
                  overlap_data overlap_data_built)).
Defined.

(* ===================================================================== *)
(** * The time labels of the page *)
(* ===================================================================== *)

Section FormatTime.
Implicit Types (t : Time) (z : Z).

Lemma padStart2_fmt02 z : 0 <= z -> padStart2 (py_str_int z) = fmt02 z.
Proof.
  intros (d & Hd & Hnil & _)%py_str_int_nonneg. unfold padStart2, fmt02.
  rewrite Hd. destruct (NilEmpty.string_of_uint d) as [|c1 [|c2 s]] eqn:E.
  - by destruct d.
  - reflexivity.
  - reflexivity.
Qed.

(** X18.  For a time of day with minutes below 60 and a minute count of at
    most [MAX_SAFE_INTEGER], which the page reads from the payload exactly,
    the label the page prints for the minute count is the text Python prints
    for the time: [formatTime(t.to_minutes())] is [str(t)]. *)
Theorem formatTime_to_minutes t :
  0 <= hour t -> 0 <= minute t < 60 -> to_minutes t <= MAX_SAFE_INTEGER ->
  formatTime (to_minutes t) = Time_str t.
Proof.
  intros Hh Hm _. unfold formatTime, to_minutes, Time_str.
  assert ((hour t * 60 + minute t) / 60 = hour t) as ->.
  { rewrite Z.div_add_l by lia. rewrite Z.div_small by lia. lia. }
  assert (Z.rem (hour t * 60 + minute t) 60 = minute t) as ->.
  { rewrite Z.rem_mod_nonneg by lia.
    rewrite Z.add_comm, Z.mod_add by lia. by apply Z.mod_small. }
  by rewrite !padStart2_fmt02 by lia.
Qed.
End FormatTime.

Lemma formatTime_to_minutes_witness :
  formatTime (to_minutes (mkTime 8 5)) = Time_str (mkTime 8 5).
Proof.
  apply formatTime_to_minutes; [simpl; lia|simpl; lia|vm_compute; discriminate].
Defined.

(* ===================================================================== *)
(** * Loading the rows *)
(* ===================================================================== *)

Section Loading.
Implicit Types (row cells : list string) (rows : list (list string))
  (subject : Subject).

Lemma course_pairs_not_blank cells :
  Forall (fun c => blank (code c) = false /\ blank (time c) = false
                   /\ code c ∈ cells /\ time c ∈ cells)
         (course_pairs cells).
Proof.
  induction cells as [cells IH] using (induction_ltof1 _ (@length string)).
  unfold ltof in IH. destruct cells as [|a [|b rest]]; simpl; [constructor..|].
  assert (Forall (fun c => blank (code c) = false /\ blank (time c) = false
                           /\ code c ∈ a :: b :: rest /\ time c ∈ a :: b :: rest)
                 (course_pairs rest)) as Hrest.
  { eapply Forall_impl; [apply IH; simpl; lia|].
    intros c (? & ? & ? & ?). repeat split; try done; by do 2 right. }
  destruct (blank a) eqn:Ea; simpl; [done|].
  destruct (blank b) eqn:Eb; simpl; [done|].
  constructor; [|done]. simpl. split; [done|]. split; [done|].
  split; [left|right; left].
Qed.

Lemma course_pairs_length cells :
  (2 * length (course_pairs cells) <= length cells)%nat.
Proof.
  induction cells as [cells IH] using (induction_ltof1 _ (@length string)).
  unfold ltof in IH. destruct cells as [|a [|b rest]]; simpl; [lia..|].
  specialize (IH rest ltac:(simpl; lia)).
  destruct (blank a || blank b); simpl; lia.
Qed.

Lemma load_row_Loaded row subject :
  load_row row = Loaded subject ->
  exists credits_text cells,
    row = name subject :: subject_code subject :: credits_text :: cells
    /\ py_int credits_text = Ok (credits subject)
    /\ courses subject = course_pairs cells.
Proof.
  destruct row as [|n [|c [|cr cells]]]; simpl; try done.
  destruct (py_int cr) as [z|] eqn:E; [|done].
  intros [= <-]. by exists cr, cells.
Qed.

Lemma load_subjects_Loaded rows (l : list Subject) :
  load_subjects rows = Loaded l ->
  Forall2 (fun row subject => load_row row = Loaded subject) (data_rows rows) l.
Proof.
  revert l. induction rows as [|row rows IH]; intros l; simpl.
  - intros [= <-]. constructor.
  - unfold data_rows. simpl. destruct (blank_row row); simpl; [apply IH|].
    destruct (load_row row) as [s|] eqn:Es; [|done].
    destruct (load_subjects rows) as [l'|]; [|done].
    intros [= <-]. constructor; [done|]. by apply IH.
Qed.

Lemma load_subjects_short rows row :
  row ∈ rows -> blank_row row = false -> (length row < 3)%nat ->
  exists e, load_subjects rows = LoadFails e.
Proof.
  intros Hin Hb Hlen. induction rows as [|r rows IH]; [by apply elem_of_nil in Hin|].
  simpl. apply elem_of_cons in Hin as [<-|Hin].
  - rewrite Hb. destruct row as [|a [|b [|c cells]]]; simpl in *;
      [by eexists..|lia].
  - destruct (IH Hin) as [e He]. rewrite He.
    destruct (blank_row r); [by eexists|].
    destruct (load_row r); by eexists.
Qed.

Lemma course_pairs_indexed (pre cells : list string) :
  omap (course_at (pre ++ cells))
       (map (fun j => length pre + 2 * j)%nat (seq 0 ((length cells + 1) / 2)))
  = course_pairs cells.
Proof.
  revert pre.
  induction cells as [cells IH] using (induction_ltof1 _ (@length string)).
  unfold ltof in IH. intros pre. destruct cells as [|a [|b rest]].
  - reflexivity.
  - cbn [length Nat.add Nat.div Nat.divmod fst seq map omap list_omap].
    unfold course_at. rewrite Nat.mul_0_r, Nat.add_0_r.
    rewrite (lookup_app_r pre [a] (length pre)) by lia.
    rewrite (lookup_app_r pre [a] (S (length pre))) by lia.
    replace (S (length pre) - length pre)%nat with 1%nat by lia.
    by rewrite Nat.sub_diag.
  - replace ((length (a :: b :: rest) + 1) / 2)%nat
      with (S ((length rest + 1) / 2)).
    2:{ replace (length (a :: b :: rest) + 1)%nat
          with ((length rest + 1) + 1 * 2)%nat by (simpl; lia).
        rewrite Nat.div_add by lia. lia. }
    cbn [seq map]. rewrite <- seq_shift, map_map.
    cbn [omap list_omap].
    assert (course_at (pre ++ a :: b :: rest) (length pre + 2 * 0)
            = if blank a || blank b then None else Some (mkCourse a b)) as ->.
    { unfold course_at. rewrite Nat.mul_0_r, Nat.add_0_r.
      rewrite (lookup_app_r pre _ (length pre)) by lia.
      rewrite (lookup_app_r pre _ (S (length pre))) by lia.
      replace (S (length pre) - length pre)%nat with 1%nat by lia.
      by rewrite Nat.sub_diag. }
    assert (omap (course_at (pre ++ a :: b :: rest))
                 (map (fun j => length pre + 2 * S j)%nat
                      (seq 0 ((length rest + 1) / 2)))
            = course_pairs rest) as Hrest.
    { rewrite <- (IH rest ltac:(simpl; lia) (pre ++ [a; b])).
      rewrite <- app_assoc. cbn [app]. f_equal.
      apply map_ext. intros j. rewrite length_app. simpl. lia. }
    cbn [course_pairs]. destruct (blank a || blank b); [exact Hrest|].
    f_equal. exact Hrest.
Qed.

Lemma load_row_as row subject :
  load_row row = Loaded subject -> row_loaded_as row subject.
Proof.
  intros (cr & cells & -> & Hcr & Hcs)%load_row_Loaded.
  split; [done|]. split; [done|]. split; [by exists cr|].
  rewrite Hcs.
  rewrite <- (course_pairs_indexed
                [name subject; subject_code subject; cr] cells).
  unfold pair_indexes. cbn [app length].
  by replace (S (S (S (length cells))) - 2)%nat with (length cells + 1)%nat by lia.
Qed.

Lemma load_row_readable row :
  (exists subject, load_row row = Loaded subject) <-> row_readable row.
Proof.
  unfold row_readable. split.
  - intros [subject (cr & cells & -> & Hcr & _)%load_row_Loaded].
    by exists cr, (credits subject).
  - intros (cr & z & Hrow & Hz).
    destruct row as [|n [|c [|cr' cells]]]; try done.
    injection Hrow as ->. simpl. rewrite Hz. by eexists.
Qed.

Lemma load_subjects_readable rows :
  (exists l, load_subjects rows = Loaded l) <-> Forall row_readable (data_rows rows).
Proof.
  induction rows as [|row rows IH]; simpl.
  - split; [constructor|by eexists].
  - unfold data_rows in *. simpl. destruct (blank_row row); simpl; [exact IH|].
    rewrite Forall_cons, <- IH, <- load_row_readable. split.
    + intros [l Hl]. destruct (load_row row) as [s|]; [|done].
      destruct (load_subjects rows) as [l'|]; [|done].
      split; by eexists.
    + intros [[s ->] [l ->]]. by eexists.
Qed.

(** X19.  When the rows load, there is one subject per row that is not
    blank, in the order of the rows.  Its name, code and credits are the
    cells 0, 1 and 2 of the row, the credits read by [int()]; its courses
    are, in the order of the row, those of the pairs of cells at (3, 4),
    (5, 6) and so on with a code, the first cell, and a time, the second,
    that are both there and not blank.  The times are not read.  The load
    succeeds exactly when every row that is not blank has a third cell that
    [int()] accepts; a row that is not blank and has fewer than three cells
    makes it fail. *)
Theorem load_timetable_rows rows :
  (forall timetable, load_timetable rows = Loaded timetable ->
     Forall2 row_loaded_as (data_rows rows) (subjects timetable))
  /\ ((exists timetable, load_timetable rows = Loaded timetable)
      <-> Forall row_readable (data_rows rows))
  /\ (forall row, row ∈ rows -> blank_row row = false -> (length row < 3)%nat ->
        exists e, load_timetable rows = LoadFails e).
Proof.
  unfold load_timetable. split; [|split].
  - intros timetable. destruct (load_subjects rows) as [l|] eqn:E; [|done].
    intros [= <-]. simpl. apply load_subjects_Loaded in E.
    eapply Forall2_impl; [exact E|]. intros row s. apply load_row_as.
  - rewrite <- load_subjects_readable. split.
    + intros [timetable H]. destruct (load_subjects rows) as [l|]; [|done].
      by eexists.
    + intros [l ->]. by eexists.
  - intros row Hin Hb Hlen.
    destruct (load_subjects_short rows row Hin Hb Hlen) as [e ->]. by eexists.
Qed.
End Loading.

Lemma load_timetable_rows_witness :
  Forall2 row_loaded_as (data_rows [row_algebra; []])
          [mkSubject "Algebra" "A" 4 [mkCourse "L1" "CS:10:00-11:00"]]
  /\ exists e, load_timetable [row_algebra; row_short] = LoadFails e.
Proof.
  split.
  - apply (proj1 (load_timetable_rows [row_algebra; []])
             (mkTimetable [mkSubject "Algebra" "A" 4
                             [mkCourse "L1" "CS:10:00-11:00"]])).
    vm_compute. reflexivity.
  - apply (proj2 (proj2 (load_timetable_rows [row_algebra; row_short]))
             row_short).
    + right. left.
    + reflexivity.
    + simpl. lia.
Defined.

(* ===================================================================== *)
(** * Escaping *)
(* ===================================================================== *)

Section Escaping.
Implicit Types (s a b r : string) (c x : ascii).
#[local] Arguments String.append !_ _ / : simpl nomatch.

Lemma replaceAll_append c r a b :
  replaceAll c r (a +:+ b) = replaceAll c r a +:+ replaceAll c r b.
Proof.
  induction a as [|x a IH]; simpl; [done|].
  destruct (Ascii.eqb x c); simpl; rewrite IH; [|done].
  by rewrite append_assoc.
Qed.

Lemma replaceAll_absent c r s : has_char c s = false -> replaceAll c r s = s.
Proof.
  induction s as [|x s IH]; simpl; [done|].
  intros [-> Hs]%orb_false_elim. by rewrite IH.
Qed.

Lemma escapeHtml_cons x s :
  escapeHtml (String x s) = escape_char x +:+ escapeHtml s.
Proof.
  unfold escapeHtml.
  change (String x s) with (String x EmptyString +:+ s).
  rewrite !replaceAll_append. f_equal.
  unfold escape_char, dquote.
  destruct (Ascii.eqb_spec x "&") as [->|H1]; [reflexivity|].
  destruct (Ascii.eqb_spec x "<") as [->|H2]; [reflexivity|].
  destruct (Ascii.eqb_spec x ">") as [->|H3]; [reflexivity|].
  destruct (Ascii.eqb_spec x (ascii_of_nat 34)) as [->|H4]; [reflexivity|].
  destruct (Ascii.eqb_spec x "'") as [->|H5]; [reflexivity|].
  apply Ascii.eqb_neq in H1, H2, H3, H4, H5.
  cbn [replaceAll]. rewrite H1. cbn [replaceAll]. rewrite H2.
  cbn [replaceAll]. rewrite H3. cbn [replaceAll]. rewrite H4.
  cbn [replaceAll]. rewrite H5. reflexivity.
Qed.

Lemma escapeHtml_each s : escapeHtml s = escape_each s.
Proof.
  induction s as [|x s IH]; [done|].
  by rewrite escapeHtml_cons, IH.
Qed.

Lemma has_markup_append a b : has_markup (a +:+ b) = has_markup a || has_markup b.
Proof.
  induction a as [|x a IH]; simpl; [done|]. by rewrite IH, orb_assoc.
Qed.

Lemma escape_char_clean x : has_markup (escape_char x) = false.
Proof.
  unfold escape_char, dquote.
  destruct (Ascii.eqb x "&") eqn:E1; [reflexivity|].
  destruct (Ascii.eqb x "<") eqn:E2; [reflexivity|].
  destruct (Ascii.eqb x ">") eqn:E3; [reflexivity|].
  destruct (Ascii.eqb x (ascii_of_nat 34)) eqn:E4; [reflexivity|].
  destruct (Ascii.eqb x "'") eqn:E5; [reflexivity|].
  simpl. unfold markup_char, dquote. by rewrite E2, E3, E4, E5.
Qed.

(** X20.  [escapeHtml] works character by character although it is written
    as five passes: no pass touches what an earlier pass inserted.  Its
    result holds none of the characters <, >, double quote and single quote;
    text without these and without an ampersand is returned as it is. *)
Theorem escapeHtml_clean s :
  escapeHtml s = escape_each s
  /\ has_markup (escapeHtml s) = false
  /\ (has_markup s = false -> has_char "&" s = false -> escapeHtml s = s).
Proof.
  split; [apply escapeHtml_each|]. rewrite escapeHtml_each. split.
  - induction s as [|x s IH]; [done|]. simpl.
    by rewrite has_markup_append, escape_char_clean, IH.
  - induction s as [|x s IH]; [done|]. simpl.
    intros [Hx Hs]%orb_false_elim [Ha Hs']%orb_false_elim.
    rewrite (IH Hs Hs'). unfold escape_char. rewrite Ha.
    unfold markup_char in Hx.
    apply orb_false_elim in Hx as [[[-> ->]%orb_false_elim ->]%orb_false_elim ->].
    done.
Qed.
End Escaping.

Lemma escapeHtml_clean_witness : escapeHtml "Algebra 1" = "Algebra 1".
Proof.
  apply (proj2 (proj2 (escapeHtml_clean "Algebra 1"))); reflexivity.
Defined.

(* ===================================================================== *)
(** * Truncated labels *)
(* ===================================================================== *)

Section Truncation.
Context {U : Type}.
Variable dots : list U.
Variable measure : list U -> Q.
Implicit Types (t q text : list U) (maxWidth : Q).

Lemma prefix_slice_off_last q t :
  q `prefix_of` t -> q = t \/ q `prefix_of` slice_off_last t.
Proof.
  intros [k ->]. destruct k as [|u k _] using rev_ind.
  - left. by rewrite app_nil_r.
  - right. unfold slice_off_last. rewrite app_assoc, length_app. simpl.
    replace (length (q ++ k) + 1 - 1)%nat with (length (q ++ k)) by lia.
    rewrite take_app_length. by exists k.
Qed.

Lemma slice_off_last_length t :
  t <> [] -> S (length (slice_off_last t)) = length t.
Proof.
  intros Ht. unfold slice_off_last. rewrite length_take.
  destruct t; [done|]. simpl. lia.
Qed.

Lemma slice_off_last_prefix t : slice_off_last t `prefix_of` t.
Proof. apply prefix_take. Qed.

(** The loop stops within [length t] rounds, at the longest prefix of [t]
    that fits with the dots after it, or at the empty text. *)
Lemma truncate_loop_spec maxWidth fuel t :
  (length t <= fuel)%nat ->
  let r := truncate_loop dots measure maxWidth fuel t in
  r `prefix_of` t
  /\ (r = [] \/ (measure (r ++ dots) <= maxWidth)%Q)
  /\ (forall q, q `prefix_of` t -> (length r < length q)%nat ->
        ~ (measure (q ++ dots) <= maxWidth)%Q).
Proof.
  revert t. induction fuel as [|fuel IH]; intros t Hlen; cbn zeta.
  - destruct t; [|simpl in Hlen; lia]. simpl. split; [done|]. split; [by left|].
    intros q Hq%prefix_nil_inv. subst q. simpl. lia.
  - cbn [truncate_loop]. destruct t as [|u t'] eqn:Et.
    { simpl. split; [done|]. split; [by left|].
      intros q Hq%prefix_nil_inv. subst q. simpl. lia. }
    rewrite <- Et in *. assert (Hne : t <> []) by (by rewrite Et).
    replace (0 <? length t)%nat with true
      by (symmetry; apply Nat.ltb_lt; rewrite Et; simpl; lia).
    cbn [andb]. unfold Qgt_bool.
    destruct (Qle_bool (measure (t ++ dots)) maxWidth) eqn:Ew; cbn [negb].
    + apply Qle_bool_iff in Ew. split; [done|]. split; [by right|].
      intros q Hq%prefix_length. lia.
    + pose proof (slice_off_last_length t Hne) as Hs.
      destruct (IH (slice_off_last t)) as (Hp & Hfit & Hmax); [lia|].
      split; [etrans; [exact Hp|apply slice_off_last_prefix]|].
      split; [exact Hfit|].
      intros q Hq Hlt. destruct (prefix_slice_off_last q t Hq) as [->|Hq'].
      * intros Hle%Qle_bool_iff. congruence.
      * by apply Hmax.
Qed.

(** X21.  [truncateText] returns the text itself when it fits.  Otherwise
    it returns a prefix of the text followed by the dots: the result fits
    unless the prefix is empty, and no longer prefix of the text fits with
    the dots after it. *)
Theorem truncateText_longest_fit text maxWidth :
  ((measure text <= maxWidth)%Q -> truncateText dots measure text maxWidth = text)
  /\ (~ (measure text <= maxWidth)%Q ->
      exists p, truncateText dots measure text maxWidth = p ++ dots
        /\ p `prefix_of` text
        /\ (p = [] \/ (measure (p ++ dots) <= maxWidth)%Q)
        /\ forall q, q `prefix_of` text -> (length p < length q)%nat ->
             ~ (measure (q ++ dots) <= maxWidth)%Q).
Proof.
  unfold truncateText. split.
  - intros H%Qle_bool_iff. by rewrite H.
  - intros H. destruct (Qle_bool (measure text) maxWidth) eqn:E.
    { by apply Qle_bool_iff in E. }
    destruct (truncate_loop_spec maxWidth (length text) text (le_n _))
      as (Hp & Hfit & Hmax).
    exists (truncate_loop dots measure maxWidth (length text) text).
    cbn zeta. split; [|done].
    destruct (truncate_loop dots measure maxWidth (length text) text); done.
Qed.
End Truncation.

Lemma truncateText_longest_fit_witness :
  truncateText [0; 0; 0]%nat seven_wide [1; 2]%nat 35 = [1; 2]%nat
  /\ exists p, truncateText [0; 0; 0]%nat seven_wide [1; 2; 3; 4; 5; 6]%nat 35
               = p ++ [0; 0; 0]%nat
       /\ (p = [] \/ (seven_wide (p ++ [0; 0; 0]%nat) <= 35)%Q).
Proof.
  split.
  - apply (proj1 (truncateText_longest_fit [0; 0; 0]%nat seven_wide
                    [1; 2]%nat 35)).
    apply Qle_bool_iff. reflexivity.
  - destruct (proj2 (truncateText_longest_fit [0; 0; 0]%nat seven_wide
                       [1; 2; 3; 4; 5; 6]%nat 35))
      as (p & Hp & _ & Hfit & _).
    + intros H%Qle_bool_iff. discriminate H.
    + exists p. split; [exact Hp|exact Hfit].
Defined.

(* ===================================================================== *)
(** * Blocks side by side *)
(* ===================================================================== *)

Section SideBySide.
Variable DATA : Payload.
Implicit Types (p q : Placed) (di : nat).

Lemma block_box_x di p :
  hb_x (block_box DATA di p)
  = (dayX di + inject_Z layout.blockPad
     + inject_Z (Z.of_nat (lane p)) * (laneW (laneCount p) + inject_Z 6))%Q.
Proof. reflexivity. Qed.

Lemma block_box_w di p :
  hb_w (block_box DATA di p) = Qmax 30 (laneW (laneCount p)).
Proof. reflexivity. Qed.

(** [n] lanes and their gaps fill the column between its paddings. *)
Lemma laneW_fills n :
  (1 <= n)%nat ->
  (inject_Z (Z.of_nat n) * (laneW n + inject_Z 6) == 184)%Q.
Proof.
  intros Hn. unfold laneW.
  assert (Hnz : ~ (inject_Z (Z.of_nat n) == 0)%Q).
  { unfold Qeq. simpl. lia. }
  rewrite Qmult_plus_distr_r, Qmult_div_r by exact Hnz.
  unfold layout.dayColW, layout.blockPad.
  rewrite <- inject_Z_mult, <- inject_Z_plus.
  unfold Qeq. simpl. lia.
Qed.

Lemma laneW_step_pos n : (1 <= n)%nat -> (0 < laneW n + inject_Z 6)%Q.
Proof.
  intros Hn. pose proof (laneW_fills n Hn) as H.
  assert (Hpos : (0 < inject_Z (Z.of_nat n))%Q).
  { unfold Qlt. simpl. lia. }
  destruct (Qlt_le_dec 0 (laneW n + inject_Z 6)) as [|Hle]; [done|exfalso].
  assert ((inject_Z (Z.of_nat n) * (laneW n + inject_Z 6) <= 0)%Q).
  { rewrite <- (Qmult_0_r (inject_Z (Z.of_nat n))).
    apply Qmult_le_l; [exact Hpos|exact Hle]. }
  rewrite H in *. revert H0. unfold Qle. simpl. lia.
Qed.

(** The width floor of 30 takes over from six lanes on, and the step from
    one lane to the next falls below it from seven lanes on. *)
Lemma laneW_bounds n :
  (1 <= n)%nat ->
  ((n <= 5)%nat -> (30 <= laneW n)%Q)
  /\ ((n <= 6)%nat -> (30 < laneW n + inject_Z 6)%Q)
  /\ ((7 <= n)%nat -> (laneW n + inject_Z 6 < 30)%Q).
Proof.
  intros Hn. pose proof (laneW_fills n Hn) as H.
  assert (Hpos : (0 < inject_Z (Z.of_nat n))%Q).
  { unfold Qlt. simpl. lia. }
  set (s := (laneW n + inject_Z 6)%Q) in *.
  assert (Hs : (s == 184 / inject_Z (Z.of_nat n))%Q).
  { rewrite <- H. rewrite Qmult_comm, Qdiv_mult_l; [reflexivity|].
    unfold Qeq. simpl. lia. }
  split; [|split]; intros Hc.
  - assert ((36 <= s)%Q) as H36.
    { rewrite Hs. apply Qle_shift_div_l; [exact Hpos|].
      rewrite <- (inject_Z_mult 36). unfold Qle. simpl. lia. }
    subst s. revert H36. unfold inject_Z at 1. intros H36.
    apply (Qplus_le_l _ _ (6 # 1)). exact H36.
  - rewrite Hs. apply Qlt_shift_div_l; [exact Hpos|].
    rewrite <- (inject_Z_mult 30). unfold Qlt. simpl. lia.
  - rewrite Hs. apply Qlt_shift_div_r; [exact Hpos|].
    rewrite <- (inject_Z_mult 30). unfold Qlt. simpl. lia.
Qed.
End SideBySide.

Section BlockGeometry.
Variable DATA : Payload.
Implicit Types (p q : Placed) (di : nat).

Lemma computeDayLanes_counts dayCourses p :
  p ∈ computeDayLanes dayCourses ->
  laneCount p = lane_count (place_all [] (lane_sort dayCourses)).2
  /\ (lane p < laneCount p)%nat.
Proof.
  intros [Hp Hc]%placed_pair_elem. split; [exact Hc|].
  destruct (place_all_bound (lane_sort dayCourses) []) as [_ Hb].
  rewrite Forall_forall in Hb. specialize (Hb _ Hp). simpl in Hb.
  pose proof (lane_count_ge (place_all [] (lane_sort dayCourses)).2).
  lia.
Qed.

Lemma inject_nat_le (a b : nat) :
  (a <= b)%nat -> (inject_Z (Z.of_nat a) <= inject_Z (Z.of_nat b))%Q.
Proof. intros H. rewrite <- Zle_Qle. lia. Qed.

(** X22.  Two blocks of one day column in different lanes: with at most six
    lanes the left one ends before the right one begins; with at most five
    lanes both lie between the paddings of the column; from seven lanes on
    the width floor of 30 makes a block reach into the next lane. *)
Theorem blocks_side_by_side dayCourses di p q :
  p ∈ computeDayLanes dayCourses ->
  q ∈ computeDayLanes dayCourses ->
  (lane p < lane q)%nat ->
  ((laneCount p <= 6)%nat ->
     (hb_x (block_box DATA di p) + hb_w (block_box DATA di p)
      < hb_x (block_box DATA di q))%Q)
  /\ ((laneCount p <= 5)%nat ->
        (dayX di + 6 <= hb_x (block_box DATA di p))%Q
        /\ (hb_x (block_box DATA di q) + hb_w (block_box DATA di q)
            <= dayX di + 184)%Q)
  /\ ((7 <= laneCount p)%nat -> lane q = S (lane p) ->
        (hb_x (block_box DATA di q)
         < hb_x (block_box DATA di p) + hb_w (block_box DATA di p))%Q).
Proof.
  intros [Hcp Hlp]%computeDayLanes_counts [Hcq Hlq]%computeDayLanes_counts Hlt.
  assert (Hn : (1 <= laneCount p)%nat) by lia.
  assert (Hqp : laneCount q = laneCount p) by congruence.
  rewrite !block_box_x, !block_box_w, Hqp.
  destruct (laneW_bounds (laneCount p) Hn) as (H5 & H6 & H7).
  pose proof (laneW_step_pos (laneCount p) Hn) as Hpos.
  pose proof (laneW_fills (laneCount p) Hn) as Hfill.
  set (s := (laneW (laneCount p) + inject_Z 6)%Q) in *.
  assert (Hw : (laneW (laneCount p) == s - 6)%Q).
  { subst s. unfold inject_Z. ring. }
  assert (Hpad : inject_Z layout.blockPad = 6%Q) by reflexivity.
  rewrite Hpad.
  set (kp := inject_Z (Z.of_nat (lane p))).
  set (kq := inject_Z (Z.of_nat (lane q))).
  assert (Hkp0 : (0 <= kp)%Q).
  { subst kp. change 0%Q with (inject_Z (Z.of_nat 0)). apply inject_nat_le. lia. }
  assert (Hstep : (kp * s + s <= kq * s)%Q).
  { assert ((kp + 1) * s <= kq * s)%Q as H.
    { apply Qmult_le_compat_r; [|by apply Qlt_le_weak].
      subst kp kq. change 1%Q with (inject_Z 1). rewrite <- inject_Z_plus.
      rewrite <- Zle_Qle. lia. }
    revert H. rewrite Qmult_plus_distr_l, Qmult_1_l. done. }
  assert (Hkps : (0 <= kp * s)%Q).
  { apply Qmult_le_0_compat; [exact Hkp0|by apply Qlt_le_weak]. }
  split; [|split].
  - intros Hc. specialize (H6 Hc).
    assert (Qmax 30 (laneW (laneCount p)) < s)%Q as Hmax.
    { apply Q.max_lub_lt; [exact H6|]. rewrite Hw. lra. }
    lra.
  - intros Hc. specialize (H5 Hc).
    rewrite (Q.max_r _ _ H5), Hw. split; [lra|].
    assert ((kq + 1) * s <= inject_Z (Z.of_nat (laneCount p)) * s)%Q as H.
    { apply Qmult_le_compat_r; [|by apply Qlt_le_weak].
      subst kq. change 1%Q with (inject_Z 1). rewrite <- inject_Z_plus.
      rewrite <- Zle_Qle. lia. }
    rewrite Hfill in H. revert H.
    rewrite Qmult_plus_distr_l, Qmult_1_l. lra.
  - intros Hc Hq. specialize (H7 Hc).
    assert (kq * s == kp * s + s)%Q as Heq.
    { subst kq. rewrite Hq, Nat2Z.inj_succ. unfold Z.succ.
      rewrite inject_Z_plus. subst kp. unfold inject_Z at 2. ring. }
    pose proof (Q.le_max_l 30 (laneW (laneCount p))).
    rewrite Heq. lra.
Qed.
End BlockGeometry.

Lemma blocks_side_by_side_witness :
  (hb_x (block_box overlap_data 3 (mkPlaced dto_10_11 0 2))
   + hb_w (block_box overlap_data 3 (mkPlaced dto_10_11 0 2))
   < hb_x (block_box overlap_data 3 (mkPlaced dto_1030_1130 1 2)))%Q.
Proof.
  apply (proj1 (blocks_side_by_side overlap_data [dto_10_11; dto_1030_1130] 3
                  (mkPlaced dto_10_11 0 2) (mkPlaced dto_1030_1130 1 2)
                  ltac:(apply list_elem_of_In; vm_compute; left; reflexivity)
                  ltac:(apply list_elem_of_In; vm_compute; right; left;
                        reflexivity)
                  ltac:(cbn; lia))).
  cbn. lia.
Defined.

Lemma render_hitboxes_shown_witness :
  hitboxes (render overlap_data page_L1_selected)
  = hitboxes (render overlap_data (start_page overlap_data)).
Proof.
  apply (proj2 (render_hitboxes_shown overlap_data (start_page overlap_data))
           page_L1_selected).
  vm_compute. reflexivity.
Defined.

(* ===================================================================== *)
(** * Clicks on the canvas *)
(* ===================================================================== *)

Section Clicks.
Variable DATA : Payload.
Implicit Types (st : Page) (i : string) (x y : Q).

Lemma render_render st : render DATA (render DATA st) = render DATA st.
Proof.
  rewrite !render_eq.
  by destruct st as [v0 s0 h [] [cw ch cc] [ow oh oc] t0 d0].
Qed.

Lemma courseAtPoint_known st x y i :
  courseAtPoint (render DATA st) x y = Some i ->
  i ∈ map id (page_courses DATA).
Proof.
  unfold courseAtPoint. intros (b & Hb & <- & _)%scan_hitboxes_Some.
  assert (exists c, shown DATA st c /\ id c = hb_id b) as (c & (Hin & _) & <-).
  { apply render_hitbox_ids. by apply list_elem_of_fmap_2. }
  by apply list_elem_of_fmap_2.
Qed.

(** A toggle of a known id leaves the hitboxes of a rendered page alone. *)
Lemma toggleSelection_hitboxes i st :
  i ∈ map id (page_courses DATA) ->
  hitboxes (toggleSelection DATA i (render DATA st)) = hitboxes (render DATA st)
  /\ visibleSubjects (toggleSelection DATA i (render DATA st))
     = visibleSubjects st.
Proof.
  intros Hi. destruct (toggleSelection_known DATA i (render DATA st) Hi) as [t ->].
  match goal with |- context [render DATA (setStatus ?t ?d (set_selected ?s ?r))] =>
    destruct (render_fields DATA (setStatus t d (set_selected s r)))
      as (-> & _ & _ & -> & _) end.
  destruct (render_fields DATA st) as (Hv & _ & _ & -> & _).
  cbn [visibleSubjects selectedCourseIds setStatus set_selected].
  rewrite Hv. split; [apply blocks_for_selection|done].
Qed.

(** X23.  On a rendered page a click changes the selection and nothing that
    decides where the next click lands: the hitboxes and the visible
    subjects stay.  A second click at the same point therefore undoes the
    first, whether it hit a block or not. *)
Theorem canvas_click_twice st x y :
  canvas_click DATA x y (canvas_click DATA x y (render DATA st)) = render DATA st
  /\ hitboxes (canvas_click DATA x y (render DATA st)) = hitboxes (render DATA st)
  /\ visibleSubjects (canvas_click DATA x y (render DATA st)) = visibleSubjects st.
Proof.
  assert (Hv : visibleSubjects (render DATA st) = visibleSubjects st)
    by (by destruct (render_fields DATA st) as (-> & _)).
  unfold canvas_click at 2 3 4.
  destruct (courseAtPoint (render DATA st) x y) as [i|] eqn:Ep.
  - destruct (String.eqb i "") eqn:Ee.
    + unfold canvas_click. rewrite Ep, Ee. done.
    + pose proof (courseAtPoint_known st x y i Ep) as Hi.
      destruct (toggleSelection_hitboxes i st Hi) as [Hh Hvis].
      split; [|done].
      unfold canvas_click, courseAtPoint. rewrite Hh.
      fold (courseAtPoint (render DATA st) x y). rewrite Ep, Ee.
      rewrite (toggle_toggle DATA i _ Hi). apply render_render.
  - unfold canvas_click. rewrite Ep. done.
Qed.
End Clicks.

(* ===================================================================== *)
(** * Lanes and the day column *)
(* ===================================================================== *)

Section LanePosition.
Variable DATA : Payload.
Implicit Types (p : Placed) (di : nat).

(** Where the lane slot and the drawn block of an entry lie, given its lane
    index [k] below the lane count [n]. *)
Lemma lane_slot_position di p :
  (lane p < laneCount p)%nat ->
  (dayX di + 6 <= hb_x (block_box DATA di p))%Q
  /\ (hb_x (block_box DATA di p) < dayX di + 190)%Q
  /\ (hb_x (block_box DATA di p) + laneW (laneCount p) < dayX di + 190)%Q
  /\ ((laneCount p <= 6)%nat ->
        (hb_x (block_box DATA di p) + hb_w (block_box DATA di p)
         <= dayX di + 190)%Q)
  /\ ((laneCount p <= 5)%nat ->
        (hb_x (block_box DATA di p) + hb_w (block_box DATA di p)
         <= dayX di + 184)%Q)
  /\ ((7 <= laneCount p)%nat -> S (lane p) = laneCount p ->
        (dayX di + 190
         < hb_x (block_box DATA di p) + hb_w (block_box DATA di p))%Q).
Proof.
  intros Hlt. assert (Hn : (1 <= laneCount p)%nat) by lia.
  rewrite !block_box_x, !block_box_w.
  destruct (laneW_bounds (laneCount p) Hn) as (H5 & H6 & H7).
  pose proof (laneW_step_pos (laneCount p) Hn) as Hpos.
  pose proof (laneW_fills (laneCount p) Hn) as Hfill.
  set (s := (laneW (laneCount p) + inject_Z 6)%Q) in *.
  assert (Hw : (laneW (laneCount p) == s - 6)%Q).
  { subst s. unfold inject_Z. ring. }
  assert (Hpad : inject_Z layout.blockPad = 6%Q) by reflexivity.
  rewrite Hpad.
  set (k := inject_Z (Z.of_nat (lane p))).
  set (n := inject_Z (Z.of_nat (laneCount p))) in *.
  assert (Hk0 : (0 <= k)%Q).
  { subst k. change 0%Q with (inject_Z (Z.of_nat 0)). apply inject_nat_le. lia. }
  assert (Hks : (0 <= k * s)%Q).
  { apply Qmult_le_0_compat; [exact Hk0|by apply Qlt_le_weak]. }
  assert (Hlast : (k * s + s <= 184)%Q).
  { assert ((k + 1) * s <= n * s)%Q as H.
    { apply Qmult_le_compat_r; [|by apply Qlt_le_weak].
      subst k n. change 1%Q with (inject_Z 1). rewrite <- inject_Z_plus.
      rewrite <- Zle_Qle. lia. }
    rewrite Hfill in H. revert H.
    rewrite Qmult_plus_distr_l, Qmult_1_l. done. }
  split; [lra|]. split; [lra|]. split; [rewrite Hw; lra|].
  split; [|split].
  - intros Hc. specialize (H6 Hc).
    apply Q.max_case_strong.
    + intros a b Hab. by rewrite Hab.
    + intros _. lra.
    + intros _. rewrite Hw. lra.
  - intros Hc. specialize (H5 Hc). rewrite (Q.max_r _ _ H5), Hw. lra.
  - intros Hc Hk. specialize (H7 Hc).
    assert (k * s + s == 184)%Q as Heq.
    { rewrite <- Hfill. subst k n. rewrite <- Hk, Nat2Z.inj_succ. unfold Z.succ.
      rewrite inject_Z_plus. unfold inject_Z at 3. ring. }
    pose proof (Q.le_max_l 30 (laneW (laneCount p))).
    lra.
Qed.

(** C10.  [computeDayLanes] works with a lane count of at least one on
    every input, the empty list included, and every entry it returns
    carries that count together with a lane index below it; the divisor of
    the lane width in [drawCourses] is therefore never zero.  The block of
    an entry starts inside its day column, and its lane slot, from [x] to
    [x + laneW], lies inside the column.  The drawn block
    is at least 30 wide, though: it stays inside the column with up to six
    lanes and between the paddings with up to five, and from seven lanes on
    the block of the last lane reaches beyond the right edge of the
    column. *)
Theorem computeDayLanes_lane_range (dayCourses : list CourseDto) :
  (1 <= lane_count (place_all [] (lane_sort dayCourses)).2)%nat
  /\ forall p, p ∈ computeDayLanes dayCourses ->
       laneCount p = lane_count (place_all [] (lane_sort dayCourses)).2
       /\ (1 <= laneCount p)%nat
       /\ (0 <= lane p < laneCount p)%nat
       /\ ~ (inject_Z (Z.of_nat (laneCount p)) == 0)%Q
       /\ forall di,
            (dayX di + 6 <= hb_x (block_box DATA di p))%Q
            /\ (hb_x (block_box DATA di p) < dayX di + 190)%Q
            /\ (hb_x (block_box DATA di p) + laneW (laneCount p)
                < dayX di + 190)%Q
            /\ ((laneCount p <= 6)%nat ->
                  (hb_x (block_box DATA di p) + hb_w (block_box DATA di p)
                   <= dayX di + 190)%Q)
            /\ ((laneCount p <= 5)%nat ->
                  (hb_x (block_box DATA di p) + hb_w (block_box DATA di p)
                   <= dayX di + 184)%Q)
            /\ ((7 <= laneCount p)%nat -> S (lane p) = laneCount p ->
                  (dayX di + 190
                   < hb_x (block_box DATA di p) + hb_w (block_box DATA di p))%Q).
Proof.
  split; [apply lane_count_ge|].
  intros p Hp. destruct (computeDayLanes_counts dayCourses p Hp) as [Hc Hl].
  split; [exact Hc|]. split; [lia|]. split; [lia|].
  split; [unfold Qeq; simpl; lia|].
  intros di. by apply lane_slot_position.
Qed.
End LanePosition.

Lemma computeDayLanes_lane_range_witness :
  mkPlaced dto_1030_1130 1 2 ∈ computeDayLanes [dto_10_11; dto_1030_1130]
  /\ (1 <= 2)%nat /\ (0 <= 1 < 2)%nat
  /\ (hb_x (block_box overlap_data 3 (mkPlaced dto_1030_1130 1 2))
      + hb_w (block_box overlap_data 3 (mkPlaced dto_1030_1130 1 2))
      <= dayX 3 + 184)%Q.
Proof.
  assert (mkPlaced dto_1030_1130 1 2 ∈ computeDayLanes [dto_10_11; dto_1030_1130])
    as Hin by (apply list_elem_of_In; vm_compute; right; left; reflexivity).
  split; [exact Hin|].
  destruct (proj2 (computeDayLanes_lane_range overlap_data
                     [dto_10_11; dto_1030_1130])
              (mkPlaced dto_1030_1130 1 2) Hin) as (_ & H1 & H2 & _ & Hpos).
  split; [exact H1|]. split; [exact H2|].
  destruct (Hpos 3%nat) as (_ & _ & _ & _ & H5 & _).
  apply H5. cbn. lia.
Defined.

(** C10 as stated fails for the block: with seven sessions at the same time
    of one day there are seven lanes of width 142/7, and the block of the
    last lane, drawn 30 wide, ends beyond the right edge of the column of
    its day although its lane index is in range. *)
Lemma block_leaves_column_with_seven_lanes :
  exists p,
    p ∈ computeDayLanes (day_courses seven_data false (initial_page seven_data) "CS")
    /\ laneCount p = 7%nat /\ lane p = 6%nat
    /\ (0 <= lane p < laneCount p)%nat
    /\ block_box seven_data 3 p ∈ hitboxes (initial_page seven_data)
    /\ (dayX 3 + inject_Z layout.dayColW
        < hb_x (block_box seven_data 3 p) + hb_w (block_box seven_data 3 p))%Q.
Proof.
  eexists (mkPlaced _ 6 7). split.
  { apply list_elem_of_In. vm_compute. do 6 right. left. reflexivity. }
  split; [reflexivity|]. split; [reflexivity|]. split; [cbn; lia|]. split.
  { apply list_elem_of_In. vm_compute. do 6 right. left. reflexivity. }
  vm_compute. reflexivity.
Qed.
